(** * Discovery / enrichment / deduplication pipeline: a shallow embedding

    The development follows the three copies of the pipeline that live in
    the repository:

    - [backend/app/routers/search_paper.py]   (module [SearchPaper]),
    - [backend/app/routers/fetch_data.py]     (module [FetchData]),
    - [backend/app/service/research_service.py] (module [ResearchService]).

    Conventions of the embedding.

    - A Python [str] is a list of 8-bit characters ([list ascii]); the
      character classes used by the code ([str.strip], the regular
      expression class [\D]) are modelled on that range.
    - Python floats are idealised as real numbers; [round(x, 2)] is the
      nearest multiple of 1/100 (ties to even) and is returned as an exact
      decimal in [Q].
    - [datetime.now().year] is an explicit argument [current_year].
    - An exception raised inside a [try] block is a value of type [exn];
      handlers are written out in the order of the source. *)

From Stdlib Require Import List String Ascii ZArith QArith Bool Lia Arith.
From Stdlib Require Import Reals Lra Qreals.
From Stdlib Require Lqa Permutation Sorted.
Import ListNotations.

Set Implicit Arguments.

(** ** Python strings *)

Module PyStr.

Definition str := list ascii.

(** String literals of the development. *)
Definition lit (x : string) : str := list_ascii_of_string x.

(** Truth value of a string: non-empty. *)
Definition truthy (x : str) : bool :=
  match x with [] => false | _ :: _ => true end.

(** [str.isspace] on one character: TAB, LF, VT, FF, CR, the separators
    FS/GS/RS/US, SPACE, NEL and NO-BREAK SPACE. *)
Definition is_space (c : ascii) : bool :=
  let n := nat_of_ascii c in
  ((9 <=? n) && (n <=? 13)) || ((28 <=? n) && (n <=? 32))
  || (n =? 133) || (n =? 160).

(** The decimal digits matched by [\d]. *)
Definition is_digit (c : ascii) : bool :=
  let n := nat_of_ascii c in (48 <=? n) && (n <=? 57).

Fixpoint lstrip (x : str) : str :=
  match x with
  | [] => []
  | c :: r => if is_space c then lstrip r else x
  end.

Definition rstrip (x : str) : str := rev (lstrip (rev x)).

(** [x.strip()] *)
Definition strip (x : str) : str := rstrip (lstrip x).

(** A blank string is empty or made of white space only. *)
Definition blank (x : str) : bool := forallb is_space x.

(** [sep.join(xs)] *)
Fixpoint join (sep : str) (xs : list str) : str :=
  match xs with
  | [] => []
  | [x] => x
  | x :: r => x ++ sep ++ join sep r
  end.

(** [x.upper()]: a-z and the accented small letters whose capital is an
    8-bit character.  The three characters whose capital is not (code
    points 181, 223, 255) are left as they are; none of them becomes a
    letter or digit of the 7-bit range. *)
Definition upper_char (c : ascii) : ascii :=
  let n := nat_of_ascii c in
  if ((97 <=? n) && (n <=? 122))
     || ((224 <=? n) && (n <=? 254) && negb (n =? 247))
  then ascii_of_nat (n - 32) else c.

Definition upper (x : str) : str := map upper_char x.

(** [x.lower()]: A-Z and the accented capitals. *)
Definition lower_char (c : ascii) : ascii :=
  let n := nat_of_ascii c in
  if ((65 <=? n) && (n <=? 90))
     || ((192 <=? n) && (n <=? 222) && negb (n =? 215))
  then ascii_of_nat (n + 32) else c.

Definition lower (x : str) : str := map lower_char x.

Definition eqb (x y : str) : bool :=
  if list_eq_dec ascii_dec x y then true else false.

End PyStr.

Import PyStr.

Open Scope Z_scope.

(** ** Python values, exceptions and ordered dictionaries *)

(** The exceptions the modelled code can meet.  [CancelledError] stands for
    the [BaseException] family, which [except Exception] does not catch;
    [MarkupError] is the exception of [rich] for console markup that it
    cannot render. *)
Inductive exn : Type :=
| HTTPStatusError (code : Z)
| RequestError
| ValueError
| TypeError
| AttributeError
| OtherError
| CancelledError
| MarkupError.

Definition is_Exception (e : exn) : bool :=
  match e with CancelledError => false | _ => true end.

(** How a call ends. *)
Inductive outcome (A : Type) : Type :=
| Returned (a : A)
| Raised (e : exn).

Arguments Returned {A} a.
Arguments Raised {A} e.

(** A decoded JSON document, as [json.loads] builds it.  A [dict] keeps the
    insertion order of its keys. *)
#[warnings="-register-all"]
Inductive pyval : Type :=
| PNone
| PBool (b : bool)
| PInt (z : Z)
| PFloat (q : Q)
| PStr (x : str)
| PList (l : list pyval)
| PDict (d : list (str * pyval)).

Module Dict.
Section Ordered.
Variables K V : Type.
Variable keq : K -> K -> bool.

Definition t := list (K * V).

Fixpoint get (d : t) (k : K) : option V :=
  match d with
  | [] => None
  | (k', v) :: r => if keq k k' then Some v else get r k
  end.

Definition mem (d : t) (k : K) : bool :=
  match get d k with Some _ => true | None => false end.

(** [d[k] = v]: an existing key keeps its place, a new key goes last. *)
Fixpoint set (d : t) (k : K) (v : V) : t :=
  match d with
  | [] => [(k, v)]
  | (k', v') :: r => if keq k k' then (k', v) :: r else (k', v') :: set r k v
  end.

Definition values (d : t) : list V := map snd d.
Definition keys (d : t) : list K := map fst d.

End Ordered.
End Dict.

(** Truth value of a Python object. *)
Definition py_truthy (v : pyval) : bool :=
  match v with
  | PNone => false
  | PBool b => b
  | PInt z => negb (z =? 0)
  | PFloat q => negb (Qeq_bool q 0)
  | PStr x => truthy x
  | PList l => match l with [] => false | _ => true end
  | PDict d => match d with [] => false | _ => true end
  end.

(** [isinstance(v, int)]; [bool] is a subclass of [int]. *)
Definition int_value (v : pyval) : option Z :=
  match v with
  | PInt z => Some z
  | PBool b => Some (if b then 1 else 0)
  | _ => None
  end.

(** The numeric value of an [int], [bool] or [float]. *)
Definition num_value (v : pyval) : option Q :=
  match v with
  | PInt z => Some (inject_Z z)
  | PBool b => Some (if b then 1%Q else 0%Q)
  | PFloat q => Some q
  | _ => None
  end.

Definition Qltb (a b : Q) : bool := negb (Qle_bool b a).

(** ** Abstract reconstruction ([deconstruct_abstract], same text in the
       three files) *)

Module Abstract.

(** [[val[0] for val in inverted_index.values()
      if isinstance(val, list) and val]] *)
Definition valid_indices (d : list (str * pyval)) : list pyval :=
  flat_map (fun kv => match snd kv with
                      | PList (v0 :: _) => [v0]
                      | _ => []
                      end) d.

(** [max] over numbers: the first of the greatest elements. *)
Fixpoint max_from (m : pyval) (mq : Q) (l : list pyval) : exn + pyval :=
  match l with
  | [] => inr m
  | v :: r =>
      match num_value v with
      | Some q => if Qltb mq q then max_from v q r else max_from m mq r
      | None => inl TypeError
      end
  end.

(** [max(valid_indices)] followed by [max_index + 1] as a list length.
    When some element is not a number the source ends in [TypeError]
    either way: a comparison between unlike kinds raises inside [max], and
    a maximum that is a [str], [list], [dict] or [None] cannot be added to
    [1]; a [float] maximum cannot multiply a list. *)
Definition slots_needed (l : list pyval) : exn + Z :=
  match l with
  | [] => inl ValueError
  | v :: r =>
      match num_value v with
      | None => inl TypeError
      | Some q =>
          match max_from v q r with
          | inl e => inl e
          | inr m =>
              match int_value m with
              | Some z => inr (z + 1)
              | None => inl TypeError
              end
          end
      end
  end.

(** [word_list[i] = w] for an index already known to be in range. *)
Fixpoint set_nth (i : nat) (w : str) (l : list str) : list str :=
  match l, i with
  | [], _ => []
  | _ :: r, O => w :: r
  | x :: r, S j => x :: set_nth j w r
  end.

(** The body of the inner loop, with its guard. *)
Definition write_index (word : str) (word_list : list str) (index : pyval)
  : list str :=
  match int_value index with
  | Some i =>
      if (0 <=? i) && (i <? Z.of_nat (List.length word_list))
      then set_nth (Z.to_nat i) word word_list
      else word_list
  | None => word_list
  end.

Definition write_entry (word_list : list str) (kv : str * pyval) : list str :=
  match snd kv with
  | PList indices => fold_left (write_index (fst kv)) indices word_list
  | _ => word_list
  end.

(** The statements inside [try]. *)
Definition deconstruct_body (inverted_index : pyval) : exn + option str :=
  match inverted_index with
  | PDict d =>
      match valid_indices d with
      | [] => inr None
      | vi =>
          match slots_needed vi with
          | inl e => inl e
          | inr n =>
              let word_list := repeat ([] : str) (Z.to_nat n) in
              let word_list := fold_left write_entry d word_list in
              inr (Some (strip (join (lit " ") (filter truthy word_list))))
          end
      end
  | _ => inl AttributeError
  end.

Definition deconstruct_abstract (inverted_index : pyval)
  : outcome (option str) :=
  if negb (py_truthy inverted_index) then Returned None
  else match deconstruct_body inverted_index with
       | inr r => Returned r
       | inl e => if is_Exception e then Returned None else Raised e
       end.

(** The reconstruction as the specification words it, on an index whose
    values are lists of positions: the array has one slot per position up
    to the greatest position listed anywhere, and every listed position is
    written. *)
Definition spec_index := list (str * list nat).

Definition spec_max_position (d : spec_index) : option nat :=
  match flat_map snd d with
  | [] => None
  | p :: ps => Some (fold_left Nat.max ps p)
  end.

Definition spec_write_entry (slots : list str) (kv : str * list nat)
  : list str :=
  fold_left (fun sl i => set_nth i (fst kv) sl) (snd kv) slots.

Definition spec_reconstruct (d : spec_index) : option str :=
  match spec_max_position d with
  | None => None
  | Some m =>
      let slots := fold_left spec_write_entry d (repeat ([] : str) (S m)) in
      Some (join (lit " ") (filter truthy slots))
  end.

(** The same index as the JSON document the code receives. *)
Definition to_dict (d : spec_index) : list (str * pyval) :=
  map (fun kv => (fst kv, PList (map (fun i => PInt (Z.of_nat i)) (snd kv))))
      d.

Definition to_pyval (d : spec_index) : pyval := PDict (to_dict d).

(** The first position of every word that has one, and the greatest of
    them. *)
Definition first_positions (d : spec_index) : list nat :=
  flat_map (fun kv => match snd kv with i :: _ => [i] | [] => [] end) d.

Definition first_position_limit (d : spec_index) : option nat :=
  match first_positions d with
  | [] => None
  | p :: ps => Some (fold_left Nat.max ps p)
  end.

(** The index without the positions from [n] on. *)
Definition within (n : nat) (d : spec_index) : spec_index :=
  map (fun kv => (fst kv, filter (fun i => (i <? n)%nat) (snd kv))) d.

End Abstract.

Import Abstract.

(** ** Records of the pipeline *)

(** The merged paper (the dictionary [final_paper] / [paper]).  An absent
    key or a [None] value is [None]; [abstract_text] is the key
    ["abstract"]. *)
Record Paper : Type := mkPaper {
  title : option str;
  authors : list str;
  doi : option str;
  citationCount : option Z;
  publisher : option str;
  yearPublished : option Z;
  abstract_text : option str;
  isFreelyAvailable : bool;
  downloadUrl : option str;
  journalTitle : option str;
  issn : option str;
  quartile : option str;
  h_index : option Q;
  sjrScore : option Q;
  impactFactor : option Q;
  sourceKeyword : option str;
  qualityScore : option Q
}.

Definition set_qualityScore (p : Paper) (s : Q) : Paper :=
  mkPaper (title p) (authors p) (doi p) (citationCount p) (publisher p)
          (yearPublished p) (abstract_text p) (isFreelyAvailable p)
          (downloadUrl p) (journalTitle p) (issn p) (quartile p) (h_index p)
          (sjrScore p) (impactFactor p) (sourceKeyword p) (Some s).

(** A paper with no field set. *)
Definition empty_paper : Paper :=
  mkPaper None [] None None None None None false None None None None None
          None None None None.

(** [p] with another citation count, every other field as it is. *)
Definition with_citations (p : Paper) (c : option Z) : Paper :=
  mkPaper (title p) (authors p) (doi p) c (publisher p)
          (yearPublished p) (abstract_text p) (isFreelyAvailable p)
          (downloadUrl p) (journalTitle p) (issn p) (quartile p) (h_index p)
          (sjrScore p) (impactFactor p) (sourceKeyword p) (qualityScore p).

(** The ranking metrics are not negative and the publication year is not
    after [current_year]. *)
Definition metrics_in_range (current_year : Z) (p : Paper) : bool :=
  match sjrScore p with Some s => Qle_bool 0 s | None => true end
  && match h_index p with Some h => Qle_bool 0 h | None => true end
  && match yearPublished p with Some y => y <=? current_year | None => true end.

(** A paper whose only metric is its publication year. *)
Definition paper_of_year (y : Z) : Paper :=
  mkPaper None [] None None None (Some y) None false None None None None None
          None None None None.

(** A much cited open-access paper of a leading journal, dated [y]. *)
Definition leading_paper (y : Z) : Paper :=
  mkPaper (Some (lit "t")) [] (Some (lit "10.1/x")) (Some 999) None (Some y)
          (Some (lit "x")) true None None None (Some (lit "Q1"))
          (Some (200 # 1)) (Some (30 # 1)) None None None.

(** [paper.get("abstract")] as a condition. *)
Definition has_abstract (p : Paper) : bool :=
  match abstract_text p with Some x => truthy x | None => false end.

(** [p.get("qualityScore", 0)] *)
Definition score_of (p : Paper) : Q :=
  match qualityScore p with Some s => s | None => 0%Q end.

(** [work["open_access"]] *)
Record OpenAccess : Type := mkOpenAccess {
  is_oa : bool;
  oa_url : option str
}.

(** [host_venue["issn"]]: absent, one string, or a list of strings. *)
Inductive venue_issn : Type :=
| IssnAbsent
| IssnOne (x : str)
| IssnMany (l : list str).

Record HostVenue : Type := mkHostVenue {
  hv_issn : venue_issn;
  issn_l : option str;
  display_name : option str
}.

(** A discovered work of the primary source, with the keys the pipeline
    reads.  [authorships] keeps, for each entry, the display name of its
    author when the entry has one.  A key that is absent or [null] is
    [None], except [cited_by_count], whose absence the code reads as 0. *)
Record RawWork : Type := mkRawWork {
  w_title : option str;
  authorships : list (option str);
  w_doi : option str;
  cited_by_count : option Z;
  publication_year : option Z;
  abstract_inverted_index : pyval;
  open_access : option OpenAccess;
  host_venue : option HostVenue
}.

(** The ["message"] object of the secondary source.  A key that is absent
    is [None]; [cr_other_keys] counts the keys the pipeline never reads. *)
Record CrossrefMeta : Type := mkCrossrefMeta {
  cr_publisher : option str;
  container_title : option (list str);
  cr_ISSN : option (list str);
  cr_other_keys : nat
}.

(** The empty object [{}]. *)
Definition empty_meta : CrossrefMeta := mkCrossrefMeta None None None 0.

(** Truth value of the message: a dictionary with at least one key. *)
Definition meta_truthy (m : CrossrefMeta) : bool :=
  match cr_publisher m, container_title m, cr_ISSN m, cr_other_keys m with
  | None, None, None, O => false
  | _, _, _, _ => true
  end.

(** One record of the ranking table. *)
Record RankingRecord : Type := mkRankingRecord {
  r_quartile : option str;
  r_h_index : option Q;
  r_sjr : option Q;
  r_impact_factor : option Q;
  r_ImpactFactor : option Q;
  r_JIF : option Q;
  r_jif : option Q
}.

(** [sjr_lookup_data] *)
Definition RankingTable : Type := Dict.t str RankingRecord.

(** What one GET on the secondary source leads to inside the [try]
    block. *)
Inductive attempt_outcome : Type :=
| JsonObject (message : option CrossrefMeta)
    (* 2xx and a JSON object, with or without the key "message" *)
| JsonOther
    (* 2xx and a JSON document that is not an object *)
| StatusError (code : Z)
    (* [raise_for_status] raises [HTTPStatusError] *)
| TransportError
    (* [httpx.RequestError]: connection failure or timeout *)
| MalformedBody
    (* [response.json()] raises [ValueError] *)
| UnexpectedError
    (* any other [Exception] *)
| Cancellation.
    (* a [BaseException] that is not an [Exception] *)

(** The statements of the [try] block up to [return]. *)
Definition request_message (o : attempt_outcome) : exn + CrossrefMeta :=
  match o with
  | JsonObject (Some m) => inr m
  | JsonObject None => inr empty_meta
  | JsonOther => inl AttributeError
  | StatusError code => inl (HTTPStatusError code)
  | TransportError => inl RequestError
  | MalformedBody => inl ValueError
  | UnexpectedError => inl OtherError
  | Cancellation => inl CancelledError
  end.

(** The observable run of one logical fetch: how it ended, how many GET
    requests were sent, and the back-off sleeps in order. *)
Record fetch_run : Type := mkRun {
  result : outcome (option CrossrefMeta);
  attempts : nat;
  sleeps : list Q
}.

(** The run ended in a value, and a message that was returned is the one
    of a response that was received. *)
Definition resolves (responses : nat -> attempt_outcome) (run : fetch_run)
  : Prop :=
  match result run with
  | Returned None => True
  | Returned (Some m) => exists k, request_message (responses k) = inr m
  | Raised _ => False
  end.

(** A scripted source: the listed outcomes in order, then transport
    errors. *)
Definition script (l : list attempt_outcome) : nat -> attempt_outcome :=
  fun k => nth k l TransportError.

(** A message with a publisher and one ISSN. *)
Definition sample_meta : CrossrefMeta :=
  mkCrossrefMeta (Some (lit "P")) (Some [lit "J"]) (Some [lit "1234-5678"]) 0.

Definition MAX_RETRIES : nat := 5.
Definition INITIAL_BACKOFF : Q := 2.

(** *** Console messages of [search_paper.py] *)

(** The calls of [console.log] whose text interpolates a DOI, a keyword
    or the query, each with the values it interpolates.  [rich] reads the
    text as console markup, so these values decide whether the call
    returns.  The calls on a constant text, whose tags are balanced, are
    left out. *)
Inductive log_message : Type :=
| RateLimitedMessage (doi kw : str) (wait_time : Q) (attempt retries : nat)
    (* "[yellow]Crossref 429[/] for DOI [magenta]{doi}[/] (kw='{kw}')
       -> sleep {wait_time:.1f}s (attempt {attempt+1}/{retries})" *)
| StatusMessage (code : Z) (doi kw : str)
    (* "[red]Crossref HTTP {code}[/] for DOI {doi} (kw='{kw}')" *)
| RequestErrorMessage (doi kw : str) (e : exn)
    (* "[red]Crossref error[/] for DOI {doi} (kw='{kw}'): {e}" *)
| UnexpectedMessage (doi kw : str) (e : exn)
    (* "[red]Unexpected Crossref error[/] for DOI {doi} (kw='{kw}'): {e}" *)
| IncomingQueryMessage (query : str).
    (* "Incoming query: [bold]{query}[/]" *)

(** What [console.log] does with a message: it returns ([None]) or raises
    an exception.  The console belongs to the environment, like the
    responses of the services. *)
Definition console_log : Type := log_message -> option exn.

(** The message is one of the fetcher for this DOI and keyword. *)
Definition concerns (doi kw : str) (m : log_message) : bool :=
  match m with
  | RateLimitedMessage d k _ _ _
  | StatusMessage _ d k
  | RequestErrorMessage d k _
  | UnexpectedMessage d k _ => eqb d doi && eqb k kw
  | IncomingQueryMessage _ => false
  end.

(** Every message of the fetcher for this DOI and keyword is rendered. *)
Definition renders_for (console : console_log) (doi kw : str) : Prop :=
  forall m, concerns doi kw m = true -> console m = None.

(** The texts of the scenarios whose closing tag matches no open tag. *)
Definition unmatched_tag (x : str) : bool :=
  eqb x (lit "10.1/[/x]") || eqb x (lit "[/]").

(** The console in the scenarios of this file: [rich] raises
    [MarkupError] on the messages that interpolate the DOI ["10.1/[/x]"]
    or the text ["[/]"], where a closing tag matches no open tag, and
    renders the messages of the other texts used there, which hold no
    bracket. *)
Definition scenario_console : console_log :=
  fun m =>
    let raises (x : str) :=
      if unmatched_tag x then Some MarkupError else None in
    match m with
    | RateLimitedMessage d k _ _ _
    | StatusMessage _ d k
    | RequestErrorMessage d k _
    | UnexpectedMessage d k _ =>
        if unmatched_tag d then Some MarkupError else raises k
    | IncomingQueryMessage q => raises q
    end.

(** [a or b] on optional numbers. *)
Definition or_q (a b : option Q) : option Q :=
  match a with
  | Some q => if Qeq_bool q 0 then b else a
  | None => b
  end.

(** [re.sub(r"\D", "", x)] *)
Definition strip_non_digits (x : str) : str := filter is_digit x.

(** ** Arithmetic of the scorer *)

Module Num.

(** [math.log10] *)
Definition log10 (x : R) : R := (ln x / ln 10)%R.

(** Nearest integer, ties to the even neighbour. *)
Definition round_half_even (x : R) : Z :=
  let f := Zfloor x in
  if Rlt_dec (x - IZR f) (1 / 2) then f
  else if Rlt_dec (1 / 2) (x - IZR f) then f + 1
  else if Z.even f then f else f + 1.

(** [round(x, 2)] *)
Definition round2 (x : R) : Q := Qmake (round_half_even (x * 100)) 100.

End Num.

(** ** [search_paper.py] *)

Module SearchPaper.

Import Num.

(** [clean_issn] *)
Definition clean_issn (issn : str) : str := strip_non_digits issn.

(** *** Query partitioner ([split_keywords]) *)

(** The separator class of the pattern: comma, newline, semicolon. *)
Definition is_sep (c : ascii) : bool :=
  let n := nat_of_ascii c in ((n =? 44) || (n =? 10) || (n =? 59))%nat.

(** [re.split(r"[,\n;]+", x)]: the pieces between maximal runs of
    separators; a run at either end leaves an empty piece there.  The head
    of the result is the piece being read; [in_run] tells that the previous
    character was a separator. *)
Fixpoint re_split_from (in_run : bool) (x : str) : list str :=
  match x with
  | [] => [[]]
  | c :: r =>
      if is_sep c then
        if in_run then re_split_from true r else [] :: re_split_from true r
      else
        match re_split_from false r with
        | p :: ps => (c :: p) :: ps
        | [] => [[c]]
        end
  end.

Definition re_split (x : str) : list str := re_split_from false x.

(** The query holds no comma, newline or semicolon. *)
Definition no_separator (q : str) : bool :=
  forallb (fun c => negb (is_sep c)) q.

Definition split_keywords (q : str) : list str :=
  let parts :=
    map strip (filter (fun p => truthy p && truthy (strip p)) (re_split q)) in
  match parts with
  | [] => [strip q]
  | _ :: _ => parts
  end.

(** *** Quality scorer ([calculate_quality_score]) *)

(** [quartile_scores.get(q, 0)] *)
Definition quartile_scores (q : str) : Z :=
  if eqb q (lit "Q1") then 20
  else if eqb q (lit "Q2") then 15
  else if eqb q (lit "Q3") then 10
  else if eqb q (lit "Q4") then 5
  else 0.

(** SJR (0..40; saturating) *)
Definition sjr_points (sjr : option Q) : R :=
  match sjr with
  | Some s => Rmin 40 (40 * (1 - exp (- Q2R s / 3)))
  | None => 0
  end.

(** h-index (0..30; taper after 200) *)
Definition h_points (h : option Q) : R :=
  match h with
  | Some h => Rmin 30 (30 * (Rmin (Q2R h) 200 / 200))
  | None => 0
  end.

(** Quartile (0..20) *)
Definition quartile_points (q : option str) : R :=
  match q with
  | Some q => IZR (quartile_scores (upper q))
  | None => 0
  end.

(** Citations (0..30; log10) *)
Definition citation_points (cites : option Z) : R :=
  match cites with
  | Some c => if 0 <? c then Rmin 30 (log10 (IZR (c + 1)) * 10) else 0
  | None => 0
  end.

(** Recency (0..10 within last 5 years) *)
Definition recency_points (current_year : Z) (year : option Z) : R :=
  match year with
  | Some y =>
      let years_old := current_year - y in
      if years_old <=? 5 then IZR (Z.max (10 - years_old * 2) 0) else 0
  | None => 0
  end.

Definition oa_points (is_oa : bool) : R := if is_oa then 5 else 0.

Definition abstract_points (p : Paper) : R :=
  if has_abstract p then 5 else 0.

(** The sum before rounding. *)
Definition raw_score (current_year : Z) (paper : Paper) : R :=
  let score := 0%R in
  let score := (score + sjr_points (sjrScore paper))%R in
  let score := (score + h_points (h_index paper))%R in
  let score := (score + quartile_points (quartile paper))%R in
  let score := (score + citation_points (citationCount paper))%R in
  let score := (score + recency_points current_year (yearPublished paper))%R in
  let score := (score + oa_points (isFreelyAvailable paper))%R in
  let score := (score + abstract_points paper)%R in
  score.

Definition calculate_quality_score (current_year : Z) (paper : Paper) : Q :=
  round2 (raw_score current_year paper).

(** *** Retrying fetcher *)

(** One iteration of [for attempt in range(retries)], with [fuel]
    iterations left.  [rate_limit_delay] and the semaphore only postpone
    the request and are left out; the sleeps of the handlers are
    recorded.  A call of [console.log] stands in a handler, outside the
    [try] block: an exception that it raises leaves the function. *)
Fixpoint attempt_loop (console : console_log) (doi kw : str)
  (responses : nat -> attempt_outcome) (retries : nat)
  (fuel attempt : nat) (delay : Q) (slept : list Q) : fetch_run :=
  match fuel with
  | O => mkRun (Returned None) attempt slept
  | S fuel' =>
      match request_message (responses attempt) with
      | inr message => mkRun (Returned (Some message)) (S attempt) slept
      | inl (HTTPStatusError code) =>
          if code =? 429 then
            let wait_time := (delay * inject_Z (Z.of_nat attempt + 1))%Q in
            match console (RateLimitedMessage doi kw wait_time (S attempt)
                                              retries) with
            | Some raised => mkRun (Raised raised) (S attempt) slept
            | None =>
                attempt_loop console doi kw responses retries fuel'
                             (S attempt) (delay * (3 # 2))%Q
                             (slept ++ [wait_time])
            end
          else if code =? 404 then mkRun (Returned None) (S attempt) slept
          else
            match console (StatusMessage code doi kw) with
            | Some raised => mkRun (Raised raised) (S attempt) slept
            | None => mkRun (Returned None) (S attempt) slept
            end
      | inl ((RequestError | ValueError) as e) =>
          match console (RequestErrorMessage doi kw e) with
          | Some raised => mkRun (Raised raised) (S attempt) slept
          | None =>
              if (attempt <? retries - 1)%nat then
                attempt_loop console doi kw responses retries fuel'
                             (S attempt) (delay * (3 # 2))%Q
                             (slept ++ [delay])
              else mkRun (Returned None) (S attempt) slept
          end
      | inl e =>
          if is_Exception e then
            match console (UnexpectedMessage doi kw e) with
            | Some raised => mkRun (Raised raised) (S attempt) slept
            | None => mkRun (Returned None) (S attempt) slept
            end
          else mkRun (Raised e) (S attempt) slept
      end
  end.

(** [kw] is the keyword of the run, used in the messages only. *)
Definition enrich_paper_with_crossref (console : console_log)
  (doi : option str) (kw : str) (retries : nat)
  (responses : nat -> attempt_outcome) : fetch_run :=
  match doi with
  | None | Some [] => mkRun (Returned None) 0 []
  | Some d =>
      attempt_loop console d kw responses retries retries 0 INITIAL_BACKOFF []
  end.

(** *** Enrichment of one discovered work *)

(** The ISSN candidates, in the order the code appends them. *)
Definition issn_candidates (work : RawWork)
  (crossref_meta : outcome (option CrossrefMeta)) : list str :=
  let from_crossref :=
    match crossref_meta with
    | Returned (Some m) =>
        if meta_truthy m
        then match cr_ISSN m with Some l => l | None => [] end
        else []
    | _ => []
    end in
  let from_venue :=
    match host_venue work with
    | Some hv =>
        let hv_issns :=
          match hv_issn hv with
          | IssnAbsent => []
          | IssnOne x => if truthy x then [x] else []
          | IssnMany l => l
          end in
        match issn_l hv with
        | Some x => if truthy x then x :: hv_issns else hv_issns
        | None => hv_issns
        end
    | None => []
    end in
  from_crossref ++ from_venue.

(** [for raw in issn_candidates: ...  break] *)
Fixpoint first_usable_issn (candidates : list str) : option str :=
  match candidates with
  | [] => None
  | raw :: r =>
      if truthy raw then
        let c := clean_issn raw in
        if truthy c then Some c else first_usable_issn r
      else first_usable_issn r
  end.

(** The body of the loop over [zip(discovered_works,
    crossref_metadata_list)] for a work that is not empty. *)
Definition process_work (current_year : Z) (sjr_lookup_data : RankingTable)
  (keyword : str) (work : RawWork)
  (crossref_meta : outcome (option CrossrefMeta)) : Paper :=
  let title := w_title work in
  let authors :=
    flat_map (fun a => match a with Some n => [n] | None => [] end)
             (authorships work) in
  let doi := w_doi work in
  let citation_count := cited_by_count work in
  let year := publication_year work in
  let abstract :=
    match deconstruct_abstract (abstract_inverted_index work) with
    | Returned a => a
    | Raised _ => None
    end in
  let is_oa :=
    match open_access work with Some oa => is_oa oa | None => false end in
  let oa_url :=
    match open_access work with Some oa => oa_url oa | None => None end in
  let enriched :=
    match crossref_meta with
    | Returned (Some m) => if meta_truthy m then Some m else None
    | _ => None
    end in
  let publisher :=
    match enriched with Some m => cr_publisher m | None => None end in
  let journal_title :=
    match enriched with
    | Some m =>
        match container_title m with
        | Some (t :: _) => Some t
        | _ => None
        end
    | None => None
    end in
  let journal_title :=
    match host_venue work with
    | Some hv =>
        match journal_title with
        | Some t => if truthy t then journal_title else display_name hv
        | None => display_name hv
        end
    | None => journal_title
    end in
  let issn_clean := first_usable_issn (issn_candidates work crossref_meta) in
  let rank :=
    match issn_clean with
    | Some c => Dict.get eqb sjr_lookup_data c
    | None => None
    end in
  let quartile := match rank with Some r => r_quartile r | None => None end in
  let h_index := match rank with Some r => r_h_index r | None => None end in
  let sjr_score := match rank with Some r => r_sjr r | None => None end in
  let impact_factor :=
    match rank with
    | Some r =>
        or_q (r_impact_factor r)
             (or_q (r_ImpactFactor r) (or_q (r_JIF r) (r_jif r)))
    | None => None
    end in
  let final_paper :=
    mkPaper title authors doi citation_count publisher year abstract is_oa
            oa_url journal_title issn_clean quartile h_index sjr_score
            impact_factor (Some keyword) None in
  set_qualityScore final_paper
                   (calculate_quality_score current_year final_paper).

(** One page: the papers appended to [results].  An entry [None] of
    [discovered_works] is an empty record, which the loop skips. *)
Definition process_page (current_year : Z) (sjr_lookup_data : RankingTable)
  (keyword : str) (discovered_works : list (option RawWork))
  (crossref_metadata_list : list (outcome (option CrossrefMeta)))
  : list Paper :=
  flat_map (fun wm =>
              match fst wm with
              | None => []
              | Some work =>
                  [process_work current_year sjr_lookup_data keyword work
                                (snd wm)]
              end)
           (combine discovered_works crossref_metadata_list).

(** *** Cross-keyword de-duplication ([discover_and_process_multi]) *)

(** The keys stored in [dedup] are strings: a DOI, or the text
    [str((title, year))], kept here as its two components. *)
Inductive dedup_key : Type :=
| KDoi (doi : str)
| KRepr (title : option str) (year : option Z).

Definition option_eqb {A : Type} (eq : A -> A -> bool) (a b : option A)
  : bool :=
  match a, b with
  | Some x, Some y => eq x y
  | None, None => true
  | _, _ => false
  end.

Definition dedup_key_eqb (a b : dedup_key) : bool :=
  match a, b with
  | KDoi x, KDoi y => eqb x y
  | KRepr t y, KRepr t' y' => option_eqb eqb t t' && option_eqb Z.eqb y y'
  | _, _ => false
  end.

(** [key in dedup] for the tuple [key = (title, year)]: a tuple is equal
    to none of the stored strings. *)
Definition tuple_in (dedup : Dict.t dedup_key Paper)
  (key : option str * option Z) : bool :=
  existsb (fun stored : dedup_key => false) (Dict.keys dedup).

(** The body of the loop over [all_results].  The last [None] branch
    stands for the [KeyError] of [dedup[str(key)]]; [tuple_in] is never
    true, so the branch is not reached. *)
Definition dedup_step (dedup : Dict.t dedup_key Paper) (p : Paper)
  : Dict.t dedup_key Paper :=
  let with_doi (doi : str) :=
    match Dict.get dedup_key_eqb dedup (KDoi doi) with
    | None => Dict.set dedup_key_eqb dedup (KDoi doi) p
    | Some stored =>
        if Qltb (score_of stored) (score_of p)
        then Dict.set dedup_key_eqb dedup (KDoi doi) p
        else dedup
    end in
  let without_doi :=
    let key := (title p, yearPublished p) in
    let skey := KRepr (title p) (yearPublished p) in
    if negb (tuple_in dedup key) then Dict.set dedup_key_eqb dedup skey p
    else match Dict.get dedup_key_eqb dedup skey with
         | Some stored =>
             if Qltb (score_of stored) (score_of p)
             then Dict.set dedup_key_eqb dedup skey p
             else dedup
         | None => dedup
         end in
  match doi p with
  | Some (c :: d) => with_doi (c :: d)
  | _ => without_doi
  end.

Definition dedup_all (all_results : list Paper) : list Paper :=
  Dict.values (fold_left dedup_step all_results []).

End SearchPaper.

(** ** [fetch_data.py] *)

Module FetchData.

Import Num.

(** *** Quality scorer ([calculate_quality_score]) *)

(** [if paper.get(key)] on a number: present and not zero. *)
Definition nonzero_q (o : option Q) : option Q :=
  match o with
  | Some q => if Qeq_bool q 0 then None else Some q
  | None => None
  end.

Definition nonzero_z (o : option Z) : option Z :=
  match o with
  | Some z => if z =? 0 then None else Some z
  | None => None
  end.

Definition quartile_scores (q : str) : Z :=
  if eqb q (lit "Q1") then 20
  else if eqb q (lit "Q2") then 15
  else if eqb q (lit "Q3") then 10
  else if eqb q (lit "Q4") then 5
  else 0.

Definition sjr_points (sjr : option Q) : R :=
  match nonzero_q sjr with
  | Some s => Rmin (Q2R s * 10) 40
  | None => 0
  end.

Definition h_points (h : option Q) : R :=
  match nonzero_q h with
  | Some h => Rmin (Q2R h / 5) 30
  | None => 0
  end.

Definition quartile_points (q : option str) : R :=
  match q with
  | Some q => if truthy q then IZR (quartile_scores q) else 0
  | None => 0
  end.

Definition citation_points (cites : option Z) : R :=
  match nonzero_z cites with
  | Some c => if 0 <? c then Rmin (log10 (IZR (c + 1)) * 10) 30 else 0
  | None => 0
  end.

Definition recency_points (current_year : Z) (year : option Z) : R :=
  match nonzero_z year with
  | Some y =>
      let years_old := current_year - y in
      if years_old <=? 5 then IZR (Z.max (10 - years_old * 2) 0) else 0
  | None => 0
  end.

Definition oa_points (is_oa : bool) : R := if is_oa then 5 else 0.

Definition abstract_points (p : Paper) : R :=
  if has_abstract p then 5 else 0.

Definition raw_score (current_year : Z) (paper : Paper) : R :=
  let score := 0%R in
  let score := (score + sjr_points (sjrScore paper))%R in
  let score := (score + h_points (h_index paper))%R in
  let score := (score + quartile_points (quartile paper))%R in
  let score := (score + citation_points (citationCount paper))%R in
  let score := (score + recency_points current_year (yearPublished paper))%R in
  let score := (score + oa_points (isFreelyAvailable paper))%R in
  let score := (score + abstract_points paper)%R in
  score.

Definition calculate_quality_score (current_year : Z) (paper : Paper) : Q :=
  round2 (raw_score current_year paper).

(** *** Retrying fetcher of [fetch_data.py] *)

Fixpoint attempt_loop (responses : nat -> attempt_outcome)
  (fuel attempt : nat) (delay : Q) (slept : list Q) : fetch_run :=
  match fuel with
  | O => mkRun (Returned None) attempt slept
  | S fuel' =>
      match request_message (responses attempt) with
      | inr message => mkRun (Returned (Some message)) (S attempt) slept
      | inl (HTTPStatusError code) =>
          if code =? 429 then
            attempt_loop responses fuel' (S attempt) (delay * (3 # 2))%Q
                         (slept ++ [delay])
          else if code =? 404 then mkRun (Returned None) (S attempt) slept
          else attempt_loop responses fuel' (S attempt) delay slept
      | inl e =>
          if is_Exception e then
            attempt_loop responses fuel' (S attempt) (delay * (3 # 2))%Q
                         (slept ++ [delay])
          else mkRun (Raised e) (S attempt) slept
      end
  end.

Definition enrich_paper_with_crossref (doi : option str)
  (responses : nat -> attempt_outcome) : fetch_run :=
  match doi with
  | None | Some [] => mkRun (Returned None) 0 []
  | Some _ => attempt_loop responses MAX_RETRIES 0 INITIAL_BACKOFF []
  end.

End FetchData.

(** ** [research_service.py] *)

Module ResearchService.

Definition _clean_issn (issn : option str) : str :=
  strip_non_digits (match issn with Some x => x | None => [] end).

(** [calc_quality_score]: the text of [fetch_data.py]'s scorer. *)
Definition calc_quality_score (current_year : Z) (paper : Paper) : Q :=
  FetchData.calculate_quality_score current_year paper.

(** *** Retrying fetcher ([_crossref_get]) *)

Fixpoint attempt_loop (responses : nat -> attempt_outcome)
  (fuel attempt : nat) (delay : Q) (slept : list Q) : fetch_run :=
  match fuel with
  | O => mkRun (Returned None) attempt slept
  | S fuel' =>
      match request_message (responses attempt) with
      | inr message => mkRun (Returned (Some message)) (S attempt) slept
      | inl (HTTPStatusError code) =>
          if code =? 429 then
            let wait := (delay * inject_Z (Z.of_nat attempt + 1))%Q in
            attempt_loop responses fuel' (S attempt) (delay * (3 # 2))%Q
                         (slept ++ [wait])
          else if code =? 404 then mkRun (Returned None) (S attempt) slept
          else mkRun (Returned None) (S attempt) slept
      | inl RequestError =>
          if (attempt <? MAX_RETRIES - 1)%nat then
            attempt_loop responses fuel' (S attempt) (delay * (3 # 2))%Q
                         (slept ++ [delay])
          else mkRun (Returned None) (S attempt) slept
      | inl e =>
          if is_Exception e then mkRun (Returned None) (S attempt) slept
          else mkRun (Raised e) (S attempt) slept
      end
  end.

Definition _crossref_get (doi : option str)
  (responses : nat -> attempt_outcome) : fetch_run :=
  match doi with
  | None | Some [] => mkRun (Returned None) 0 []
  | Some _ => attempt_loop responses MAX_RETRIES 0 INITIAL_BACKOFF []
  end.

(** *** Ranking lookup ([_enrich_with_sjr]) *)

(** [paper.update({"issn": .., "quartile": .., "h_index": ..,
    "sjrScore": ..})] *)
Definition update_ranking (p : Paper) (i : option str) (q : option str)
  (h s : option Q) : Paper :=
  mkPaper (title p) (authors p) (doi p) (citationCount p) (publisher p)
          (yearPublished p) (abstract_text p) (isFreelyAvailable p)
          (downloadUrl p) (journalTitle p) i q h s (impactFactor p)
          (sourceKeyword p) (qualityScore p).

Definition _enrich_with_sjr (sjr_lookup_data : RankingTable) (paper : Paper)
  (issn_list : list str) : Paper :=
  let cleaned :=
    match issn_list with
    | first :: _ => Some (_clean_issn (Some first))
    | [] => None
    end in
  let found :=
    match cleaned with
    | Some c => if truthy c then Dict.get eqb sjr_lookup_data c else None
    | None => None
    end in
  match found with
  | Some rank =>
      update_ranking paper cleaned (r_quartile rank) (r_h_index rank)
                     (r_sjr rank)
  | None => update_ranking paper cleaned None None None
  end.

(** *** One work of [discover_many_keywords] *)

Definition build_paper (current_year : Z) (sjr_lookup_data : RankingTable)
  (work : RawWork) (meta : CrossrefMeta) : Paper :=
  let journal_title :=
    match container_title meta with
    | Some (t :: _) => Some t
    | _ => None
    end in
  let abstract :=
    match deconstruct_abstract (abstract_inverted_index work) with
    | Returned a => a
    | Raised _ => None
    end in
  let paper :=
    mkPaper (w_title work)
            (flat_map (fun a => match a with Some n => [n] | None => [] end)
                      (authorships work))
            (w_doi work) (cited_by_count work) (cr_publisher meta)
            (publication_year work) abstract
            (match open_access work with
             | Some oa => is_oa oa
             | None => false
             end)
            (match open_access work with
             | Some oa => oa_url oa
             | None => None
             end)
            journal_title None None None None None None None in
  let paper :=
    _enrich_with_sjr sjr_lookup_data paper
                     (match cr_ISSN meta with Some l => l | None => [] end) in
  set_qualityScore paper (calc_quality_score current_year paper).

(** The de-duplication key: the DOI, else the title, lower-cased and
    stripped. *)
Definition identity_key (paper : Paper) : str :=
  let key :=
    strip (lower (match doi paper with Some d => d | None => [] end)) in
  if truthy key then key
  else strip (lower (match title paper with Some t => t | None => [] end)).

(** The statements after the key is computed. *)
Definition merge_paper (results : Dict.t str Paper) (paper : Paper)
  : Dict.t str Paper :=
  let key := identity_key paper in
  if negb (truthy key) then results
  else
    match Dict.get eqb results key with
    | None => Dict.set eqb results key paper
    | Some existing =>
        if Qltb (score_of existing) (score_of paper)
           || (has_abstract paper && negb (has_abstract existing))
        then Dict.set eqb results key paper
        else results
    end.

(** The body of the loop over [zip(works, meta_list)]. *)
Definition process_work (current_year : Z) (sjr_lookup_data : RankingTable)
  (results : Dict.t str Paper) (work : option RawWork)
  (meta : outcome (option CrossrefMeta)) : Dict.t str Paper :=
  match work, meta with
  | Some w, Returned (Some m) =>
      merge_paper results (build_paper current_year sjr_lookup_data w m)
  | _, _ => results
  end.

Definition process_works (current_year : Z) (sjr_lookup_data : RankingTable)
  (results : Dict.t str Paper)
  (pairs : list (option RawWork * outcome (option CrossrefMeta)))
  : Dict.t str Paper :=
  fold_left (fun res wm =>
               process_work current_year sjr_lookup_data res (fst wm) (snd wm))
            pairs results.

End ResearchService.

(** ** Specification-level definitions and sample data *)

(** Modelled on the words of the specification: every candidate is stripped
    of its non-digit characters, and the resolved ISSN is the first
    candidate that is still non-empty. *)
Definition spec_resolved_issn (candidates : list str) : option str :=
  hd_error (filter truthy (map strip_non_digits candidates)).

(** The entries of a page that are not empty records. *)
Definition present (works : list (option RawWork)) : list RawWork :=
  flat_map (fun w => match w with Some x => [x] | None => [] end) works.

(** A work with a title and a DOI, without venue. *)
Definition titled_work : RawWork :=
  mkRawWork (Some (lit "Graphene batteries")) [Some (lit "A. Author")]
            (Some (lit "10.1/x")) (Some 3) (Some 2020) PNone None None.

(** A paper with DOI [10.1/x], the given score and the given abstract. *)
Definition scored_paper (score : Q) (abstract : option str) : Paper :=
  mkPaper (Some (lit "Graphene batteries")) [] (Some (lit "10.1/x"))
          (Some 3) None (Some 2020) abstract false None None None None None
          None None None (Some score).

(** Two rate limits, then a success. *)
Definition two_429_then_success : nat -> attempt_outcome :=
  script [StatusError 429; StatusError 429; JsonObject (Some sample_meta)].

(** A rate limit, a malformed body, then a server error, then transport
    errors. *)
Definition failing_responses : nat -> attempt_outcome :=
  script [StatusError 429; MalformedBody; StatusError 503].

(** * Further embedding: the rest of the cited files *)

(** ** Helpers for the further properties *)

(** The sum of the sleeps of a run, in seconds. *)
Definition total_sleep (l : list Q) : Q := fold_right Qplus 0%Q l.

(** The longest back-off of the fetchers of [search_paper.py] and
    [research_service.py]: a rate limit on each of the [fuel] attempts
    that are left. *)
Fixpoint worst_wait (fuel attempt : nat) (delay : Q) : Q :=
  match fuel with
  | O => 0%Q
  | S fuel' =>
      (delay * inject_Z (Z.of_nat attempt + 1)
       + worst_wait fuel' (S attempt) (delay * (3 # 2)))%Q
  end.

(** The longest back-off of the fetcher of [fetch_data.py]. *)
Fixpoint worst_plain_wait (fuel : nat) (delay : Q) : Q :=
  match fuel with
  | O => 0%Q
  | S fuel' => (delay + worst_plain_wait fuel' (delay * (3 # 2)))%Q
  end.

(** The outcomes after which the fetcher of [search_paper.py] tries
    again: a rate limit, a transport error, a malformed body. *)
Definition retryable (o : attempt_outcome) : bool :=
  match o with
  | StatusError code => code =? 429
  | TransportError | MalformedBody => true
  | _ => false
  end.

(** The key under which [discover_and_process_multi] stores a paper. *)
Definition key_of (p : Paper) : SearchPaper.dedup_key :=
  match doi p with
  | Some (c :: d) => SearchPaper.KDoi (c :: d)
  | _ => SearchPaper.KRepr (title p) (yearPublished p)
  end.

(** [p.get("doi")] as a condition. *)
Definition has_doi (p : Paper) : bool :=
  match doi p with Some (_ :: _) => true | _ => false end.

(** Every key of the dictionary is the key of its record, the keys are
    pairwise distinct, and the records come from [seen]. *)
Definition well_keyed (seen : list Paper)
  (d : Dict.t SearchPaper.dedup_key Paper) : Prop :=
  NoDup (Dict.keys d)
  /\ forall k v, In (k, v) d -> k = key_of v /\ In v seen.

(** The dictionary [results] of [discover_many_keywords] after the pairs
    [seen]: the keys are pairwise distinct, every record is stored under
    its own identity key, which is not empty, and was built from a work of
    [seen] whose lookup returned metadata. *)
Definition service_keyed (current_year : Z) (table : RankingTable)
  (seen : list (option RawWork * outcome (option CrossrefMeta)))
  (d : Dict.t str Paper) : Prop :=
  NoDup (Dict.keys d)
  /\ forall k v,
       In (k, v) d ->
       k = ResearchService.identity_key v
       /\ truthy k = true
       /\ exists w m,
            In (Some w, Returned (Some m)) seen
            /\ v = ResearchService.build_paper current_year table w m.

(** ** Query normalisation ([search_paper.py], [normalize_query]) *)

Module Normalize.

(** The class [[,;\s]] of the pattern. *)
Definition is_token_sep (c : ascii) : bool :=
  let n := nat_of_ascii c in
  ((n =? 44) || (n =? 59))%nat || is_space c.

(** [re.split(pattern + "+", x)] for a class of separator characters; the
    same scan as [SearchPaper.re_split_from]. *)
Fixpoint split_runs (sep : ascii -> bool) (in_run : bool) (x : str)
  : list str :=
  match x with
  | [] => [[]]
  | c :: r =>
      if sep c then
        if in_run then split_runs sep true r
        else [] :: split_runs sep true r
      else
        match split_runs sep false r with
        | p :: ps => (c :: p) :: ps
        | [] => [[c]]
        end
  end.

(** [[t.strip() for t in re.split(r"[,;\s]+", q or "") if t.strip()]] *)
Definition tokens (q : str) : list str :=
  map strip
      (filter (fun t => truthy (strip t)) (split_runs is_token_sep false q)).

(** The loop over [tokens]: [seen] holds the lower-cased tokens kept so
    far. *)
Fixpoint dedupe (seen : list str) (ts : list str) : list str :=
  match ts with
  | [] => []
  | t :: r =>
      let k := lower t in
      if existsb (eqb k) seen then dedupe seen r
      else t :: dedupe (k :: seen) r
  end.

(** The list [deduped]. *)
Definition normalized_tokens (q : str) : list str := dedupe [] (tokens q).

Definition normalize_query (q : str) : str :=
  join (lit " ") (normalized_tokens q).

(** No character of [x] is in the class [sep]. *)
Definition free_of (sep : ascii -> bool) (x : str) : bool :=
  forallb (fun c => negb (sep c)) x.

(** A token: not empty and free of separators. *)
Definition good_token (t : str) : bool :=
  truthy t && free_of is_token_sep t.

(** The query holds a character that is neither white space, nor a comma,
    nor a semicolon. *)
Definition has_content (q : str) : bool :=
  existsb (fun c => negb (is_token_sep c)) q.

End Normalize.

(** [p] with another SJR, or another h-index, every other field as it
    is. *)
Definition with_sjr (p : Paper) (s : option Q) : Paper :=
  mkPaper (title p) (authors p) (doi p) (citationCount p) (publisher p)
          (yearPublished p) (abstract_text p) (isFreelyAvailable p)
          (downloadUrl p) (journalTitle p) (issn p) (quartile p) (h_index p)
          s (impactFactor p) (sourceKeyword p) (qualityScore p).

Definition with_h_index (p : Paper) (h : option Q) : Paper :=
  mkPaper (title p) (authors p) (doi p) (citationCount p) (publisher p)
          (yearPublished p) (abstract_text p) (isFreelyAvailable p)
          (downloadUrl p) (journalTitle p) (issn p) (quartile p) h
          (sjrScore p) (impactFactor p) (sourceKeyword p) (qualityScore p).

(** ** Pagination and orchestration ([search_paper.py],
       [discover_and_process_single], [discover_and_process_multi]) *)

(** The lists that the two functions return.  Their own console messages
    interpolate the keyword; a run in which one of them is not rendered
    ends in the exception and returns no list (see [Endpoint]). *)

Module Pipeline.

(** What one page request leads to inside the [try] block of the loop. *)
Inductive page_response : Type :=
| PageFailure
    (* the request, the status check or the decoding raised an Exception *)
| Page (works : list (option RawWork)) (next_cursor : option str).

Section Run.

Variable current_year : Z.
Variable sjr_lookup_data : RankingTable.

(** The primary source: the page it answers for a normalised query and a
    cursor. *)
Variable openalex : str -> str -> page_response.

(** The secondary source: the responses it gives for a DOI. *)
Variable crossref : option str -> nat -> attempt_outcome.

(** The console of the fetcher. *)
Variable console : console_log.

(** [asyncio.gather(..., return_exceptions=True)] over the enrichment
    tasks of one page: an exception of a task is its entry of the list. *)
Definition enrich_page (keyword : str) (works : list (option RawWork))
  : list (outcome (option CrossrefMeta)) :=
  map (fun w =>
         let doi := match w with Some x => w_doi x | None => None end in
         result (SearchPaper.enrich_paper_with_crossref
                   console doi keyword MAX_RETRIES (crossref doi)))
      works.

(** The [while] loop, with [fuel] pages left in the budget. *)
Fixpoint fetch_loop (keyword : str) (fuel : nat) (cursor : str)
  : list Paper :=
  match fuel with
  | O => []
  | S fuel' =>
      match openalex (Normalize.normalize_query keyword) cursor with
      | PageFailure => []
      | Page [] _ => []
      | Page discovered_works next_cursor =>
          SearchPaper.process_page current_year sjr_lookup_data keyword
                                   discovered_works
                                   (enrich_page keyword discovered_works)
          ++ match next_cursor with
             | Some (c :: x) => fetch_loop keyword fuel' (c :: x)
             | _ => []
             end
      end
  end.

Definition discover_and_process_single (keyword : str) (fetch_pages : nat)
  : list Paper :=
  fetch_loop keyword fetch_pages (lit "*").

(** [completion] is the order in which [asyncio.as_completed] yields the
    keyword runs. *)
Definition discover_and_process_multi (query : str) (fetch_pages : nat)
  (completion : list str) : list Paper * list str :=
  let keywords := SearchPaper.split_keywords query in
  let all_results :=
    flat_map (fun kw => discover_and_process_single kw fetch_pages)
             completion in
  (SearchPaper.dedup_all all_results, keywords).

End Run.

(** The stored score is the score of the record, and the record carries
    the keyword of its run. *)
Definition consistent (current_year : Z) (keyword : str) (p : Paper)
  : Prop :=
  qualityScore p = Some (SearchPaper.calculate_quality_score current_year p)
  /\ sourceKeyword p = Some keyword.

End Pipeline.

(** ** The search endpoint ([search_paper.py], [search_papers]) *)

Module Endpoint.

Inductive sort_field : Type :=
| ByQualityScore
| ByCitationCount
| ByYearPublished
| BySjrScore
| ByHIndex
| ByImpactFactor.

(** The query parameters, after the validation of the framework. *)
Record SearchParams : Type := mkParams {
  query : str;
  limit : nat;
  min_year : option Z;
  max_year : option Z;
  min_citations : option Z;
  max_citations : option Z;
  quartile_filter : option str;
  min_sjr : option Q;
  min_h_index : option Z;
  min_impact_factor : option Q;
  only_open_access : bool;
  require_abstract : bool;
  min_quality_score : option Q;
  sort_by : sort_field
}.

(** The JSON object of a successful answer; [resp_query] is its key
    ["query"]. *)
Record SearchResponse : Type := mkResponse {
  resp_query : str;
  keywords : list str;
  totalDiscovered : nat;
  totalAfterFiltering : nat;
  resultCount : nat;
  sortedBy : sort_field;
  results : list Paper
}.

(** The answer: an [HTTPException] with its status code, the object, or
    another exception that leaves the handler, which the framework
    answers with status 500. *)
Inductive http_result : Type :=
| HttpError (status : Z)
| HttpOk (body : SearchResponse)
| Unhandled (e : exn).

(** Truth value of an optional integer parameter. *)
Definition truthy_z (o : option Z) : option Z :=
  match o with
  | Some z => if z =? 0 then None else Some z
  | None => None
  end.

(** One list comprehension per filter. *)
Definition year_at_least (m : Z) (p : Paper) : bool :=
  match truthy_z (yearPublished p) with Some y => m <=? y | None => false end.

Definition year_at_most (m : Z) (p : Paper) : bool :=
  match truthy_z (yearPublished p) with Some y => y <=? m | None => false end.

Definition citations_at_least (m : Z) (p : Paper) : bool :=
  match citationCount p with Some c => m <=? c | None => false end.

Definition citations_at_most (m : Z) (p : Paper) : bool :=
  match citationCount p with Some c => c <=? m | None => false end.

Definition quartile_is (q : str) (p : Paper) : bool :=
  match quartile p with
  | Some x => truthy x && eqb (upper x) (upper q)
  | None => false
  end.

Definition sjr_at_least (m : Q) (p : Paper) : bool :=
  match sjrScore p with Some s => Qle_bool m s | None => false end.

Definition h_index_at_least (m : Z) (p : Paper) : bool :=
  match h_index p with Some h => Qle_bool (inject_Z m) h | None => false end.

Definition impact_factor_at_least (m : Q) (p : Paper) : bool :=
  match impactFactor p with Some f => Qle_bool m f | None => false end.

Definition long_abstract (p : Paper) : bool :=
  match abstract_text p with
  | Some a => (50 <? List.length a)%nat
  | None => false
  end.

Definition quality_at_least (m : Q) (p : Paper) : bool :=
  Qle_bool m (score_of p).

(** A filter that applies only when its parameter is given. *)
Definition when {A : Type} (o : option A) (f : A -> Paper -> bool)
  (p : Paper) : bool :=
  match o with Some a => f a p | None => true end.

(** The filters of the endpoint as one condition. *)
Definition passes (params : SearchParams) (p : Paper) : bool :=
  when (min_year params) year_at_least p
  && when (max_year params) year_at_most p
  && when (min_citations params) citations_at_least p
  && when (max_citations params) citations_at_most p
  && when (quartile_filter params) quartile_is p
  && when (min_sjr params) sjr_at_least p
  && when (min_h_index params) h_index_at_least p
  && when (min_impact_factor params) impact_factor_at_least p
  && (if only_open_access params then isFreelyAvailable p else true)
  && (if require_abstract params then long_abstract p else true)
  && when (min_quality_score params) quality_at_least p.

(** The in-memory filtering: one pass per parameter, in the order of the
    source. *)
Definition apply_filters (params : SearchParams) (discovered : list Paper)
  : list Paper :=
  let filtered_results := discovered in
  let filtered_results :=
    filter (when (min_year params) year_at_least) filtered_results in
  let filtered_results :=
    filter (when (max_year params) year_at_most) filtered_results in
  let filtered_results :=
    filter (when (min_citations params) citations_at_least)
           filtered_results in
  let filtered_results :=
    filter (when (max_citations params) citations_at_most)
           filtered_results in
  let filtered_results :=
    filter (when (quartile_filter params) quartile_is) filtered_results in
  let filtered_results :=
    filter (when (min_sjr params) sjr_at_least) filtered_results in
  let filtered_results :=
    filter (when (min_h_index params) h_index_at_least) filtered_results in
  let filtered_results :=
    filter (when (min_impact_factor params) impact_factor_at_least)
           filtered_results in
  let filtered_results :=
    if only_open_access params
    then filter isFreelyAvailable filtered_results
    else filtered_results in
  let filtered_results :=
    if require_abstract params
    then filter long_abstract filtered_results
    else filtered_results in
  filter (when (min_quality_score params) quality_at_least) filtered_results.

(** [x.get(sort_by, 0) or 0] *)
Definition sort_key (f : sort_field) (p : Paper) : Q :=
  let number (o : option Q) := match o with Some q => q | None => 0%Q end in
  let whole (o : option Z) :=
    match o with Some z => inject_Z z | None => 0%Q end in
  match f with
  | ByQualityScore => number (qualityScore p)
  | ByCitationCount => whole (citationCount p)
  | ByYearPublished => whole (yearPublished p)
  | BySjrScore => number (sjrScore p)
  | ByHIndex => number (h_index p)
  | ByImpactFactor => number (impactFactor p)
  end.

(** [list.sort(key=..., reverse=True)]: descending and stable, records
    with equal keys keep their order. *)
Fixpoint insert_desc (key : Paper -> Q) (x : Paper) (l : list Paper)
  : list Paper :=
  match l with
  | [] => [x]
  | y :: r =>
      if Qle_bool (key y) (key x) then x :: y :: r
      else y :: insert_desc key x r
  end.

Definition sort_desc (key : Paper -> Q) (l : list Paper) : list Paper :=
  fold_right (insert_desc key) [] l.

(** [if lo and hi and lo > hi] *)
Definition range_error (lo hi : option Z) : bool :=
  match truthy_z lo, truthy_z hi with
  | Some a, Some b => b <? a
  | _, _ => false
  end.

(** The body of [search_papers].  [discovery] is how the call of
    [discover_and_process_multi] for the query ends: with the merged
    papers and the parsed keywords, or with an exception. *)
Definition search_papers (console : console_log) (params : SearchParams)
  (discovery : outcome (list Paper * list str)) : http_result :=
  if negb (truthy (strip (query params))) then HttpError 400
  else if range_error (min_year params) (max_year params) then HttpError 400
  else if range_error (min_citations params) (max_citations params)
  then HttpError 400
  else
    match console (IncomingQueryMessage (query params)) with
    | Some raised => Unhandled raised
    | None =>
        match discovery with
        | Raised e => Unhandled e
        | Returned ([], _) => HttpError 404
        | Returned (discovered, parsed) =>
            let filtered_results := apply_filters params discovered in
            match filtered_results with
            | [] => HttpError 404
            | _ :: _ =>
                let sorted :=
                  sort_desc (sort_key (sort_by params)) filtered_results in
                let final_results := firstn (limit params) sorted in
                HttpOk (mkResponse (query params) parsed
                                   (List.length discovered)
                                   (List.length filtered_results)
                                   (List.length final_results)
                                   (sort_by params) final_results)
            end
        end
    end.

(** [x] may stand before [y] in a list sorted by descending [key]. *)
Definition desc (key : Paper -> Q) (x y : Paper) : Prop :=
  (key y <= key x)%Q.

(** The three validations of the head of [search_papers]. *)
Definition rejected (params : SearchParams) : bool :=
  negb (truthy (strip (query params)))
  || range_error (min_year params) (max_year params)
  || range_error (min_citations params) (max_citations params).

End Endpoint.

(** * Properties *)

(** ** Strings *)

Module PyStrFacts.

Lemma eqb_eq x y : eqb x y = true <-> x = y.
Proof.
  unfold eqb. destruct (list_eq_dec ascii_dec x y); split; congruence.
Qed.

Lemma eqb_refl x : eqb x x = true.
Proof. now apply eqb_eq. Qed.

Lemma blank_app x y : blank (x ++ y) = blank x && blank y.
Proof. apply forallb_app. Qed.

Lemma blank_rev x : blank (rev x) = blank x.
Proof.
  induction x as [|c r IH]; simpl; [reflexivity|].
  rewrite blank_app, IH. simpl. rewrite andb_true_r. apply andb_comm.
Qed.

Lemma blank_lstrip x : blank (lstrip x) = blank x.
Proof.
  induction x as [|c r IH]; simpl; [reflexivity|].
  destruct (is_space c) eqn:E; simpl; [exact IH|now rewrite E].
Qed.

Lemma blank_strip x : blank (strip x) = blank x.
Proof.
  unfold strip, rstrip.
  now rewrite blank_rev, blank_lstrip, blank_rev, blank_lstrip.
Qed.

Lemma lstrip_blank x : blank x = true -> lstrip x = [].
Proof.
  induction x as [|c r IH]; simpl; [reflexivity|].
  destruct (is_space c); simpl; [exact IH|discriminate].
Qed.

Lemma strip_blank x : blank x = true -> strip x = [].
Proof.
  intros H. unfold strip, rstrip. now rewrite (lstrip_blank x H).
Qed.

Lemma truthy_not_blank x : blank x = false -> truthy x = true.
Proof. destruct x; [discriminate|reflexivity]. Qed.

(** A string that is left after stripping is not blank. *)
Lemma truthy_strip x : truthy (strip x) = true <-> blank x = false.
Proof.
  split; intros H.
  - destruct (blank x) eqn:B; [|reflexivity].
    rewrite (strip_blank x B) in H. discriminate.
  - apply truthy_not_blank. now rewrite blank_strip.
Qed.

End PyStrFacts.

(** ** Query partitioner *)

Module PartitionerFacts.

Import PyStrFacts SearchPaper.

Lemma re_split_from_no_separator b q :
  no_separator q = true -> re_split_from b q = [q].
Proof.
  revert b. induction q as [|c r IH]; intros b H; simpl in *.
  - reflexivity.
  - apply andb_prop in H as [Hc Hr].
    destruct (is_sep c); [discriminate|].
    now rewrite (IH false Hr).
Qed.

Lemma re_split_from_blank b q :
  blank q = true -> Forall (fun p => blank p = true) (re_split_from b q).
Proof.
  revert b. induction q as [|c r IH]; intros b H; simpl in *.
  - repeat constructor.
  - apply andb_prop in H as [Hc Hr].
    destruct (is_sep c).
    + destruct b; [now apply IH|constructor; [reflexivity|now apply IH]].
    + specialize (IH false Hr).
      destruct (re_split_from false r) as [|p ps].
      * repeat constructor. simpl. now rewrite Hc.
      * inversion IH; subst. constructor; [|assumption].
        simpl. now rewrite Hc.
Qed.

(** The pieces that pass the filter, once stripped, are not blank. *)
Lemma kept_parts_not_blank (pieces : list str) :
  Forall (fun k => blank k = false)
         (map strip (filter (fun p => truthy p && truthy (strip p)) pieces)).
Proof.
  induction pieces as [|p ps IH]; simpl; [constructor|].
  destruct (truthy p && truthy (strip p)) eqn:E; [|exact IH].
  apply andb_prop in E as [_ E]. apply truthy_strip in E.
  simpl. constructor; [now rewrite blank_strip|exact IH].
Qed.

Lemma blank_parts_dropped (pieces : list str) :
  Forall (fun p => blank p = true) pieces ->
  filter (fun p => truthy p && truthy (strip p)) pieces = [].
Proof.
  induction 1 as [|p ps Hp _ IH]; simpl; [reflexivity|].
  rewrite (strip_blank p Hp). simpl. now rewrite andb_false_r.
Qed.

(** C8: on a query that is not blank, [split_keywords] returns at least one
    keyword, none of the keywords is blank, and a query without comma,
    semicolon or newline gives exactly the one-element list holding the
    stripped query. *)
Theorem split_keywords_nonblank (q : str) :
  blank q = false ->
  (1 <= List.length (split_keywords q))%nat
  /\ Forall (fun k => blank k = false) (split_keywords q)
  /\ (no_separator q = true -> split_keywords q = [strip q]).
Proof.
  intros Hq. unfold split_keywords.
  pose proof (kept_parts_not_blank (re_split q)) as Hparts.
  split; [|split].
  - destruct (map strip _); simpl; lia.
  - destruct (map strip _) as [|k ks]; [|exact Hparts].
    constructor; [now rewrite blank_strip|constructor].
  - intros Hsep. unfold re_split.
    rewrite (re_split_from_no_separator false q Hsep). simpl.
    rewrite (truthy_not_blank q Hq).
    now rewrite (proj2 (truthy_strip q) Hq).
Qed.

Lemma split_keywords_nonblank_witness :
  blank (lit "graphene") = false
  /\ (1 <= List.length (split_keywords (lit "graphene")))%nat
  /\ Forall (fun k => blank k = false) (split_keywords (lit "graphene"))
  /\ (no_separator (lit "graphene") = true ->
      split_keywords (lit "graphene") = [strip (lit "graphene")]).
Proof.
  split; [reflexivity|].
  apply (split_keywords_nonblank (lit "graphene")). reflexivity.
Defined.

(** C10: on a blank query (empty, or white space only) [split_keywords]
    returns the one-element list whose element is the empty string. *)
Theorem split_keywords_blank (q : str) :
  blank q = true -> split_keywords q = [[]].
Proof.
  intros Hq. unfold split_keywords, re_split.
  rewrite (blank_parts_dropped (re_split_from_blank false q Hq)). simpl.
  now rewrite (strip_blank q Hq).
Qed.

Lemma split_keywords_blank_witness :
  blank (lit "   ") = true /\ split_keywords (lit "   ") = [[]].
Proof.
  split; [reflexivity|].
  apply (split_keywords_blank (lit "   ")). reflexivity.
Defined.

(** The keywords of a two-part query. *)
Example split_keywords_two :
  split_keywords (lit "graphene, battery") = [lit "graphene"; lit "battery"].
Proof. reflexivity. Qed.

(** A query made of separators only is its own keyword. *)
Example split_keywords_separators_only :
  split_keywords (lit ",;") = [lit ",;"].
Proof. reflexivity. Qed.

End PartitionerFacts.

(** ** Abstract reconstruction *)

Module AbstractFacts.

Lemma max_from_error m mq l e : max_from m mq l = inl e -> e = TypeError.
Proof.
  revert m mq. induction l as [|v r IH]; intros m mq; simpl.
  - discriminate.
  - destruct (num_value v) as [q|]; [|congruence].
    destruct (Qltb mq q); apply IH.
Qed.

Lemma slots_needed_error v l e :
  slots_needed (v :: l) = inl e -> e = TypeError.
Proof.
  simpl. destruct (num_value v) as [q|]; [|congruence].
  destruct (max_from v q l) as [e'|m] eqn:E.
  - intros H. injection H as <-. now apply max_from_error in E.
  - destruct (int_value m); congruence.
Qed.

Lemma deconstruct_body_error v e :
  deconstruct_body v = inl e -> is_Exception e = true.
Proof.
  destruct v; try (simpl; intros H; injection H as <-; reflexivity).
  unfold deconstruct_body.
  destruct (valid_indices d) as [|v0 vs] eqn:V; [discriminate|].
  destruct (slots_needed (v0 :: vs)) as [e'|n] eqn:E; [|discriminate].
  intros H. injection H as <-.
  now rewrite (slots_needed_error _ _ E).
Qed.

(** Whatever the index holds, the call returns: no exception leaves
    [deconstruct_abstract]. *)
Lemma deconstruct_abstract_returns v :
  exists r, deconstruct_abstract v = Returned r.
Proof.
  unfold deconstruct_abstract.
  destruct (negb (py_truthy v)); [now exists None|].
  destruct (deconstruct_body v) as [e|r] eqn:E; [|now exists r].
  rewrite (deconstruct_body_error _ E). now exists None.
Qed.

(** An absent or empty index, and a value that is not a dictionary, give
    no abstract. *)
Lemma deconstruct_abstract_not_dict v :
  (forall d, v <> PDict d) -> deconstruct_abstract v = Returned None.
Proof.
  intros H. unfold deconstruct_abstract.
  destruct (negb (py_truthy v)); [reflexivity|].
  destruct v; try reflexivity. now contradiction (H d).
Qed.

Lemma deconstruct_abstract_empty :
  deconstruct_abstract (PDict []) = Returned None
  /\ deconstruct_abstract PNone = Returned None.
Proof. split; reflexivity. Qed.

(** A dictionary none of whose values is a non-empty list gives no
    abstract. *)
Lemma deconstruct_abstract_no_positions d :
  valid_indices d = [] -> deconstruct_abstract (PDict d) = Returned None.
Proof.
  intros H. unfold deconstruct_abstract, deconstruct_body. rewrite H.
  now destruct (negb (py_truthy (PDict d))).
Qed.

(** A first position that is not a number gives no abstract. *)
Example deconstruct_abstract_string_position :
  deconstruct_abstract (PDict [(lit "a", PList [PStr (lit "x")])])
  = Returned None.
Proof. reflexivity. Qed.

(** A negative first position leaves no slot: the result is the empty
    string. *)
Example deconstruct_abstract_negative_position :
  deconstruct_abstract (PDict [(lit "a", PList [PInt (-1)])])
  = Returned (Some []).
Proof. reflexivity. Qed.

(** The example of the specification. *)
Example deconstruct_abstract_a_b :
  deconstruct_abstract (to_pyval [(lit "a", [0%nat]); (lit "b", [1%nat])])
  = Returned (Some (lit "a b"))
  /\ spec_reconstruct [(lit "a", [0%nat]); (lit "b", [1%nat])]
     = Some (lit "a b").
Proof. split; reflexivity. Qed.

(** On a position shared by two words the later word wins. *)
Example deconstruct_abstract_collision :
  deconstruct_abstract (to_pyval [(lit "a", [0%nat]); (lit "b", [0%nat])])
  = Returned (Some (lit "b")).
Proof. reflexivity. Qed.

(** *** The code in the terms of the specification *)

Lemma valid_indices_to_dict d :
  valid_indices (to_dict d)
  = map (fun i => PInt (Z.of_nat i)) (first_positions d).
Proof.
  unfold first_positions.
  induction d as [|[w [|i l]] r IH]; simpl; [reflexivity|exact IH|].
  now rewrite IH.
Qed.

Lemma Qltb_inject_Z a b : Qltb (inject_Z a) (inject_Z b) = (a <? b)%Z.
Proof.
  unfold Qltb, Qle_bool. simpl. rewrite !Z.mul_1_r.
  symmetry. apply Z.ltb_antisym.
Qed.

Lemma max_from_positions ps p :
  max_from (PInt (Z.of_nat p)) (inject_Z (Z.of_nat p))
           (map (fun i => PInt (Z.of_nat i)) ps)
  = inr (PInt (Z.of_nat (fold_left Nat.max ps p))).
Proof.
  revert p. induction ps as [|i ps IH]; intros p; simpl; [reflexivity|].
  rewrite Qltb_inject_Z.
  destruct (Z.of_nat p <? Z.of_nat i)%Z eqn:E.
  - apply Z.ltb_lt in E. rewrite IH. now rewrite Nat.max_r by lia.
  - apply Z.ltb_ge in E. rewrite IH. now rewrite Nat.max_l by lia.
Qed.

Lemma slots_needed_positions p ps :
  slots_needed (map (fun i => PInt (Z.of_nat i)) (p :: ps))
  = inr (Z.of_nat (S (fold_left Nat.max ps p))).
Proof.
  simpl map. unfold slots_needed. simpl num_value. cbv iota.
  rewrite max_from_positions. simpl int_value. cbv iota.
  f_equal. lia.
Qed.

Lemma set_nth_length i w l : List.length (set_nth i w l) = List.length l.
Proof.
  revert i. induction l as [|x r IH]; intros [|i]; simpl; auto.
Qed.

Lemma write_index_position w wl i :
  write_index w wl (PInt (Z.of_nat i))
  = if (i <? List.length wl)%nat then set_nth i w wl else wl.
Proof.
  unfold write_index. simpl int_value. cbv iota.
  replace (0 <=? Z.of_nat i)%Z with true by (symmetry; apply Z.leb_le; lia).
  simpl andb. rewrite Nat2Z.id.
  destruct (i <? List.length wl)%nat eqn:E.
  - apply Nat.ltb_lt in E.
    now replace (Z.of_nat i <? Z.of_nat (List.length wl))%Z with true
      by (symmetry; apply Z.ltb_lt; lia).
  - apply Nat.ltb_ge in E.
    now replace (Z.of_nat i <? Z.of_nat (List.length wl))%Z with false
      by (symmetry; apply Z.ltb_ge; lia).
Qed.

Lemma spec_writes_length w l wl :
  List.length (fold_left (fun sl i => set_nth i w sl) l wl) = List.length wl.
Proof.
  revert wl. induction l as [|i l IH]; intros wl; simpl; [reflexivity|].
  now rewrite IH, set_nth_length.
Qed.

Lemma write_positions w l wl :
  fold_left (write_index w) (map (fun i => PInt (Z.of_nat i)) l) wl
  = fold_left (fun sl i => set_nth i w sl)
              (filter (fun i => (i <? List.length wl)%nat) l) wl.
Proof.
  revert wl. induction l as [|i l IH]; intros wl; simpl; [reflexivity|].
  rewrite write_index_position.
  destruct (i <? List.length wl)%nat eqn:E; simpl.
  - rewrite IH. now rewrite set_nth_length.
  - apply IH.
Qed.

Lemma write_entries d wl :
  fold_left write_entry (to_dict d) wl
  = fold_left spec_write_entry (within (List.length wl) d) wl.
Proof.
  revert wl. induction d as [|[w l] r IH]; intros wl; simpl; [reflexivity|].
  change (write_entry wl
            (w, PList (map (fun i : nat => PInt (Z.of_nat i)) l)))
    with (fold_left (write_index w)
                    (map (fun i : nat => PInt (Z.of_nat i)) l) wl).
  change (spec_write_entry wl
            (w, filter (fun i : nat => (i <? List.length wl)%nat) l))
    with (fold_left (fun sl i => set_nth i w sl)
                    (filter (fun i : nat => (i <? List.length wl)%nat) l) wl).
  rewrite write_positions, IH. now rewrite spec_writes_length.
Qed.

(** On an index of words and positions the code computes the
    reconstruction of the specification, but with one slot per position up
    to the greatest first position, on the positions below that number of
    slots, and strips the result. *)
Lemma deconstruct_abstract_as_spec (d : spec_index) :
  deconstruct_abstract (to_pyval d)
  = Returned
      match first_position_limit d with
      | None => None
      | Some m =>
          Some (strip (join (lit " ")
                            (filter truthy
                                    (fold_left spec_write_entry
                                               (within (S m) d)
                                               (repeat ([] : str) (S m))))))
      end.
Proof.
  unfold deconstruct_abstract, to_pyval, first_position_limit.
  destruct d as [|kv d']; [reflexivity|].
  set (d := kv :: d'). simpl py_truthy. simpl negb. cbv iota.
  unfold deconstruct_body. rewrite valid_indices_to_dict.
  destruct (first_positions d) as [|p ps]; [reflexivity|].
  simpl map at 1. cbv iota.
  change (PInt (Z.of_nat p) :: map (fun i => PInt (Z.of_nat i)) ps)
    with (map (fun i => PInt (Z.of_nat i)) (p :: ps)).
  rewrite slots_needed_positions. rewrite Nat2Z.id.
  rewrite write_entries, repeat_length. reflexivity.
Qed.

Lemma fold_max_bounds l a :
  (a <= fold_left Nat.max l a)%nat
  /\ forall x, In x l -> (x <= fold_left Nat.max l a)%nat.
Proof.
  revert a. induction l as [|y l IH]; intros a; simpl.
  - split; [lia|intros x []].
  - destruct (IH (Nat.max a y)) as [H1 H2]. split; [lia|].
    intros x [<-|Hx]; [lia|now apply H2].
Qed.

Lemma within_all n (d : spec_index) :
  (forall i, In i (flat_map snd d) -> (i < n)%nat) -> within n d = d.
Proof.
  induction d as [|[w l] r IH]; intros H; simpl; [reflexivity|].
  rewrite IH by (intros i Hi; apply H; simpl; apply in_or_app; now right).
  f_equal. f_equal.
  assert (Hl : forall i, In i l -> (i < n)%nat)
    by (intros i Hi; apply H; simpl; apply in_or_app; now left).
  clear H IH. induction l as [|i l IHl]; simpl; [reflexivity|].
  rewrite (proj2 (Nat.ltb_lt i n)) by (apply Hl; now left).
  f_equal. apply IHl. intros j Hj. apply Hl. now right.
Qed.

(** The code agrees with the reconstruction of the specification, up to
    the final [strip], on every index whose greatest position is the first
    position of some word. *)
Lemma deconstruct_abstract_agrees (d : spec_index) :
  spec_max_position d = first_position_limit d ->
  deconstruct_abstract (to_pyval d)
  = Returned (option_map strip (spec_reconstruct d)).
Proof.
  intros H. rewrite deconstruct_abstract_as_spec.
  unfold spec_reconstruct. rewrite H.
  destruct (first_position_limit d) as [m|] eqn:L; [|reflexivity].
  simpl option_map. rewrite within_all; [reflexivity|].
  intros i Hi. unfold spec_max_position in H.
  destruct (flat_map snd d) as [|p ps]; [destruct Hi|].
  injection H as <-.
  destruct (fold_max_bounds ps p) as [H1 H2].
  destruct Hi as [<-|Hi]; [lia|]. specialize (H2 i Hi). lia.
Qed.

(** C3 (the code departs from the claim): the array is sized from the
    first position of every word, not from the greatest position, and a
    listed position beyond it is skipped.  On the index
    [{"a": [0, 2], "b": [1]}] the code returns ["a b"], where the
    reconstruction of the claim gives ["a b a"]. *)
Theorem deconstruct_abstract_sized_by_first_positions :
  deconstruct_abstract
    (to_pyval [(lit "a", [0%nat; 2%nat]); (lit "b", [1%nat])])
  = Returned (Some (lit "a b"))
  /\ spec_reconstruct [(lit "a", [0%nat; 2%nat]); (lit "b", [1%nat])]
     = Some (lit "a b a").
Proof. split; reflexivity. Qed.

End AbstractFacts.

(** ** Rounding and logarithm *)

Module NumFacts.

Import Num.

Open Scope R_scope.

Lemma round_half_even_IZR n : round_half_even (IZR n) = n.
Proof.
  unfold round_half_even. rewrite ZfloorZ.
  destruct (Rlt_dec (IZR n - IZR n) (1 / 2)); [reflexivity|lra].
Qed.

Lemma round_half_even_lower a x : IZR a <= x -> (a <= round_half_even x)%Z.
Proof.
  intros H. unfold round_half_even.
  pose proof (Zfloor_lub a x H).
  repeat destruct (Rlt_dec _ _); try destruct (Z.even _); lia.
Qed.

Lemma round_half_even_upper b x : x <= IZR b -> (round_half_even x <= b)%Z.
Proof.
  intros H. unfold round_half_even.
  destruct (Zfloor_bound x) as [Hl Hu].
  assert (Zfloor x <= b)%Z by (apply le_IZR; lra).
  destruct (Rlt_dec (x - IZR (Zfloor x)) (1 / 2)); [assumption|].
  assert (Zfloor x < b)%Z by (apply lt_IZR; lra).
  destruct (Rlt_dec _ _); try destruct (Z.even _); lia.
Qed.

Lemma round_half_even_le x y :
  x <= y -> (round_half_even x <= round_half_even y)%Z.
Proof.
  intros H.
  pose proof (Zfloor_le x y H) as Hf.
  destruct (Z.eq_dec (Zfloor x) (Zfloor y)) as [E|N].
  - unfold round_half_even. rewrite E.
    destruct (Rlt_dec (x - IZR (Zfloor y)) (1 / 2)) as [Hx|Hx].
    + repeat destruct (Rlt_dec _ _); try destruct (Z.even _); lia.
    + destruct (Rlt_dec (y - IZR (Zfloor y)) (1 / 2)) as [Hy|Hy]; [lra|].
      destruct (Rlt_dec (1 / 2) (x - IZR (Zfloor y))) as [Hx'|Hx'].
      * destruct (Rlt_dec (1 / 2) (y - IZR (Zfloor y))); [lia|lra].
      * destruct (Rlt_dec (1 / 2) (y - IZR (Zfloor y)));
          destruct (Z.even (Zfloor y)); lia.
  - assert (round_half_even x <= Zfloor x + 1)%Z.
    { unfold round_half_even.
      repeat destruct (Rlt_dec _ _); try destruct (Z.even _); lia. }
    assert (Zfloor y <= round_half_even y)%Z.
    { unfold round_half_even.
      repeat destruct (Rlt_dec _ _); try destruct (Z.even _); lia. }
    lia.
Qed.

Lemma Qmake_100_le a b : (a <= b)%Z -> (a # 100 <= b # 100)%Q.
Proof. intros H. unfold Qle. simpl. lia. Qed.

Lemma round2_le x y : x <= y -> (round2 x <= round2 y)%Q.
Proof.
  intros H. apply Qmake_100_le, round_half_even_le. lra.
Qed.

Lemma round2_lower a x : IZR a <= x * 100 -> (a # 100 <= round2 x)%Q.
Proof. intros H. now apply Qmake_100_le, round_half_even_lower. Qed.

Lemma round2_upper b x : x * 100 <= IZR b -> (round2 x <= b # 100)%Q.
Proof. intros H. now apply Qmake_100_le, round_half_even_upper. Qed.

Lemma round2_IZR n : round2 (IZR n) = (n * 100 # 100)%Q.
Proof.
  unfold round2. now rewrite <- mult_IZR, round_half_even_IZR.
Qed.

Lemma ln_10_pos : 0 < ln 10.
Proof. rewrite <- ln_1. apply ln_increasing; lra. Qed.

Lemma log10_le x y : 0 < x -> x <= y -> log10 x <= log10 y.
Proof.
  intros Hx Hxy. unfold log10, Rdiv.
  apply Rmult_le_compat_r.
  - left. apply Rinv_0_lt_compat, ln_10_pos.
  - destruct Hxy as [Hlt | ->]; [left; now apply ln_increasing|right; reflexivity].
Qed.

Lemma log10_1 : log10 1 = 0.
Proof. unfold log10. rewrite ln_1. lra. Qed.

Lemma log10_nonneg x : 1 <= x -> 0 <= log10 x.
Proof. intros H. rewrite <- log10_1. apply log10_le; lra. Qed.

Lemma log10_1000 : log10 1000 = 3.
Proof.
  unfold log10. replace 1000 with (10 * (10 * 10)) by lra.
  rewrite !ln_mult by lra.
  pose proof ln_10_pos. field. lra.
Qed.

Lemma exp_neg_le_1 x : 0 <= x -> exp (- x) <= 1.
Proof.
  intros [H | <-].
  - left. rewrite <- exp_0. apply exp_increasing. lra.
  - rewrite Ropp_0, exp_0. lra.
Qed.

Lemma exp_10_lower : 36 < exp 10.
Proof.
  replace 10 with (5 + 5) by lra. rewrite exp_plus.
  assert (6 < exp 5) by (pose proof (exp_ineq1 5); lra).
  nra.
Qed.

Lemma Q2R_nonneg q : Qle_bool 0 q = true -> 0 <= Q2R q.
Proof.
  intros H. apply Qle_bool_iff in H. apply Qle_Rle in H.
  replace (Q2R 0) with 0 in H by (unfold Q2R; simpl; lra).
  exact H.
Qed.

Lemma Q2R_whole n : Q2R (n # 1) = IZR n.
Proof. unfold Q2R. simpl. lra. Qed.

End NumFacts.

(** ** Quality scorer of [search_paper.py] *)

Module SearchScoreFacts.

Import Num NumFacts SearchPaper.

Open Scope R_scope.

Lemma sjr_points_upper o : sjr_points o <= 40.
Proof. destruct o; simpl; [apply Rmin_l|lra]. Qed.

Lemma sjr_points_lower o :
  match o with Some s => Qle_bool 0 s = true | None => True end ->
  0 <= sjr_points o.
Proof.
  destruct o as [s|]; simpl; [|lra].
  intros H. apply Q2R_nonneg in H.
  assert (exp (- (Q2R s / 3)) <= 1) by (apply exp_neg_le_1; lra).
  replace (- Q2R s / 3) with (- (Q2R s / 3)) by lra.
  apply Rmin_glb; lra.
Qed.

Lemma h_points_upper o : h_points o <= 30.
Proof. destruct o; simpl; [apply Rmin_l|lra]. Qed.

Lemma h_points_lower o :
  match o with Some h => Qle_bool 0 h = true | None => True end ->
  0 <= h_points o.
Proof.
  destruct o as [h|]; simpl; [|lra].
  intros H. apply Q2R_nonneg in H.
  assert (0 <= Rmin (Q2R h) 200) by (apply Rmin_glb; lra).
  apply Rmin_glb; lra.
Qed.

Lemma quartile_scores_range q : (0 <= quartile_scores q <= 20)%Z.
Proof.
  unfold quartile_scores.
  repeat match goal with |- context [eqb ?a ?b] => destruct (eqb a b) end;
    lia.
Qed.

Lemma quartile_points_range o : 0 <= quartile_points o <= 20.
Proof.
  destruct o as [q|]; simpl; [|lra].
  destruct (quartile_scores_range (upper q)).
  split; [now apply (IZR_le 0)|now apply (IZR_le _ 20)].
Qed.

Lemma citation_points_range o : 0 <= citation_points o <= 30.
Proof.
  destruct o as [c|]; simpl; [|lra].
  destruct (0 <? c)%Z eqn:E; [|lra].
  apply Z.ltb_lt in E.
  assert (0 <= log10 (IZR (c + 1))).
  { apply log10_nonneg. apply (IZR_le 1). lia. }
  split; [apply Rmin_glb; lra|apply Rmin_l].
Qed.

Lemma recency_points_lower cur o : 0 <= recency_points cur o.
Proof.
  destruct o as [y|]; unfold recency_points; cbv zeta; [|lra].
  destruct (cur - y <=? 5)%Z; [|lra].
  apply (IZR_le 0). lia.
Qed.

Lemma recency_points_upper cur o :
  match o with Some y => (y <=? cur)%Z = true | None => True end ->
  recency_points cur o <= 10.
Proof.
  destruct o as [y|]; unfold recency_points; [|intros _; lra].
  intros H. apply Z.leb_le in H. cbv zeta.
  destruct (cur - y <=? 5)%Z; [|lra].
  apply (IZR_le _ 10). lia.
Qed.

Lemma oa_points_range b : 0 <= oa_points b <= 5.
Proof. destruct b; simpl; lra. Qed.

Lemma abstract_points_range p : 0 <= abstract_points p <= 5.
Proof. unfold abstract_points. destruct (has_abstract p); lra. Qed.

Lemma citation_points_le c1 c2 :
  (c1 <= c2)%Z -> citation_points (Some c1) <= citation_points (Some c2).
Proof.
  intros H. simpl.
  destruct (0 <? c1)%Z eqn:E1.
  - apply Z.ltb_lt in E1.
    assert (E2 : (0 <? c2)%Z = true) by (apply Z.ltb_lt; lia).
    rewrite E2.
    assert (log10 (IZR (c1 + 1)) <= log10 (IZR (c2 + 1))).
    { apply log10_le; [apply (IZR_lt 0); lia|apply IZR_le; lia]. }
    apply Rmin_glb; [apply Rmin_l|].
    eapply Rle_trans; [apply Rmin_r|lra].
  - apply (citation_points_range (Some c2)).
Qed.

(** When the ranking metrics are not negative and the year is not in the
    future, the sum lies between 0 and the sum of the seven caps. *)
Lemma raw_score_range cur p :
  metrics_in_range cur p = true -> 0 <= raw_score cur p <= 140.
Proof.
  unfold metrics_in_range. intros H.
  apply andb_prop in H as [H Hy]. apply andb_prop in H as [Hs Hh].
  pose proof (sjr_points_upper (sjrScore p)).
  assert (0 <= sjr_points (sjrScore p)).
  { apply sjr_points_lower. destruct (sjrScore p); [exact Hs|exact I]. }
  pose proof (h_points_upper (h_index p)).
  assert (0 <= h_points (h_index p)).
  { apply h_points_lower. destruct (h_index p); [exact Hh|exact I]. }
  pose proof (quartile_points_range (quartile p)).
  pose proof (citation_points_range (citationCount p)).
  pose proof (recency_points_lower cur (yearPublished p)).
  assert (recency_points cur (yearPublished p) <= 10).
  { apply recency_points_upper. destruct (yearPublished p); [exact Hy|exact I]. }
  pose proof (oa_points_range (isFreelyAvailable p)).
  pose proof (abstract_points_range p).
  unfold raw_score. lra.
Qed.

(** The bound the documentation of the scorer adds up to, on the papers
    it was written for. *)
Lemma calculate_quality_score_range cur p :
  metrics_in_range cur p = true ->
  (0 <= calculate_quality_score cur p <= 140)%Q.
Proof.
  intros H. destruct (raw_score_range cur p H) as [Hl Hu].
  unfold calculate_quality_score. split.
  - apply (Qle_trans _ (0 # 100)); [unfold Qle; simpl; lia|].
    apply round2_lower. lra.
  - apply (Qle_trans _ (14000 # 100)); [|unfold Qle; simpl; lia].
    apply round2_upper. lra.
Qed.

(** A paper without any metric scores 0. *)
Lemma calculate_quality_score_no_metrics cur :
  calculate_quality_score cur empty_paper = (0 # 100)%Q.
Proof.
  unfold calculate_quality_score.
  replace (raw_score cur empty_paper) with (IZR 0).
  - now rewrite round2_IZR.
  - unfold raw_score, abstract_points. simpl. lra.
Qed.

(** The score does not decrease when the citation count grows. *)
Lemma calculate_quality_score_citations cur p c1 c2 :
  (c1 <= c2)%Z ->
  (calculate_quality_score cur (with_citations p (Some c1))
   <= calculate_quality_score cur (with_citations p (Some c2)))%Q.
Proof.
  intros H. apply round2_le.
  pose proof (citation_points_le H).
  unfold raw_score, abstract_points, has_abstract. simpl citationCount.
  simpl sjrScore. simpl h_index. simpl quartile. simpl yearPublished.
  simpl isFreelyAvailable. simpl abstract_text. lra.
Qed.

End SearchScoreFacts.

(** ** Quality scorer of [fetch_data.py] and [research_service.py] *)

Module FetchScoreFacts.

Import Num NumFacts FetchData.

Open Scope R_scope.

Lemma nonzero_q_some o q : nonzero_q o = Some q -> o = Some q.
Proof.
  destruct o as [s|]; simpl; [|discriminate].
  destruct (Qeq_bool s 0); congruence.
Qed.

Lemma nonzero_z_some o z : nonzero_z o = Some z -> o = Some z.
Proof.
  destruct o as [s|]; simpl; [|discriminate].
  destruct (s =? 0)%Z; congruence.
Qed.

Lemma fetch_sjr_points_upper o : sjr_points o <= 40.
Proof.
  unfold sjr_points. destruct (nonzero_q o); [apply Rmin_r|lra].
Qed.

Lemma fetch_sjr_points_lower o :
  match o with Some s => Qle_bool 0 s = true | None => True end ->
  0 <= sjr_points o.
Proof.
  unfold sjr_points. destruct (nonzero_q o) as [s|] eqn:E; [|intros _; lra].
  apply nonzero_q_some in E. subst o.
  intros H. apply Q2R_nonneg in H. apply Rmin_glb; lra.
Qed.

Lemma fetch_h_points_upper o : h_points o <= 30.
Proof.
  unfold h_points. destruct (nonzero_q o); [apply Rmin_r|lra].
Qed.

Lemma fetch_h_points_lower o :
  match o with Some h => Qle_bool 0 h = true | None => True end ->
  0 <= h_points o.
Proof.
  unfold h_points. destruct (nonzero_q o) as [h|] eqn:E; [|intros _; lra].
  apply nonzero_q_some in E. subst o.
  intros H. apply Q2R_nonneg in H. apply Rmin_glb; lra.
Qed.

Lemma fetch_quartile_scores_range q : (0 <= quartile_scores q <= 20)%Z.
Proof.
  unfold quartile_scores.
  repeat match goal with |- context [eqb ?a ?b] => destruct (eqb a b) end;
    lia.
Qed.

Lemma fetch_quartile_points_range o : 0 <= quartile_points o <= 20.
Proof.
  destruct o as [q|]; simpl; [|lra].
  destruct (truthy q); [|lra].
  destruct (fetch_quartile_scores_range q).
  split; [now apply (IZR_le 0)|now apply (IZR_le _ 20)].
Qed.

Lemma fetch_citation_points_range o : 0 <= citation_points o <= 30.
Proof.
  unfold citation_points. destruct (nonzero_z o) as [c|]; [|lra].
  destruct (0 <? c)%Z eqn:E; [|lra].
  apply Z.ltb_lt in E.
  assert (0 <= log10 (IZR (c + 1))).
  { apply log10_nonneg. apply (IZR_le 1). lia. }
  split; [apply Rmin_glb; lra|apply Rmin_r].
Qed.

Lemma fetch_recency_points_lower cur o : 0 <= recency_points cur o.
Proof.
  unfold recency_points. destruct (nonzero_z o) as [y|]; cbv zeta; [|lra].
  destruct (cur - y <=? 5)%Z; [|lra].
  apply (IZR_le 0). lia.
Qed.

Lemma fetch_recency_points_upper cur o :
  match o with Some y => (y <=? cur)%Z = true | None => True end ->
  recency_points cur o <= 10.
Proof.
  unfold recency_points.
  destruct (nonzero_z o) as [y|] eqn:E; [|intros _; lra].
  apply nonzero_z_some in E. subst o.
  intros H. apply Z.leb_le in H. cbv zeta.
  destruct (cur - y <=? 5)%Z; [|lra].
  apply (IZR_le _ 10). lia.
Qed.

Lemma fetch_oa_points_range b : 0 <= oa_points b <= 5.
Proof. destruct b; simpl; lra. Qed.

Lemma fetch_abstract_points_range p : 0 <= abstract_points p <= 5.
Proof. unfold abstract_points. destruct (has_abstract p); lra. Qed.

Lemma fetch_citation_points_le c1 c2 :
  (c1 <= c2)%Z -> citation_points (Some c1) <= citation_points (Some c2).
Proof.
  intros H. unfold citation_points.
  destruct (nonzero_z (Some c1)) as [c|] eqn:E1;
    [|apply (fetch_citation_points_range (Some c2))].
  apply nonzero_z_some in E1. injection E1 as <-.
  destruct (0 <? c1)%Z eqn:L1; [|apply (fetch_citation_points_range (Some c2))].
  apply Z.ltb_lt in L1. simpl.
  destruct (c2 =? 0)%Z eqn:Z2; [apply Z.eqb_eq in Z2; lia|].
  assert (L2 : (0 <? c2)%Z = true) by (apply Z.ltb_lt; lia).
  rewrite L2.
  assert (log10 (IZR (c1 + 1)) <= log10 (IZR (c2 + 1))).
  { apply log10_le; [apply (IZR_lt 0); lia|apply IZR_le; lia]. }
  apply Rmin_glb; [|apply Rmin_r].
  eapply Rle_trans; [apply Rmin_l|lra].
Qed.

Lemma fetch_raw_score_range cur p :
  metrics_in_range cur p = true -> 0 <= raw_score cur p <= 140.
Proof.
  unfold metrics_in_range. intros H.
  apply andb_prop in H as [H Hy]. apply andb_prop in H as [Hs Hh].
  pose proof (fetch_sjr_points_upper (sjrScore p)).
  assert (0 <= sjr_points (sjrScore p)).
  { apply fetch_sjr_points_lower. destruct (sjrScore p); [exact Hs|exact I]. }
  pose proof (fetch_h_points_upper (h_index p)).
  assert (0 <= h_points (h_index p)).
  { apply fetch_h_points_lower. destruct (h_index p); [exact Hh|exact I]. }
  pose proof (fetch_quartile_points_range (quartile p)).
  pose proof (fetch_citation_points_range (citationCount p)).
  pose proof (fetch_recency_points_lower cur (yearPublished p)).
  assert (recency_points cur (yearPublished p) <= 10).
  { apply fetch_recency_points_upper. destruct (yearPublished p); [exact Hy|exact I]. }
  pose proof (fetch_oa_points_range (isFreelyAvailable p)).
  pose proof (fetch_abstract_points_range p).
  unfold raw_score. lra.
Qed.

Lemma fetch_calculate_quality_score_range cur p :
  metrics_in_range cur p = true ->
  (0 <= calculate_quality_score cur p <= 140)%Q.
Proof.
  intros H. destruct (fetch_raw_score_range cur p H) as [Hl Hu].
  unfold calculate_quality_score. split.
  - apply (Qle_trans _ (0 # 100)); [unfold Qle; simpl; lia|].
    apply round2_lower. lra.
  - apply (Qle_trans _ (14000 # 100)); [|unfold Qle; simpl; lia].
    apply round2_upper. lra.
Qed.

Lemma fetch_calculate_quality_score_no_metrics cur :
  calculate_quality_score cur empty_paper = (0 # 100)%Q.
Proof.
  unfold calculate_quality_score.
  replace (raw_score cur empty_paper) with (IZR 0).
  - now rewrite round2_IZR.
  - unfold raw_score, abstract_points, sjr_points, h_points, citation_points,
      recency_points.
    simpl. lra.
Qed.

Lemma fetch_calculate_quality_score_citations cur p c1 c2 :
  (c1 <= c2)%Z ->
  (calculate_quality_score cur (with_citations p (Some c1))
   <= calculate_quality_score cur (with_citations p (Some c2)))%Q.
Proof.
  intros H. apply round2_le.
  pose proof (fetch_citation_points_le H).
  unfold raw_score, abstract_points, has_abstract. simpl citationCount.
  simpl sjrScore. simpl h_index. simpl quartile. simpl yearPublished.
  simpl isFreelyAvailable. simpl abstract_text. lra.
Qed.

End FetchScoreFacts.

(** ** The scorer on a publication year in the future *)

Module ScorerClaims.

Import Num NumFacts.

Open Scope R_scope.

Lemma rmin_eq_l a b : a <= b -> Rmin a b = a.
Proof. intros H. unfold Rmin. destruct (Rle_dec a b); lra. Qed.

Lemma rmin_eq_r a b : b <= a -> Rmin a b = b.
Proof. intros H. unfold Rmin. destruct (Rle_dec a b); lra. Qed.

Lemma search_raw_score_year_2100 :
  SearchPaper.raw_score 2026 (paper_of_year 2100) = IZR 158.
Proof.
  unfold SearchPaper.raw_score, SearchPaper.abstract_points. simpl.
  rewrite Z.max_l by lia. lra.
Qed.

Lemma fetch_raw_score_year_2100 :
  FetchData.raw_score 2026 (paper_of_year 2100) = IZR 158.
Proof.
  unfold FetchData.raw_score, FetchData.abstract_points,
    FetchData.sjr_points, FetchData.h_points, FetchData.citation_points,
    FetchData.recency_points.
  simpl. rewrite Z.max_l by lia. lra.
Qed.

(** C2 (the code departs from the claim): the recency term has no lower
    guard on the age of the paper, so a publication year after the current
    year earns more than the 10 points of the documentation.  In 2026 a
    paper whose only metric is the publication year 2100 scores 158, above
    the ceiling of 150, in the scorer of [search_paper.py] and in the one
    of [fetch_data.py]. *)
Theorem calculate_quality_score_year_2100 :
  SearchPaper.calculate_quality_score 2026 (paper_of_year 2100)
  = (15800 # 100)%Q
  /\ FetchData.calculate_quality_score 2026 (paper_of_year 2100)
     = (15800 # 100)%Q
  /\ (150 < 15800 # 100)%Q.
Proof.
  unfold SearchPaper.calculate_quality_score,
    FetchData.calculate_quality_score.
  rewrite search_raw_score_year_2100, fetch_raw_score_year_2100.
  rewrite round2_IZR. repeat split.
Qed.

Lemma search_raw_score_leading :
  14088 / 100 <= SearchPaper.raw_score 2026 (leading_paper 2027).
Proof.
  unfold SearchPaper.raw_score, SearchPaper.abstract_points,
    SearchPaper.sjr_points, SearchPaper.h_points,
    SearchPaper.citation_points, SearchPaper.recency_points,
    SearchPaper.quartile_points, SearchPaper.oa_points, leading_paper.
  cbn [sjrScore h_index quartile citationCount yearPublished
       isFreelyAvailable has_abstract abstract_text].
  replace (SearchPaper.quartile_scores (upper (lit "Q1"))) with 20%Z
    by (now vm_compute).
  replace (truthy (lit "x")) with true by reflexivity.
  replace (0 <? 999)%Z with true by reflexivity.
  replace (2026 - 2027 <=? 5)%Z with true by reflexivity.
  replace (Z.max (10 - (2026 - 2027) * 2) 0) with 12%Z by reflexivity.
  replace (999 + 1)%Z with 1000%Z by reflexivity.
  rewrite !Q2R_whole, log10_1000.
  rewrite (@rmin_eq_l 200 200) by lra.
  rewrite (@rmin_eq_l 30 (30 * (200 / 200))) by lra.
  rewrite (@rmin_eq_l 30 (3 * 10)) by lra.
  replace (- (30) / 3) with (- (10)) by lra.
  rewrite exp_Ropp.
  assert (/ exp 10 < / 36).
  { apply Rinv_lt_contravar; [|apply exp_10_lower].
    pose proof exp_10_lower. nra. }
  assert (40 * (35 / 36) <= Rmin 40 (40 * (1 - / exp 10))).
  { apply Rmin_glb; lra. }
  lra.
Qed.

Lemma fetch_raw_score_leading :
  FetchData.raw_score 2026 (leading_paper 2027) = IZR 142.
Proof.
  unfold FetchData.raw_score, FetchData.abstract_points,
    FetchData.sjr_points, FetchData.h_points,
    FetchData.citation_points, FetchData.recency_points,
    FetchData.quartile_points, FetchData.oa_points, leading_paper.
  cbn [sjrScore h_index quartile citationCount yearPublished
       isFreelyAvailable has_abstract abstract_text].
  replace (FetchData.nonzero_q (Some (30 # 1))) with (Some (30 # 1))
    by reflexivity.
  replace (FetchData.nonzero_q (Some (200 # 1))) with (Some (200 # 1))
    by reflexivity.
  replace (FetchData.nonzero_z (Some 999%Z)) with (Some 999%Z)
    by reflexivity.
  replace (FetchData.nonzero_z (Some 2027%Z)) with (Some 2027%Z)
    by reflexivity.
  replace (FetchData.quartile_scores (lit "Q1")) with 20%Z
    by (now vm_compute).
  replace (truthy (lit "Q1")) with true by reflexivity.
  replace (truthy (lit "x")) with true by reflexivity.
  replace (0 <? 999)%Z with true by reflexivity.
  replace (2026 - 2027 <=? 5)%Z with true by reflexivity.
  replace (Z.max (10 - (2026 - 2027) * 2) 0) with 12%Z by reflexivity.
  replace (999 + 1)%Z with 1000%Z by reflexivity.
  rewrite !Q2R_whole, log10_1000.
  rewrite (@rmin_eq_r (30 * 10) 40) by lra.
  rewrite (@rmin_eq_r (200 / 5) 30) by lra.
  rewrite (@rmin_eq_l (3 * 10) 30) by lra.
  lra.
Qed.

(** C9 (the code departs from the claim): the seven caps add up to 140,
    but the recency term exceeds its cap of 10 when the publication year is
    after the current year.  In 2026 a much cited open-access paper of a
    leading journal dated 2027 scores more than 140 in the scorer of
    [search_paper.py], and exactly 142 in the one of [fetch_data.py]. *)
Theorem calculate_quality_score_year_2027 :
  (140 < SearchPaper.calculate_quality_score 2026 (leading_paper 2027))%Q
  /\ FetchData.calculate_quality_score 2026 (leading_paper 2027)
     = (14200 # 100)%Q.
Proof.
  split.
  - apply (Qlt_le_trans _ (14088 # 100)); [reflexivity|].
    apply round2_lower. pose proof search_raw_score_leading. lra.
  - unfold FetchData.calculate_quality_score.
    rewrite fetch_raw_score_leading. now rewrite round2_IZR.
Qed.

End ScorerClaims.

(** ** Retrying fetcher *)

Module FetcherFacts.

(** *** [search_paper.py] *)

Lemma cancelled_only_by_cancellation o :
  request_message o = inl CancelledError -> o = Cancellation.
Proof. destruct o as [[m|]| | | | | |]; simpl; congruence. Qed.

(** The messages of the fetcher for its own DOI and keyword. *)
Lemma log_rate_limited console doi kw (H : renders_for console doi kw)
  wait_time attempt retries :
  console (RateLimitedMessage doi kw wait_time attempt retries) = None.
Proof. apply H. simpl. now rewrite !PyStrFacts.eqb_refl. Qed.

Lemma log_status console doi kw (H : renders_for console doi kw) code :
  console (StatusMessage code doi kw) = None.
Proof. apply H. simpl. now rewrite !PyStrFacts.eqb_refl. Qed.

Lemma log_request_error console doi kw (H : renders_for console doi kw) e :
  console (RequestErrorMessage doi kw e) = None.
Proof. apply H. simpl. now rewrite !PyStrFacts.eqb_refl. Qed.

Lemma log_unexpected console doi kw (H : renders_for console doi kw) e :
  console (UnexpectedMessage doi kw e) = None.
Proof. apply H. simpl. now rewrite !PyStrFacts.eqb_refl. Qed.

(** The console of the scenarios renders the messages of a DOI and a
    keyword that are not among its unmatched tags. *)
Lemma scenario_console_renders doi kw :
  unmatched_tag doi = false -> unmatched_tag kw = false ->
  renders_for scenario_console doi kw.
Proof.
  intros Hd Hk m H.
  destruct m as [d k w a r|c d k|d k e|d k e|q]; try discriminate H;
    simpl in H; apply andb_prop in H as [Ed Ek];
    apply PyStrFacts.eqb_eq in Ed, Ek; subst d k;
    unfold scenario_console; now rewrite Hd, Hk.
Qed.

(** A status error other than 429 ends the loop at once: with no message
    when the log call returns (or the status is 404, which is not
    logged), with the exception of the log call otherwise. *)
Lemma search_status_is_terminal console doi kw responses retries fuel
  attempt delay slept code :
  responses attempt = StatusError code -> code <> 429 ->
  SearchPaper.attempt_loop console doi kw responses retries (S fuel) attempt
                           delay slept
  = mkRun (if code =? 404 then Returned None
           else match console (StatusMessage code doi kw) with
                | Some raised => Raised raised
                | None => Returned None
                end)
          (S attempt) slept.
Proof.
  intros E N. simpl. rewrite E. simpl.
  apply Z.eqb_neq in N. rewrite N.
  destruct (code =? 404); [reflexivity|].
  now destruct (console (StatusMessage code doi kw)).
Qed.

Lemma search_loop_resolves console doi kw responses retries fuel :
  renders_for console doi kw ->
  (forall k, responses k <> Cancellation) ->
  forall attempt delay slept,
    resolves responses
      (SearchPaper.attempt_loop console doi kw responses retries fuel attempt
                                delay slept).
Proof.
  intros Hr Hc. induction fuel as [|fuel IH]; intros attempt delay slept.
  - exact I.
  - simpl. specialize (Hc attempt).
    destruct (request_message (responses attempt)) as [e|m] eqn:E.
    + destruct e; simpl;
        rewrite ?(log_request_error Hr), ?(log_unexpected Hr);
        try exact I.
      * destruct (code =? 429).
        -- rewrite (log_rate_limited Hr). apply IH.
        -- destruct (code =? 404); [exact I|].
           rewrite (log_status Hr). exact I.
      * destruct (attempt <? retries - 1)%nat; [apply IH|exact I].
      * destruct (attempt <? retries - 1)%nat; [apply IH|exact I].
      * now apply cancelled_only_by_cancellation in E.
    + unfold resolves. simpl. now exists attempt.
Qed.

Lemma search_loop_attempts console doi kw responses retries fuel attempt
  delay slept :
  (attempts (SearchPaper.attempt_loop console doi kw responses retries fuel
                                      attempt delay slept)
   <= attempt + fuel)%nat.
Proof.
  revert attempt delay slept.
  induction fuel as [|fuel IH]; intros attempt delay slept; simpl; [lia|].
  destruct (request_message (responses attempt)) as [e|m]; [|simpl; lia].
  destruct e; simpl; try (destruct (console _); simpl; lia).
  - destruct (code =? 429).
    + destruct (console _); [simpl; lia|].
      etransitivity; [apply IH|lia].
    + destruct (code =? 404); [simpl; lia|].
      destruct (console _); simpl; lia.
  - destruct (console _); [simpl; lia|].
    destruct (attempt <? retries - 1)%nat; [|simpl; lia].
    etransitivity; [apply IH|lia].
  - destruct (console _); [simpl; lia|].
    destruct (attempt <? retries - 1)%nat; [|simpl; lia].
    etransitivity; [apply IH|lia].
  - lia.
Qed.

(** *** [fetch_data.py] *)

Lemma fetch_loop_resolves responses fuel :
  (forall k, responses k <> Cancellation) ->
  forall attempt delay slept,
    resolves responses
      (FetchData.attempt_loop responses fuel attempt delay slept).
Proof.
  intros Hc. induction fuel as [|fuel IH]; intros attempt delay slept.
  - exact I.
  - simpl. specialize (Hc attempt).
    destruct (request_message (responses attempt)) as [e|m] eqn:E.
    + destruct e; simpl; try apply IH.
      * destruct (code =? 429); [apply IH|].
        destruct (code =? 404); [exact I|apply IH].
      * now apply cancelled_only_by_cancellation in E.
    + unfold resolves. simpl. now exists attempt.
Qed.

(** A status error other than 429 and 404 is followed by the next
    attempt, with no sleep in between. *)
Lemma fetch_status_is_retried responses fuel attempt delay slept code :
  responses attempt = StatusError code -> code <> 429 -> code <> 404 ->
  FetchData.attempt_loop responses (S fuel) attempt delay slept
  = FetchData.attempt_loop responses fuel (S attempt) delay slept.
Proof.
  intros E N1 N2. simpl. rewrite E. simpl.
  apply Z.eqb_neq in N1, N2. now rewrite N1, N2.
Qed.

(** *** [research_service.py] *)

Lemma service_status_is_terminal responses fuel attempt delay slept code :
  responses attempt = StatusError code -> code <> 429 ->
  ResearchService.attempt_loop responses (S fuel) attempt delay slept
  = mkRun (Returned None) (S attempt) slept.
Proof.
  intros E N. simpl. rewrite E. simpl.
  apply Z.eqb_neq in N. rewrite N.
  now destruct (code =? 404).
Qed.

Lemma service_loop_resolves responses fuel :
  (forall k, responses k <> Cancellation) ->
  forall attempt delay slept,
    resolves responses
      (ResearchService.attempt_loop responses fuel attempt delay slept).
Proof.
  intros Hc. induction fuel as [|fuel IH]; intros attempt delay slept.
  - exact I.
  - simpl. specialize (Hc attempt).
    destruct (request_message (responses attempt)) as [e|m] eqn:E.
    + destruct e; try exact I.
      * destruct (code =? 429); [apply IH|]. now destruct (code =? 404).
      * destruct (_ <? _)%nat; [apply IH|exact I].
      * now apply cancelled_only_by_cancellation in E.
    + unfold resolves. simpl. now exists attempt.
Qed.

(** *** The scenarios of the specification, on [search_paper.py] *)

(** Two 429 then a success: three attempts, two sleeps of 2 s and 6 s. *)
Example search_two_429_then_success :
  result (SearchPaper.enrich_paper_with_crossref
            scenario_console (Some (lit "10.1/x")) (lit "") MAX_RETRIES
            two_429_then_success)
  = Returned (Some sample_meta)
  /\ attempts (SearchPaper.enrich_paper_with_crossref
                 scenario_console (Some (lit "10.1/x")) (lit "") MAX_RETRIES
                 two_429_then_success)
     = 3%nat
  /\ map Qred (sleeps (SearchPaper.enrich_paper_with_crossref
                         scenario_console (Some (lit "10.1/x")) (lit "")
                         MAX_RETRIES two_429_then_success))
     = [2%Q; 6%Q].
Proof. repeat split. Qed.

(** One 404: no message after exactly one attempt. *)
Example search_single_404 :
  SearchPaper.enrich_paper_with_crossref scenario_console
    (Some (lit "10.1/x")) (lit "") MAX_RETRIES (script [StatusError 404])
  = mkRun (Returned None) 1 [].
Proof. reflexivity. Qed.

(** Five transport errors: no message, five attempts, nothing raised. *)
Example search_five_transport_errors :
  let run :=
    SearchPaper.enrich_paper_with_crossref scenario_console
      (Some (lit "10.1/x")) (lit "") MAX_RETRIES (script []) in
  result run = Returned None /\ attempts run = 5%nat
  /\ List.length (sleeps run) = 4%nat.
Proof. repeat split. Qed.

(** A work without DOI is not looked up. *)
Example search_no_doi console kw responses :
  SearchPaper.enrich_paper_with_crossref console None kw MAX_RETRIES responses
  = mkRun (Returned None) 0 [].
Proof. reflexivity. Qed.

(** *** The claims on the fetcher *)

(** C4 (the code departs from the claim in [fetch_data.py]): there a status
    error other than 429 and 404 falls out of the handler and the loop goes
    on to the next attempt.  After a 500 the fetcher of [fetch_data.py]
    sends a second request and returns its message; the fetcher of
    [search_paper.py] returns no message after the one attempt. *)
Theorem fetch_data_retries_status_500 :
  FetchData.enrich_paper_with_crossref (Some (lit "10.1/x"))
    (script [StatusError 500; JsonObject (Some sample_meta)])
  = mkRun (Returned (Some sample_meta)) 2 []
  /\ SearchPaper.enrich_paper_with_crossref scenario_console
       (Some (lit "10.1/x")) (lit "") MAX_RETRIES
       (script [StatusError 500; JsonObject (Some sample_meta)])
     = mkRun (Returned None) 1 [].
Proof. split; reflexivity. Qed.

(** Where the log calls return, and in the two fetchers that do not
    log, the run ends in no message or in the message of a response that
    was received, never in an exception. *)
Lemma fetcher_returns_when_log_renders (console : console_log)
  (doi : option str) (kw : str) (retries : nat)
  (responses : nat -> attempt_outcome) :
  (forall d, doi = Some d -> renders_for console d kw) ->
  (forall k, responses k <> Cancellation) ->
  resolves responses
    (SearchPaper.enrich_paper_with_crossref console doi kw retries responses)
  /\ resolves responses (FetchData.enrich_paper_with_crossref doi responses)
  /\ resolves responses (ResearchService._crossref_get doi responses).
Proof.
  intros Hr Hc.
  unfold SearchPaper.enrich_paper_with_crossref,
    FetchData.enrich_paper_with_crossref, ResearchService._crossref_get.
  destruct doi as [[|c d]|]; repeat split;
    try (apply search_loop_resolves; [now apply Hr|assumption]);
    try apply fetch_loop_resolves; try apply service_loop_resolves;
    assumption.
Qed.

(** The exception of a log call leaves the fetcher of [search_paper.py]
    at the first failed attempt that is logged. *)
Lemma search_log_exception_escapes (console : console_log) (d kw : str)
  (retries : nat) (responses : nat -> attempt_outcome) (raised : exn) :
  truthy d = true ->
  retries <> 0%nat ->
  match request_message (responses 0%nat) with
  | inr _ => False
  | inl (HTTPStatusError code) =>
      if code =? 429
      then console (RateLimitedMessage d kw INITIAL_BACKOFF 1 retries)
           = Some raised
      else code <> 404 /\ console (StatusMessage code d kw) = Some raised
  | inl ((RequestError | ValueError) as e) =>
      console (RequestErrorMessage d kw e) = Some raised
  | inl e =>
      is_Exception e = true
      /\ console (UnexpectedMessage d kw e) = Some raised
  end ->
  SearchPaper.enrich_paper_with_crossref console (Some d) kw retries
                                         responses
  = mkRun (Raised raised) 1 [].
Proof.
  intros Hd Hn H. unfold SearchPaper.enrich_paper_with_crossref.
  destruct d as [|c d]; [discriminate|].
  destruct retries as [|r]; [congruence|].
  cbn [SearchPaper.attempt_loop].
  destruct (request_message (responses 0%nat)) as [e|m]; [|destruct H].
  destruct e as [code| | | | | | |]; cbn [is_Exception] in H |- *.
  - destruct (code =? 429).
    + assert (E : (INITIAL_BACKOFF * inject_Z (Z.of_nat 0 + 1))%Q
                  = INITIAL_BACKOFF) by reflexivity.
      rewrite E, H. reflexivity.
    + destruct H as [N H]. apply Z.eqb_neq in N. now rewrite N, H.
  - now rewrite H.
  - now rewrite H.
  - destruct H as [_ H]. now rewrite H.
  - destruct H as [_ H]. now rewrite H.
  - destruct H as [_ H]. now rewrite H.
  - destruct H as [H _]. discriminate.
  - destruct H as [_ H]. now rewrite H.
Qed.

(** C6 (the code departs from the claim in [search_paper.py]): the
    handlers of the fetcher log the DOI and the keyword through
    [console.log], which reads them as markup.  For the DOI ["10.1/[/x]"]
    answered by HTTP 500 the log call raises [MarkupError] and the
    exception leaves the fetcher after the one request, also when the
    answer is a rate limit or a transport error; the fetcher of
    [fetch_data.py], which does not log, returns no message for the same
    DOI and responses. *)
Theorem search_fetcher_raises_past_boundary :
  SearchPaper.enrich_paper_with_crossref scenario_console
    (Some (lit "10.1/[/x]")) (lit "") MAX_RETRIES (script [StatusError 500])
  = mkRun (Raised MarkupError) 1 []
  /\ SearchPaper.enrich_paper_with_crossref scenario_console
       (Some (lit "10.1/[/x]")) (lit "") MAX_RETRIES
       (script [StatusError 429; JsonObject (Some sample_meta)])
     = mkRun (Raised MarkupError) 1 []
  /\ SearchPaper.enrich_paper_with_crossref scenario_console
       (Some (lit "10.1/[/x]")) (lit "") MAX_RETRIES (script [])
     = mkRun (Raised MarkupError) 1 []
  /\ result (FetchData.enrich_paper_with_crossref
               (Some (lit "10.1/[/x]")) (script [StatusError 500]))
     = Returned None.
Proof. repeat split. Qed.

End FetcherFacts.

(** ** Ordered dictionaries *)

Module DictFacts.
Section Ordered.
Variables K V : Type.
Variable keq : K -> K -> bool.
Hypothesis keq_refl : forall k, keq k k = true.

Lemma get_set_same (d : Dict.t K V) k v :
  Dict.get keq (Dict.set keq d k v) k = Some v.
Proof.
  induction d as [|[k' v'] r IH]; simpl.
  - now rewrite keq_refl.
  - destruct (keq k k') eqn:E; simpl; now rewrite E.
Qed.

Lemma get_set_other (d : Dict.t K V) k k' v :
  (forall a b, keq a b = true -> a = b) ->
  keq k k' = false ->
  Dict.get keq (Dict.set keq d k' v) k = Dict.get keq d k.
Proof.
  intros Hsound N.
  induction d as [|[k0 v0] r IH]; simpl.
  - now rewrite N.
  - destruct (keq k' k0) eqn:E; simpl.
    + apply Hsound in E. subst k0. now rewrite N.
    + destruct (keq k k0); [reflexivity|exact IH].
Qed.

Lemma set_length_le (d : Dict.t K V) k v :
  (List.length (Dict.set keq d k v) <= S (List.length d))%nat.
Proof.
  induction d as [|[k' v'] r IH]; simpl; [lia|].
  destruct (keq k k'); simpl; lia.
Qed.

Lemma set_length (d : Dict.t K V) k v :
  List.length (Dict.set keq d k v)
  = if Dict.mem keq d k then List.length d else S (List.length d).
Proof.
  unfold Dict.mem.
  induction d as [|[k' v'] r IH]; simpl; [reflexivity|].
  destruct (keq k k'); simpl; [reflexivity|].
  rewrite IH. now destruct (Dict.get keq r k).
Qed.

End Ordered.
End DictFacts.

(** ** Enrichment of a discovered work *)

Module EnrichmentFacts.

Import PyStrFacts.

Lemma strip_non_digits_empty : strip_non_digits [] = [].
Proof. reflexivity. Qed.

(** The loop of [search_paper.py] picks what the specification
    describes. *)
Lemma first_usable_issn_spec candidates :
  SearchPaper.first_usable_issn candidates = spec_resolved_issn candidates.
Proof.
  unfold spec_resolved_issn.
  induction candidates as [|raw r IH]; simpl; [reflexivity|].
  unfold SearchPaper.clean_issn.
  destruct raw as [|c raw']; simpl truthy at 1.
  - simpl. exact IH.
  - destruct (truthy (strip_non_digits (c :: raw'))) eqn:E;
      [reflexivity|exact IH].
Qed.

Lemma spec_resolved_issn_app a b :
  spec_resolved_issn (a ++ b)
  = match spec_resolved_issn a with
    | Some c => Some c
    | None => spec_resolved_issn b
    end.
Proof.
  unfold spec_resolved_issn. rewrite map_app, filter_app.
  now destruct (filter truthy (map strip_non_digits a)).
Qed.

Lemma spec_resolved_issn_digits candidates c :
  spec_resolved_issn candidates = Some c ->
  truthy c = true /\ forallb is_digit c = true.
Proof.
  unfold spec_resolved_issn.
  induction candidates as [|raw r IH]; simpl; [discriminate|].
  destruct (truthy (strip_non_digits raw)) eqn:E; [|exact IH].
  simpl. intros H. injection H as <-. split; [exact E|].
  unfold strip_non_digits. apply forallb_forall.
  intros x Hx. now apply filter_In in Hx.
Qed.

(** Every entry of a page that is not an empty record yields one paper,
    in order, whatever its lookup returned. *)
Lemma process_page_keeps_every_work cur table kw works metas :
  List.length works = List.length metas ->
  map title (SearchPaper.process_page cur table kw works metas)
  = map w_title (present works).
Proof.
  unfold SearchPaper.process_page.
  revert metas. induction works as [|w ws IH]; intros [|m ms] H;
    try discriminate; simpl; [reflexivity|].
  injection H as H. destruct w as [w|]; simpl; [f_equal|]; now apply IH.
Qed.

End EnrichmentFacts.

(** ** The claims on enrichment *)

Module EnrichmentClaims.

Import PyStrFacts EnrichmentFacts.

(** C5 as stated fails in [research_service.py]: a titled work whose
    lookup returned nothing leaves the result set empty. *)
Lemma research_service_skips_failed_lookup :
  ~ (forall (current_year : Z) (table : RankingTable) (w : RawWork),
        w_title w <> None ->
        ResearchService.process_work current_year table [] (Some w)
                                     (Returned None)
        <> []).
Proof.
  intros H. apply (H 2026 [] titled_work); [discriminate|reflexivity].
Qed.

(** C5, amended: in [search_paper.py] every entry of a page that is not an
    empty record yields one paper, whatever its lookup returned; a work
    whose lookup returned nothing is emitted as a paper that carries the
    title, DOI, citation count and year of the primary source, has no
    publisher, and takes its journal title from the venue of the primary
    source only; in [research_service.py] a work whose lookup returned
    nothing, or failed, is skipped and the result set is left as it was. *)
Theorem failed_lookup_emits_or_skips (current_year : Z)
  (table : RankingTable) (keyword : str) (w : RawWork)
  (results : Dict.t str Paper) :
  let p :=
    SearchPaper.process_work current_year table keyword w (Returned None) in
  SearchPaper.process_page current_year table keyword [Some w]
                           [Returned None] = [p]
  /\ title p = w_title w
  /\ doi p = w_doi w
  /\ citationCount p = cited_by_count w
  /\ yearPublished p = publication_year w
  /\ publisher p = None
  /\ journalTitle p
     = match host_venue w with Some hv => display_name hv | None => None end
  /\ (forall works metas,
         List.length works = List.length metas ->
         map title
             (SearchPaper.process_page current_year table keyword works metas)
         = map w_title (present works))
  /\ ResearchService.process_work current_year table results (Some w)
                                  (Returned None) = results
  /\ (forall e,
         ResearchService.process_work current_year table results (Some w)
                                      (Raised e) = results).
Proof.
  cbv zeta. repeat split.
  intros works metas H. now apply process_page_keeps_every_work.
Qed.

(** C7 as stated fails in [research_service.py]: only the first entry of
    the ISSN list is read, so a list whose first entry has no digit
    resolves to the empty string although a later entry is usable. *)
Lemma research_service_reads_first_issn_only :
  ~ (forall (table : RankingTable) (p : Paper) (issn_list : list str),
        issn (ResearchService._enrich_with_sjr table p issn_list)
        = spec_resolved_issn issn_list).
Proof.
  intros H.
  specialize (H [] empty_paper [lit "n/a"; lit "1234-5678"]).
  vm_compute in H. discriminate.
Qed.

(** C7, amended: in [search_paper.py] the candidates are the ISSN list of
    the secondary source, then the linking ISSN of the venue of the work,
    then the ISSN list of that venue (one string counting as a list of
    one); the resolved ISSN is the first candidate that is not empty once
    its non-digit characters are removed, a usable secondary ISSN is
    preferred to every venue field, and without a resolved ISSN quartile,
    h-index, SJR and impact factor stay absent; in [research_service.py]
    the ISSN is the first entry of the secondary list with its non-digit
    characters removed, and no other candidate is read. *)
Theorem issn_resolution (current_year : Z) (table : RankingTable)
  (keyword : str) (w : RawWork) (meta : CrossrefMeta) (p0 : Paper)
  (issn_list : list str) :
  let p :=
    SearchPaper.process_work current_year table keyword w
                             (Returned (Some meta)) in
  let secondary :=
    if meta_truthy meta
    then match cr_ISSN meta with Some l => l | None => [] end
    else [] in
  let linking :=
    match host_venue w with
    | Some hv =>
        match issn_l hv with
        | Some x => if truthy x then [x] else []
        | None => []
        end
    | None => []
    end in
  let venue_list :=
    match host_venue w with
    | Some hv =>
        match hv_issn hv with
        | IssnAbsent => []
        | IssnOne x => if truthy x then [x] else []
        | IssnMany l => l
        end
    | None => []
    end in
  issn p
  = spec_resolved_issn
      (SearchPaper.issn_candidates w (Returned (Some meta)))
  /\ SearchPaper.issn_candidates w (Returned (Some meta))
     = secondary ++ linking ++ venue_list
  /\ SearchPaper.issn_candidates w (Returned None) = linking ++ venue_list
  /\ issn p = spec_resolved_issn (secondary ++ linking ++ venue_list)
  /\ (forall c, spec_resolved_issn secondary = Some c -> issn p = Some c)
  /\ (issn p = None ->
      quartile p = None /\ h_index p = None /\ sjrScore p = None
      /\ impactFactor p = None)
  /\ issn (ResearchService._enrich_with_sjr table p0 issn_list)
     = option_map strip_non_digits (hd_error issn_list).
Proof.
  cbv zeta.
  assert (E : issn (SearchPaper.process_work current_year table keyword w
                                             (Returned (Some meta)))
              = spec_resolved_issn
                  (SearchPaper.issn_candidates w (Returned (Some meta)))).
  { unfold SearchPaper.process_work. simpl.
    apply first_usable_issn_spec. }
  assert (C : forall m,
             SearchPaper.issn_candidates w m
             = match m with
               | Returned (Some x) =>
                   if meta_truthy x
                   then match cr_ISSN x with Some l => l | None => [] end
                   else []
               | _ => []
               end
               ++ match host_venue w with
                  | Some hv =>
                      match issn_l hv with
                      | Some x => if truthy x then [x] else []
                      | None => []
                      end
                  | None => []
                  end
               ++ match host_venue w with
                  | Some hv =>
                      match hv_issn hv with
                      | IssnAbsent => []
                      | IssnOne x => if truthy x then [x] else []
                      | IssnMany l => l
                      end
                  | None => []
                  end).
  { intros m. unfold SearchPaper.issn_candidates. cbv zeta. f_equal.
    destruct (host_venue w) as [hv|]; [|reflexivity].
    destruct (issn_l hv) as [x|]; [|reflexivity].
    now destruct (truthy x). }
  split; [exact E|]. split; [apply C|]. split; [apply (C (Returned None))|].
  split; [now rewrite E, C|]. split; [|split].
  - intros c Hc. rewrite E. unfold SearchPaper.issn_candidates.
    rewrite spec_resolved_issn_app. now rewrite Hc.
  - unfold SearchPaper.process_work. simpl.
    destruct (SearchPaper.first_usable_issn _); [discriminate|].
    intros _. repeat split.
  - unfold ResearchService._enrich_with_sjr, ResearchService._clean_issn.
    destruct issn_list as [|first rest]; simpl; [reflexivity|].
    destruct (truthy (strip_non_digits first)); [|reflexivity].
    now destruct (Dict.get eqb table (strip_non_digits first)).
Qed.

(** The linking ISSN of the venue comes before the ISSN list of the
    venue. *)
Example linking_issn_first :
  SearchPaper.issn_candidates
    (mkRawWork None [] None None None PNone None
               (Some (mkHostVenue (IssnMany [lit "1111-1111"])
                                  (Some (lit "2222-2222")) None)))
    (Returned (Some sample_meta))
  = [lit "1234-5678"; lit "2222-2222"; lit "1111-1111"].
Proof. reflexivity. Qed.

End EnrichmentClaims.

(** ** Cross-keyword de-duplication *)

Module DedupFacts.

Import PyStrFacts.

Lemma option_eqb_refl {A : Type} (eq : A -> A -> bool) :
  (forall a, eq a a = true) -> forall o, SearchPaper.option_eqb eq o o = true.
Proof. intros H [a|]; simpl; [apply H|reflexivity]. Qed.

Lemma dedup_key_eqb_refl k : SearchPaper.dedup_key_eqb k k = true.
Proof.
  destruct k as [d|t y]; simpl; [apply eqb_refl|].
  rewrite (option_eqb_refl eqb eqb_refl), (option_eqb_refl Z.eqb Z.eqb_refl).
  reflexivity.
Qed.

(** The membership test on the tuple key never succeeds. *)
Lemma tuple_never_in dedup key : SearchPaper.tuple_in dedup key = false.
Proof.
  unfold SearchPaper.tuple_in.
  induction (Dict.keys dedup) as [|k ks IH]; simpl; [reflexivity|exact IH].
Qed.

Lemma Qltb_lt a b : Qltb a b = true <-> (a < b)%Q.
Proof.
  unfold Qltb. rewrite negb_true_iff. split; intros H.
  - apply Qnot_le_lt. intros L. apply Qle_bool_iff in L. congruence.
  - destruct (Qle_bool b a) eqn:E; [|reflexivity].
    apply Qle_bool_iff in E. now apply Qle_not_lt in E.
Qed.

Lemma eqb_sound a b : eqb a b = true -> a = b.
Proof. apply eqb_eq. Qed.

Lemma dedup_key_eqb_sound a b :
  SearchPaper.dedup_key_eqb a b = true -> a = b.
Proof.
  destruct a as [x|t y], b as [x'|t' y']; simpl; try discriminate.
  - intros H. apply eqb_sound in H. now subst.
  - intros H. apply andb_prop in H as [Ht Hy].
    destruct t as [t|], t' as [t'|]; simpl in Ht; try discriminate;
      destruct y as [y|], y' as [y'|]; simpl in Hy; try discriminate;
      try apply eqb_sound in Ht; try apply Z.eqb_eq in Hy; now subst.
Qed.

(** The step leaves the entries of the other DOIs as they are. *)
Lemma dedup_step_other_doi dedup p key :
  doi p <> Some key ->
  Dict.get SearchPaper.dedup_key_eqb (SearchPaper.dedup_step dedup p)
           (SearchPaper.KDoi key)
  = Dict.get SearchPaper.dedup_key_eqb dedup (SearchPaper.KDoi key).
Proof.
  intros N. unfold SearchPaper.dedup_step.
  destruct (doi p) as [[|c d]|] eqn:E.
  - rewrite tuple_never_in. simpl negb. cbv iota.
    now apply DictFacts.get_set_other; [apply dedup_key_eqb_sound|].
  - assert (F : SearchPaper.dedup_key_eqb (SearchPaper.KDoi key)
                                          (SearchPaper.KDoi (c :: d))
                = false).
    { simpl. destruct (eqb key (c :: d)) eqn:K; [|reflexivity].
      apply eqb_sound in K. congruence. }
    destruct (Dict.get SearchPaper.dedup_key_eqb dedup
                       (SearchPaper.KDoi (c :: d))) as [stored|].
    + destruct (Qltb (score_of stored) (score_of p)); [|reflexivity].
      now apply DictFacts.get_set_other; [apply dedup_key_eqb_sound|].
    + now apply DictFacts.get_set_other; [apply dedup_key_eqb_sound|].
  - rewrite tuple_never_in. simpl negb. cbv iota.
    now apply DictFacts.get_set_other; [apply dedup_key_eqb_sound|].
Qed.

(** Keep-best over a whole run of [search_paper.py]: the record stored
    under a DOI is one of the inputs with that DOI and no input with the
    same DOI has a higher score; a DOI without entry has no input. *)
Lemma dedup_keeps_best (all_results : list Paper) (c : ascii) (d : str) :
  match Dict.get SearchPaper.dedup_key_eqb
                 (fold_left SearchPaper.dedup_step all_results [])
                 (SearchPaper.KDoi (c :: d)) with
  | Some kept =>
      In kept all_results /\ doi kept = Some (c :: d)
      /\ forall q, In q all_results -> doi q = Some (c :: d) ->
                   (score_of q <= score_of kept)%Q
  | None => forall q, In q all_results -> doi q <> Some (c :: d)
  end.
Proof.
  induction all_results as [|p l IH] using rev_ind.
  - simpl. intros q [].
  - rewrite fold_left_app. simpl fold_left.
    set (dedup := fold_left SearchPaper.dedup_step l []) in *.
    assert (Hdec : {doi p = Some (c :: d)} + {doi p <> Some (c :: d)})
      by (decide equality; apply list_eq_dec, ascii_dec).
    destruct Hdec as [E|N].
    + unfold SearchPaper.dedup_step. rewrite E.
      destruct (Dict.get SearchPaper.dedup_key_eqb dedup
                         (SearchPaper.KDoi (c :: d))) as [stored|] eqn:G.
      * destruct IH as (Hin & Hdoi & Hbest).
        destruct (Qltb (score_of stored) (score_of p)) eqn:L.
        -- rewrite DictFacts.get_set_same by apply dedup_key_eqb_refl.
           split; [apply in_or_app; right; now left|]. split; [exact E|].
           intros q Hq Hqd. apply in_app_or in Hq as [Hq|[<-|[]]].
           ++ apply Qlt_le_weak. eapply Qle_lt_trans; [now apply Hbest|].
              now apply Qltb_lt.
           ++ apply Qle_refl.
        -- rewrite G.
           split; [apply in_or_app; now left|]. split; [exact Hdoi|].
           intros q Hq Hqd. apply in_app_or in Hq as [Hq|[<-|[]]].
           ++ now apply Hbest.
           ++ apply Qnot_lt_le. intros Hlt. apply Qltb_lt in Hlt. congruence.
      * rewrite DictFacts.get_set_same by apply dedup_key_eqb_refl.
        split; [apply in_or_app; right; now left|]. split; [exact E|].
        intros q Hq Hqd. apply in_app_or in Hq as [Hq|[<-|[]]].
        -- now contradiction (IH q Hq).
        -- apply Qle_refl.
    + rewrite (dedup_step_other_doi dedup p N).
      destruct (Dict.get SearchPaper.dedup_key_eqb dedup
                         (SearchPaper.KDoi (c :: d))) as [kept|].
      * destruct IH as (Hin & Hdoi & Hbest).
        split; [apply in_or_app; now left|]. split; [exact Hdoi|].
        intros q Hq Hqd. apply in_app_or in Hq as [Hq|[<-|[]]].
        -- now apply Hbest.
        -- contradiction.
      * intros q Hq. apply in_app_or in Hq as [Hq|[<-|[]]].
        -- now apply IH.
        -- exact N.
Qed.

(** The merged output is never longer than the input. *)
Lemma dedup_all_length (all_results : list Paper) :
  (List.length (SearchPaper.dedup_all all_results)
   <= List.length all_results)%nat.
Proof.
  unfold SearchPaper.dedup_all, Dict.values. rewrite length_map.
  induction all_results as [|p l IH] using rev_ind; [simpl; lia|].
  rewrite fold_left_app, length_app. simpl.
  set (dedup := fold_left SearchPaper.dedup_step l []) in *.
  assert (List.length (SearchPaper.dedup_step dedup p)
          <= S (List.length dedup))%nat; [|lia].
  unfold SearchPaper.dedup_step.
  destruct (doi p) as [[|c d]|];
    try rewrite tuple_never_in; simpl negb; cbv iota;
    try apply DictFacts.set_length_le.
  destruct (Dict.get _ _ _) as [stored|];
    [destruct (Qltb _ _); [|lia]|]; apply DictFacts.set_length_le.
Qed.

(** C1 as stated fails in [research_service.py]: a stored record scored 95
    without abstract is replaced by an incoming record scored 80 that has
    an abstract, although the incoming score is neither higher nor equal. *)
Lemma research_service_abstract_overrides_score :
  ~ (forall (results : Dict.t str Paper) (paper existing : Paper),
        truthy (ResearchService.identity_key paper) = true ->
        Dict.get eqb results (ResearchService.identity_key paper)
        = Some existing ->
        ResearchService.merge_paper results paper <> results ->
        (score_of existing < score_of paper)%Q
        \/ (score_of existing == score_of paper
            /\ has_abstract paper = true
            /\ has_abstract existing = false)).
Proof.
  intros H.
  specialize (H [(lit "10.1/x", scored_paper 95 None)]
                (scored_paper 80 (Some (lit "text")))
                (scored_paper 95 None)).
  destruct H as [H|[H _]].
  - reflexivity.
  - reflexivity.
  - vm_compute. intros E. discriminate E.
  - vm_compute in H. discriminate H.
  - vm_compute in H. discriminate H.
Qed.

(** C1, amended: when the incoming record collides with a stored one, the
    de-duplicator of [search_paper.py] (records with a DOI, keyed by that
    DOI) stores the incoming record exactly when its score is strictly
    higher, and has no tie-break on the abstract; the de-duplicator of
    [research_service.py] stores the incoming record exactly when its score
    is strictly higher or it has a non-empty abstract and the stored
    record has none, whatever the two scores are. *)
Theorem keep_best_on_collision (dedup : Dict.t SearchPaper.dedup_key Paper)
  (results : Dict.t str Paper) (p stored paper existing : Paper)
  (d : str) :
  doi p = Some d ->
  truthy d = true ->
  Dict.get SearchPaper.dedup_key_eqb dedup (SearchPaper.KDoi d)
  = Some stored ->
  truthy (ResearchService.identity_key paper) = true ->
  Dict.get eqb results (ResearchService.identity_key paper)
  = Some existing ->
  Dict.get SearchPaper.dedup_key_eqb (SearchPaper.dedup_step dedup p)
           (SearchPaper.KDoi d)
  = Some (if Qltb (score_of stored) (score_of p) then p else stored)
  /\ Dict.get eqb (ResearchService.merge_paper results paper)
              (ResearchService.identity_key paper)
     = Some (if Qltb (score_of existing) (score_of paper)
                || (has_abstract paper && negb (has_abstract existing))
             then paper else existing).
Proof.
  intros Hd Ht Hs Hk He. split.
  - unfold SearchPaper.dedup_step. rewrite Hd.
    destruct d as [|c d']; [discriminate|].
    rewrite Hs.
    destruct (Qltb (score_of stored) (score_of p)); [|exact Hs].
    apply DictFacts.get_set_same, dedup_key_eqb_refl.
  - unfold ResearchService.merge_paper. rewrite Hk, He. simpl negb.
    cbv iota.
    destruct (Qltb (score_of existing) (score_of paper)
              || (has_abstract paper && negb (has_abstract existing)));
      [|exact He].
    apply DictFacts.get_set_same, eqb_refl.
Qed.

Lemma keep_best_on_collision_witness :
  Dict.get SearchPaper.dedup_key_eqb
           (SearchPaper.dedup_step
              [(SearchPaper.KDoi (lit "10.1/x"), scored_paper 80 None)]
              (scored_paper 95 None))
           (SearchPaper.KDoi (lit "10.1/x"))
  = Some (if Qltb (score_of (scored_paper 80 None))
                  (score_of (scored_paper 95 None))
          then scored_paper 95 None else scored_paper 80 None)
  /\ Dict.get eqb
       (ResearchService.merge_paper
          [(lit "10.1/x", scored_paper 80 None)] (scored_paper 95 None))
       (ResearchService.identity_key (scored_paper 95 None))
     = Some (if Qltb (score_of (scored_paper 80 None))
                     (score_of (scored_paper 95 None))
                || (has_abstract (scored_paper 95 None)
                    && negb (has_abstract (scored_paper 80 None)))
             then scored_paper 95 None else scored_paper 80 None).
Proof.
  apply (@keep_best_on_collision
           [(SearchPaper.KDoi (lit "10.1/x"), scored_paper 80 None)]
           [(lit "10.1/x", scored_paper 80 None)]
           (scored_paper 95 None) (scored_paper 80 None)
           (scored_paper 95 None) (scored_paper 80 None)
           (lit "10.1/x")); reflexivity.
Defined.

(** Scores 80 and 95 under one DOI: the record scored 95 survives in
    [search_paper.py], in either order of arrival. *)
Example search_paper_80_95 :
  SearchPaper.dedup_all [scored_paper 80 None; scored_paper 95 None]
  = [scored_paper 95 None]
  /\ SearchPaper.dedup_all [scored_paper 95 None; scored_paper 80 None]
     = [scored_paper 95 None].
Proof. split; reflexivity. Qed.

(** Equal scores, only the incoming record has an abstract: the stored
    record stays in [search_paper.py]. *)
Example search_paper_no_tie_break :
  SearchPaper.dedup_all
    [scored_paper 80 None; scored_paper 80 (Some (lit "text"))]
  = [scored_paper 80 None].
Proof. reflexivity. Qed.

(** Scores 80 and 95 under one DOI, no abstract: the record scored 95
    survives in [research_service.py], in either order of arrival. *)
Example research_service_80_95 :
  ResearchService.merge_paper [(lit "10.1/x", scored_paper 80 None)]
                              (scored_paper 95 None)
  = [(lit "10.1/x", scored_paper 95 None)]
  /\ ResearchService.merge_paper [(lit "10.1/x", scored_paper 95 None)]
                                 (scored_paper 80 None)
     = [(lit "10.1/x", scored_paper 95 None)].
Proof. split; reflexivity. Qed.

(** Equal scores, only the incoming record has an abstract: the incoming
    record is stored in [research_service.py]. *)
Example research_service_tie_break :
  ResearchService.merge_paper [(lit "10.1/x", scored_paper 80 None)]
                              (scored_paper 80 (Some (lit "text")))
  = [(lit "10.1/x", scored_paper 80 (Some (lit "text")))].
Proof. reflexivity. Qed.

(** Without DOI the record of [search_paper.py] that arrives last is
    stored, whatever the scores. *)
Lemma search_paper_without_doi dedup p :
  doi p = None ->
  SearchPaper.dedup_step dedup p
  = Dict.set SearchPaper.dedup_key_eqb dedup
             (SearchPaper.KRepr (title p) (yearPublished p)) p.
Proof.
  intros H. unfold SearchPaper.dedup_step. rewrite H.
  now rewrite tuple_never_in.
Qed.

End DedupFacts.

(** * Further properties *)

(** ** Retrying fetcher: bounds and the deciding response *)

Module FetcherBounds.

Lemma search_loop_skips console doi kw responses retries k :
  renders_for console doi kw ->
  forall n attempt fuel delay slept,
    (attempt + n = k)%nat -> (n < fuel)%nat ->
    (attempt + fuel = retries)%nat ->
    (forall i, (attempt <= i < k)%nat -> retryable (responses i) = true) ->
    exists delay' slept',
      SearchPaper.attempt_loop console doi kw responses retries fuel attempt delay slept
      = SearchPaper.attempt_loop console doi kw responses retries (fuel - n) k delay' slept'
      /\ List.length slept' = (List.length slept + n)%nat.
Proof.
  intros Hlog.
  induction n as [|n IH]; intros attempt fuel delay slept Hk Hn Hf Hr.
  - exists delay, slept. replace attempt with k by lia.
    rewrite Nat.sub_0_r. split; [reflexivity|lia].
  - destruct fuel as [|fuel]; [lia|].
    assert (Ha : retryable (responses attempt) = true) by (apply Hr; lia).
    assert (Hlt : (attempt <? retries - 1)%nat = true)
      by (apply Nat.ltb_lt; lia).
    assert (Hstep : exists delay1 slept1,
               SearchPaper.attempt_loop console doi kw responses retries (S fuel) attempt
                                        delay slept
               = SearchPaper.attempt_loop console doi kw responses retries fuel (S attempt)
                                          delay1 slept1
               /\ List.length slept1 = S (List.length slept)).
    { simpl. destruct (responses attempt) as [m| |code| | | |];
        try discriminate Ha; simpl.
      - simpl in Ha. rewrite Ha, (FetcherFacts.log_rate_limited Hlog).
        eexists _, _. split; [reflexivity|].
        rewrite length_app. simpl. lia.
      - rewrite (FetcherFacts.log_request_error Hlog), Hlt.
        eexists _, _. split; [reflexivity|].
        rewrite length_app. simpl. lia.
      - rewrite (FetcherFacts.log_request_error Hlog), Hlt.
        eexists _, _. split; [reflexivity|].
        rewrite length_app. simpl. lia. }
    destruct Hstep as (delay1 & slept1 & E1 & L1).
    destruct (IH (S attempt) fuel delay1 slept1) as (delay' & slept' & E & L);
      try lia.
    { intros i Hi. apply Hr. lia. }
    exists delay', slept'. split; [|lia].
    rewrite E1, E. reflexivity.
Qed.



(** X2: when the log calls of the run return and every response within
    the budget is a rate limit, a transport error or a malformed body, the
    fetcher of [search_paper.py] gives up with no message after exactly
    [retries] requests. *)
Theorem search_exhausts_retries (console : console_log) (d kw : str)
  (responses : nat -> attempt_outcome) (retries : nat) :
  truthy d = true ->
  renders_for console d kw ->
  (forall i, (i < retries)%nat -> retryable (responses i) = true) ->
  result (SearchPaper.enrich_paper_with_crossref console (Some d) kw retries
                                                 responses)
  = Returned None
  /\ attempts (SearchPaper.enrich_paper_with_crossref console (Some d) kw
                                                      retries responses)
     = retries.
Proof.
  intros Hd Hlog Hr. unfold SearchPaper.enrich_paper_with_crossref.
  destruct d as [|c d]; [discriminate|].
  destruct retries as [|r]; [split; reflexivity|].
  destruct (@search_loop_skips console (c :: d) kw responses (S r) r Hlog
              r 0%nat (S r) INITIAL_BACKOFF [])
    as (delay' & slept' & E & _); try lia.
  { intros i Hi. apply Hr. lia. }
  rewrite E. replace (S r - r)%nat with 1%nat by lia.
  assert (Ha : retryable (responses r) = true) by (apply Hr; lia).
  assert (Hlt : (r <? S r - 1)%nat = false) by (apply Nat.ltb_ge; lia).
  cbn [SearchPaper.attempt_loop].
  destruct (responses r) as [m| |code| | | |];
    try discriminate Ha; simpl.
  - simpl in Ha. rewrite Ha, (FetcherFacts.log_rate_limited Hlog).
    split; reflexivity.
  - rewrite (FetcherFacts.log_request_error Hlog).
    simpl in Hlt. rewrite Hlt. split; reflexivity.
  - rewrite (FetcherFacts.log_request_error Hlog).
    simpl in Hlt. rewrite Hlt. split; reflexivity.
Qed.

Lemma search_exhausts_retries_witness :
  result (SearchPaper.enrich_paper_with_crossref
            scenario_console (Some (lit "10.1/x")) (lit "graphene") 5
            (script []))
  = Returned None
  /\ attempts (SearchPaper.enrich_paper_with_crossref
                 scenario_console (Some (lit "10.1/x")) (lit "graphene") 5
                 (script []))
     = 5%nat.
Proof.
  apply (@search_exhausts_retries scenario_console (lit "10.1/x")
           (lit "graphene") (script []) 5).
  - reflexivity.
  - now apply FetcherFacts.scenario_console_renders.
  - intros [|[|[|[|[|i]]]]] Hi; reflexivity.
Defined.

(** *** Attempts, sleeps and the longest back-off *)

Lemma total_sleep_app l w :
  (total_sleep (l ++ [w]) == total_sleep l + w)%Q.
Proof.
  induction l as [|x l IH]; simpl; [Lqa.lra|]. rewrite IH. Lqa.lra.
Qed.

Lemma scaled_delay delay attempt :
  (0 <= delay)%Q ->
  (delay <= delay * inject_Z (Z.of_nat attempt + 1))%Q.
Proof.
  intros H.
  assert (1 <= inject_Z (Z.of_nat attempt + 1))%Q.
  { unfold Qle. simpl. lia. }
  assert (1 * delay <= inject_Z (Z.of_nat attempt + 1) * delay)%Q
    by (apply Qmult_le_compat_r; assumption).
  Lqa.lra.
Qed.

Lemma worst_wait_nonneg fuel :
  forall attempt delay, (0 <= delay)%Q -> (0 <= worst_wait fuel attempt delay)%Q.
Proof.
  induction fuel as [|fuel IH]; intros attempt delay H; simpl; [Lqa.lra|].
  pose proof (scaled_delay attempt H).
  assert (0 <= delay * (3 # 2))%Q by Lqa.lra.
  pose proof (IH (S attempt) _ H1). Lqa.lra.
Qed.

Lemma worst_plain_wait_mono fuel :
  forall d d', (0 <= d)%Q -> (d <= d')%Q ->
               (0 <= worst_plain_wait fuel d
                <= worst_plain_wait fuel d')%Q.
Proof.
  induction fuel as [|fuel IH]; intros d d' H0 H; simpl; [Lqa.lra|].
  assert (0 <= d * (3 # 2))%Q by Lqa.lra.
  assert (d * (3 # 2) <= d' * (3 # 2))%Q by Lqa.lra.
  pose proof (IH _ _ H1 H2). Lqa.lra.
Qed.

Lemma search_loop_bounds console doi kw responses retries fuel :
  forall attempt delay slept,
    (0 <= delay)%Q ->
    let run :=
      SearchPaper.attempt_loop console doi kw responses retries fuel attempt delay slept in
    (attempt <= attempts run <= attempt + fuel)%nat
    /\ (List.length (sleeps run) + attempt
        <= List.length slept + attempts run)%nat
    /\ (total_sleep (sleeps run)
        <= total_sleep slept + worst_wait fuel attempt delay)%Q.
Proof.
  induction fuel as [|fuel IH]; intros attempt delay slept Hd; cbv zeta.
  - simpl. repeat split; try lia. Lqa.lra.
  - pose proof (scaled_delay attempt Hd) as Hs.
    assert (Hd' : (0 <= delay * (3 # 2))%Q) by Lqa.lra.
    pose proof (@worst_wait_nonneg fuel (S attempt) _ Hd') as Hw.
    assert (Hret : forall r,
               (attempt <= attempts (mkRun r (S attempt) slept)
                <= attempt + S fuel)%nat
               /\ (List.length (sleeps (mkRun r (S attempt) slept)) + attempt
                   <= List.length slept
                      + attempts (mkRun r (S attempt) slept))%nat
               /\ (total_sleep (sleeps (mkRun r (S attempt) slept))
                   <= total_sleep slept
                      + worst_wait (S fuel) attempt delay)%Q).
    { intros r. simpl. repeat split; try lia. Lqa.lra. }
    assert (Hcont : forall w,
               (w <= delay * inject_Z (Z.of_nat attempt + 1))%Q ->
               let run :=
                 SearchPaper.attempt_loop console doi kw responses retries fuel (S attempt)
                                          (delay * (3 # 2)) (slept ++ [w]) in
               (attempt <= attempts run <= attempt + S fuel)%nat
               /\ (List.length (sleeps run) + attempt
                   <= List.length slept + attempts run)%nat
               /\ (total_sleep (sleeps run)
                   <= total_sleep slept
                      + worst_wait (S fuel) attempt delay)%Q).
    { intros w Hw'. cbv zeta.
      destruct (IH (S attempt) (delay * (3 # 2))%Q (slept ++ [w]) Hd')
        as (A & B & C).
      rewrite length_app in B. simpl in B.
      rewrite total_sleep_app in C. simpl worst_wait.
      repeat split; try lia. Lqa.lra. }
    cbn [SearchPaper.attempt_loop].
    destruct (request_message (responses attempt)) as [e|m]; [|apply Hret].
    destruct e; cbn [is_Exception];
      try (destruct (console _); apply Hret); try apply Hret.
    + destruct (code =? 429).
      * destruct (console _); [apply Hret|apply Hcont; Lqa.lra].
      * destruct (code =? 404); [apply Hret|].
        destruct (console _); apply Hret.
    + destruct (console _); [apply Hret|].
      destruct (_ <? _)%nat; [apply Hcont; exact Hs|apply Hret].
    + destruct (console _); [apply Hret|].
      destruct (_ <? _)%nat; [apply Hcont; exact Hs|apply Hret].
Qed.

Lemma fetch_loop_bounds responses fuel :
  forall attempt delay slept,
    (0 <= delay)%Q ->
    let run := FetchData.attempt_loop responses fuel attempt delay slept in
    (attempt <= attempts run <= attempt + fuel)%nat
    /\ (List.length (sleeps run) + attempt
        <= List.length slept + attempts run)%nat
    /\ (total_sleep (sleeps run)
        <= total_sleep slept + worst_plain_wait fuel delay)%Q.
Proof.
  induction fuel as [|fuel IH]; intros attempt delay slept Hd; cbv zeta.
  - simpl. repeat split; try lia. Lqa.lra.
  - assert (Hd' : (0 <= delay * (3 # 2))%Q) by Lqa.lra.
    assert (Hle : (delay <= delay * (3 # 2))%Q) by Lqa.lra.
    pose proof (@worst_plain_wait_mono fuel _ _ Hd Hle) as Hm.
    assert (Hret : forall r,
               (attempt <= attempts (mkRun r (S attempt) slept)
                <= attempt + S fuel)%nat
               /\ (List.length (sleeps (mkRun r (S attempt) slept)) + attempt
                   <= List.length slept
                      + attempts (mkRun r (S attempt) slept))%nat
               /\ (total_sleep (sleeps (mkRun r (S attempt) slept))
                   <= total_sleep slept
                      + worst_plain_wait (S fuel) delay)%Q).
    { intros r. simpl. repeat split; try lia. Lqa.lra. }
    assert (Hcont :
              let run :=
                FetchData.attempt_loop responses fuel (S attempt)
                                       (delay * (3 # 2)) (slept ++ [delay]) in
              (attempt <= attempts run <= attempt + S fuel)%nat
              /\ (List.length (sleeps run) + attempt
                  <= List.length slept + attempts run)%nat
              /\ (total_sleep (sleeps run)
                  <= total_sleep slept + worst_plain_wait (S fuel) delay)%Q).
    { cbv zeta.
      destruct (IH (S attempt) (delay * (3 # 2))%Q (slept ++ [delay]) Hd')
        as (A & B & C).
      rewrite length_app in B. simpl in B.
      rewrite total_sleep_app in C. simpl worst_plain_wait.
      repeat split; try lia. Lqa.lra. }
    assert (Hnext :
              let run :=
                FetchData.attempt_loop responses fuel (S attempt) delay
                                       slept in
              (attempt <= attempts run <= attempt + S fuel)%nat
              /\ (List.length (sleeps run) + attempt
                  <= List.length slept + attempts run)%nat
              /\ (total_sleep (sleeps run)
                  <= total_sleep slept + worst_plain_wait (S fuel) delay)%Q).
    { cbv zeta.
      destruct (IH (S attempt) delay slept Hd) as (A & B & C).
      simpl worst_plain_wait. repeat split; try lia. Lqa.lra. }
    simpl FetchData.attempt_loop.
    destruct (request_message (responses attempt)) as [e|m]; [|apply Hret].
    destruct e; try apply Hcont; try apply Hret.
    destruct (code =? 429); [apply Hcont|].
    destruct (code =? 404); [apply Hret|apply Hnext].
Qed.


End FetcherBounds.

(** ** De-duplication of [search_paper.py] over a whole run *)

Module DedupRun.

Import PyStrFacts DedupFacts.

Lemma get_none_not_in (d : Dict.t SearchPaper.dedup_key Paper) k :
  Dict.get SearchPaper.dedup_key_eqb d k = None <-> ~ In k (Dict.keys d).
Proof.
  induction d as [|[k' v'] r IH]; simpl.
  - split; [intros _ []|reflexivity].
  - destruct (SearchPaper.dedup_key_eqb k k') eqn:E.
    + apply dedup_key_eqb_sound in E. subst k'.
      split; [discriminate|]. intros H. exfalso. apply H. now left.
    + rewrite IH. split.
      * intros H [->|Hin]; [|now apply H].
        now rewrite dedup_key_eqb_refl in E.
      * intros H Hin. apply H. now right.
Qed.

Lemma get_some_in (d : Dict.t SearchPaper.dedup_key Paper) k v :
  Dict.get SearchPaper.dedup_key_eqb d k = Some v -> In (k, v) d.
Proof.
  induction d as [|[k' v'] r IH]; simpl; [discriminate|].
  destruct (SearchPaper.dedup_key_eqb k k') eqn:E.
  - apply dedup_key_eqb_sound in E. subst k'.
    intros H. injection H as <-. now left.
  - intros H. right. now apply IH.
Qed.

Lemma set_fresh (d : Dict.t SearchPaper.dedup_key Paper) k v :
  Dict.get SearchPaper.dedup_key_eqb d k = None -> Dict.set SearchPaper.dedup_key_eqb d k v = d ++ [(k, v)].
Proof.
  induction d as [|[k' v'] r IH]; simpl; [reflexivity|].
  destruct (SearchPaper.dedup_key_eqb k k'); [discriminate|]. intros H. now rewrite IH.
Qed.

Lemma set_keys_existing (d : Dict.t SearchPaper.dedup_key Paper) k v v0 :
  Dict.get SearchPaper.dedup_key_eqb d k = Some v0 ->
  Dict.keys (Dict.set SearchPaper.dedup_key_eqb d k v) = Dict.keys d.
Proof.
  unfold Dict.keys.
  induction d as [|[k' v'] r IH]; simpl; [discriminate|].
  destruct (SearchPaper.dedup_key_eqb k k'); simpl; [reflexivity|].
  intros H. now rewrite IH.
Qed.

Lemma set_in (d : Dict.t SearchPaper.dedup_key Paper) k v k' v' :
  In (k', v') (Dict.set SearchPaper.dedup_key_eqb d k v) ->
  (k' = k /\ v' = v) \/ In (k', v') d.
Proof.
  induction d as [|[k0 v0] r IH]; simpl.
  - intros [H|[]]. injection H as <- <-. now left.
  - destruct (SearchPaper.dedup_key_eqb k k0) eqn:E; simpl.
    + apply dedup_key_eqb_sound in E. subst k0.
      intros [H|H]; [injection H as <- <-; now left|right; now right].
    + intros [H|H]; [right; now left|].
      destruct (IH H) as [?|?]; [now left|right; now right].
Qed.

(** A step leaves the dictionary as it is or stores the record under
    its key. *)
Lemma step_cases d p :
  SearchPaper.dedup_step d p = d \/ SearchPaper.dedup_step d p = Dict.set SearchPaper.dedup_key_eqb d (key_of p) p.
Proof.
  unfold SearchPaper.dedup_step, key_of.
  destruct (doi p) as [[|c x]|].
  - rewrite tuple_never_in. now right.
  - destruct (Dict.get SearchPaper.dedup_key_eqb d (SearchPaper.KDoi (c :: x))) as [stored|];
      [|now right].
    destruct (Qltb (score_of stored) (score_of p)); [now right|now left].
  - rewrite tuple_never_in. now right.
Qed.

Lemma set_well_keyed seen d p :
  well_keyed seen d -> well_keyed (seen ++ [p]) (Dict.set SearchPaper.dedup_key_eqb d (key_of p) p).
Proof.
  intros [Hnd Hk]. split.
  - destruct (Dict.get SearchPaper.dedup_key_eqb d (key_of p)) as [v0|] eqn:G.
    + now rewrite (@set_keys_existing _ _ p _ G).
    + rewrite (@set_fresh _ _ p G). unfold Dict.keys. rewrite map_app. simpl.
      apply get_none_not_in in G.
      apply NoDup_rev in Hnd. rewrite <- (rev_involutive (map fst d ++ _)).
      apply NoDup_rev. rewrite rev_app_distr. simpl.
      constructor; [|exact Hnd]. now rewrite <- in_rev.
  - intros k v Hin. apply set_in in Hin as [[-> ->]|Hin].
    + split; [reflexivity|]. apply in_or_app. right. now left.
    + destruct (Hk _ _ Hin) as [E I]. split; [exact E|].
      apply in_or_app. now left.
Qed.

Lemma well_keyed_weaken seen p d :
  well_keyed seen d -> well_keyed (seen ++ [p]) d.
Proof.
  intros [Hnd Hk]. split; [exact Hnd|].
  intros k v Hin. destruct (Hk _ _ Hin) as [E I]. split; [exact E|].
  apply in_or_app. now left.
Qed.

Lemma fold_well_keyed (all_results : list Paper) :
  well_keyed all_results (fold_left SearchPaper.dedup_step all_results []).
Proof.
  induction all_results as [|p l IH] using rev_ind.
  - split; [constructor|intros k v []].
  - rewrite fold_left_app. simpl.
    destruct (step_cases (fold_left SearchPaper.dedup_step l []) p) as [E|E]; rewrite E.
    + now apply well_keyed_weaken.
    + now apply set_well_keyed.
Qed.

Lemma values_keys seen (d : Dict.t SearchPaper.dedup_key Paper) :
  well_keyed seen d -> map key_of (Dict.values d) = Dict.keys d.
Proof.
  intros [_ Hk]. unfold Dict.values, Dict.keys.
  induction d as [|[k v] r IH]; simpl; [reflexivity|].
  rewrite IH by (intros k' v' H; apply Hk; now right).
  f_equal. symmetry. apply (Hk k v). now left.
Qed.

Lemma search_paper_without_doi_any d p :
  has_doi p = false ->
  SearchPaper.dedup_step d p
  = Dict.set SearchPaper.dedup_key_eqb d (key_of p) p.
Proof.
  unfold has_doi, key_of, SearchPaper.dedup_step.
  destruct (doi p) as [[|c x]|]; try discriminate;
    now rewrite tuple_never_in.
Qed.

Lemma dedup_all_distinct_keys (all_results : list Paper) :
  NoDup (map key_of (SearchPaper.dedup_all all_results)).
Proof.
  pose proof (fold_well_keyed all_results) as W.
  unfold SearchPaper.dedup_all. rewrite (values_keys W). apply W.
Qed.

Lemma dedup_all_from_input (all_results : list Paper) (p : Paper) :
  In p (SearchPaper.dedup_all all_results) -> In p all_results.
Proof.
  pose proof (fold_well_keyed all_results) as W.
  unfold SearchPaper.dedup_all. intros Hp.
  unfold Dict.values in Hp. apply in_map_iff in Hp.
  destruct Hp as ([k v] & <- & Hin). now apply (proj2 W k v).
Qed.

(** X4: the merged output of [discover_and_process_multi] holds no two
    records with the same key (the same DOI, or for records without DOI
    the same title and year), every record of the output is one of the
    input records, and the output is not longer than the input. *)
Theorem dedup_output_is_a_selection (all_results : list Paper) :
  NoDup (map key_of (SearchPaper.dedup_all all_results))
  /\ (forall p, In p (SearchPaper.dedup_all all_results) -> In p all_results)
  /\ (List.length (SearchPaper.dedup_all all_results)
      <= List.length all_results)%nat.
Proof.
  split; [apply dedup_all_distinct_keys|]. split.
  - intros p. apply dedup_all_from_input.
  - apply dedup_all_length.
Qed.

Lemma step_keeps_keys d p k :
  In k (Dict.keys d) -> In k (Dict.keys (SearchPaper.dedup_step d p)).
Proof.
  intros H. destruct (step_cases d p) as [E|E]; rewrite E; [exact H|].
  destruct (Dict.get SearchPaper.dedup_key_eqb d (key_of p)) as [v0|] eqn:G.
  - now rewrite (@set_keys_existing _ _ p _ G).
  - rewrite (@set_fresh _ _ p G). unfold Dict.keys. rewrite map_app.
    apply in_or_app. now left.
Qed.

Lemma step_has_key d p : In (key_of p) (Dict.keys (SearchPaper.dedup_step d p)).
Proof.
  destruct (Dict.get SearchPaper.dedup_key_eqb d (key_of p)) as [v0|] eqn:G.
  - apply step_keeps_keys. apply get_some_in in G.
    unfold Dict.keys. apply in_map_iff. now exists (key_of p, v0).
  - assert (E : SearchPaper.dedup_step d p = Dict.set SearchPaper.dedup_key_eqb d (key_of p) p).
    { unfold SearchPaper.dedup_step. unfold key_of in *.
      destruct (doi p) as [[|c x]|]; try now rewrite tuple_never_in.
      now rewrite G. }
    rewrite E, (@set_fresh _ _ p G). unfold Dict.keys. rewrite map_app.
    apply in_or_app. right. now left.
Qed.

(** X5: no identity is lost: for every input record the output holds a
    record with the same key. *)
Theorem dedup_keeps_every_key (all_results : list Paper) (p : Paper) :
  In p all_results ->
  exists kept,
    In kept (SearchPaper.dedup_all all_results) /\ key_of kept = key_of p.
Proof.
  intros Hp.
  assert (Hk : In (key_of p) (Dict.keys (fold_left SearchPaper.dedup_step all_results []))).
  { induction all_results as [|q l IH] using rev_ind; [destruct Hp|].
    rewrite fold_left_app. simpl.
    apply in_app_or in Hp as [Hp|[->|[]]].
    - apply step_keeps_keys. now apply IH.
    - apply step_has_key. }
  pose proof (fold_well_keyed all_results) as W.
  unfold Dict.keys in Hk. apply in_map_iff in Hk.
  destruct Hk as ([k v] & E & Hin). simpl in E. subst k.
  exists v. split.
  - unfold SearchPaper.dedup_all, Dict.values. apply in_map_iff.
    now exists (key_of p, v).
  - symmetry. now apply (proj2 W (key_of p) v).
Qed.

Lemma dedup_keeps_every_key_witness :
  exists kept,
    In kept (SearchPaper.dedup_all
               [scored_paper 80 None; scored_paper 95 None])
    /\ key_of kept = key_of (scored_paper 80 None).
Proof.
  apply (@dedup_keeps_every_key
           [scored_paper 80 None; scored_paper 95 None]
           (scored_paper 80 None)).
  now left.
Defined.

Lemma refold (d2 : Dict.t SearchPaper.dedup_key Paper) :
  forall d1 seen,
    well_keyed seen (d1 ++ d2) ->
    fold_left SearchPaper.dedup_step (Dict.values d2) d1 = d1 ++ d2.
Proof.
  induction d2 as [|[k v] r IH]; intros d1 seen W; simpl.
  - now rewrite app_nil_r.
  - destruct W as [Hnd Hk].
    assert (Ek : k = key_of v)
      by (apply (Hk k v); apply in_or_app; right; now left).
    assert (G : Dict.get SearchPaper.dedup_key_eqb d1 k = None).
    { apply get_none_not_in. intros Hin.
      unfold Dict.keys in Hnd. rewrite map_app in Hnd. simpl in Hnd.
      apply NoDup_remove_2 in Hnd. apply Hnd. apply in_or_app. now left. }
    assert (E : SearchPaper.dedup_step d1 v = d1 ++ [(k, v)]).
    { rewrite <- (@set_fresh _ _ v G). subst k.
      unfold SearchPaper.dedup_step. unfold key_of in *.
      destruct (doi v) as [[|c x]|]; try now rewrite tuple_never_in.
      now rewrite G. }
    rewrite E. rewrite (IH (d1 ++ [(k, v)]) seen).
    + now rewrite <- app_assoc.
    + rewrite <- app_assoc. now split.
Qed.

(** X6: de-duplicating the merged output again changes nothing. *)
Theorem dedup_all_idempotent (all_results : list Paper) :
  SearchPaper.dedup_all (SearchPaper.dedup_all all_results)
  = SearchPaper.dedup_all all_results.
Proof.
  unfold SearchPaper.dedup_all at 1 3.
  f_equal. unfold SearchPaper.dedup_all.
  apply (@refold _ [] all_results). apply fold_well_keyed.
Qed.

Lemma best_record_in_output (all_results : list Paper) (q : Paper) :
  In q all_results ->
  has_doi q = true ->
  exists kept,
    In kept (SearchPaper.dedup_all all_results)
    /\ doi kept = doi q
    /\ (score_of q <= score_of kept)%Q.
Proof.
  intros Hq Hd. unfold has_doi in Hd.
  destruct (doi q) as [[|c d]|] eqn:E; try discriminate.
  pose proof (dedup_keeps_best all_results c d) as H.
  destruct (Dict.get SearchPaper.dedup_key_eqb
                     (fold_left SearchPaper.dedup_step all_results [])
                     (SearchPaper.KDoi (c :: d))) as [kept|] eqn:G.
  - destruct H as (_ & Hdoi & Hbest).
    exists kept. split; [|split; [exact Hdoi|now apply Hbest]].
    apply get_some_in in G.
    unfold SearchPaper.dedup_all, Dict.values. apply in_map_iff.
    now exists (SearchPaper.KDoi (c :: d), kept).
  - now contradiction (H q Hq).
Qed.

Lemma same_key_same_record (l : list Paper) a b :
  NoDup (map key_of l) -> In a l -> In b l -> key_of a = key_of b -> a = b.
Proof.
  induction l as [|x l IH]; simpl; intros Hnd Ha Hb E; [destruct Ha|].
  inversion Hnd as [|? ? Hx Hl]; subst.
  destruct Ha as [->|Ha], Hb as [->|Hb].
  - reflexivity.
  - exfalso. apply Hx. rewrite E. now apply in_map.
  - exfalso. apply Hx. rewrite <- E. now apply in_map.
  - now apply IH.
Qed.

Lemma key_of_doi a b :
  has_doi a = true -> doi b = doi a -> key_of b = key_of a.
Proof.
  unfold has_doi, key_of. intros H E. rewrite E.
  now destruct (doi a) as [[|c d]|].
Qed.

(** X7: the score kept for a DOI does not depend on the order in which the
    keyword runs complete: when the collected results are permuted, every
    record with a DOI of one output has a record with the same DOI and an
    equal score in the other output. *)
Theorem dedup_score_ignores_arrival_order (l l' : list Paper)
  (kept : Paper) :
  Permutation.Permutation l l' ->
  In kept (SearchPaper.dedup_all l) ->
  has_doi kept = true ->
  exists kept',
    In kept' (SearchPaper.dedup_all l')
    /\ doi kept' = doi kept
    /\ (score_of kept' == score_of kept)%Q.
Proof.
  intros P Hk Hd.
  pose proof (dedup_all_distinct_keys l) as Hnd.
  pose proof (@dedup_all_from_input l) as Hsub.
  pose proof (@dedup_all_from_input l') as Hsub'.
  assert (Hin' : In kept l')
    by (eapply Permutation.Permutation_in; [exact P|now apply Hsub]).
  destruct (@best_record_in_output l' kept Hin' Hd)
    as (kept' & Hk' & Hdoi' & Hle').
  exists kept'. split; [exact Hk'|]. split; [exact Hdoi'|].
  assert (Hd' : has_doi kept' = true)
    by (unfold has_doi in *; now rewrite Hdoi').
  assert (Hin : In kept' l).
  { eapply Permutation.Permutation_in;
      [apply Permutation.Permutation_sym; exact P|now apply Hsub']. }
  destruct (@best_record_in_output l kept' Hin Hd')
    as (kept2 & Hk2 & Hdoi2 & Hle2).
  assert (kept2 = kept).
  { apply (same_key_same_record _ _ _ Hnd Hk2 Hk).
    apply key_of_doi; [exact Hd|]. now rewrite Hdoi2. }
  subst kept2. now apply Qle_antisym.
Qed.

Lemma dedup_score_ignores_arrival_order_witness :
  exists kept',
    In kept' (SearchPaper.dedup_all
                [scored_paper 95 None; scored_paper 80 None])
    /\ doi kept' = doi (scored_paper 95 None)
    /\ (score_of kept' == score_of (scored_paper 95 None))%Q.
Proof.
  apply (@dedup_score_ignores_arrival_order
           [scored_paper 80 None; scored_paper 95 None]
           [scored_paper 95 None; scored_paper 80 None]
           (scored_paper 95 None)).
  - apply Permutation.perm_swap.
  - now left.
  - reflexivity.
Defined.

Lemma step_other_key d p k :
  key_of p <> k ->
  Dict.get SearchPaper.dedup_key_eqb (SearchPaper.dedup_step d p) k
  = Dict.get SearchPaper.dedup_key_eqb d k.
Proof.
  intros N. destruct (step_cases d p) as [E|E]; rewrite E; [reflexivity|].
  apply DictFacts.get_set_other; [apply dedup_key_eqb_sound|].
  destruct (SearchPaper.dedup_key_eqb k (key_of p)) eqn:K; [|reflexivity].
  apply dedup_key_eqb_sound in K. congruence.
Qed.

(** X8: a record without DOI replaces the stored record with the same
    title and year whatever the two scores are: of the input records
    without DOI that share a title and year, the one that arrives last is
    in the output. *)
Theorem dedup_without_doi_keeps_last (before after : list Paper)
  (p : Paper) :
  has_doi p = false ->
  (forall q, In q after -> key_of q <> key_of p) ->
  In p (SearchPaper.dedup_all (before ++ p :: after)).
Proof.
  intros Hd Hafter.
  assert (G : Dict.get SearchPaper.dedup_key_eqb
                (fold_left SearchPaper.dedup_step (before ++ p :: after) [])
                (key_of p) = Some p).
  { rewrite fold_left_app. simpl.
    set (d := fold_left SearchPaper.dedup_step before []).
    assert (G0 : Dict.get SearchPaper.dedup_key_eqb
                          (SearchPaper.dedup_step d p) (key_of p) = Some p).
    { rewrite search_paper_without_doi_any by exact Hd.
      apply DictFacts.get_set_same, dedup_key_eqb_refl. }
    revert G0. generalize (SearchPaper.dedup_step d p). clear d.
    induction after as [|q r IH]; intros d G0; simpl; [exact G0|].
    apply IH.
    - intros x Hx. apply Hafter. now right.
    - rewrite step_other_key; [exact G0|]. apply Hafter. now left. }
  apply get_some_in in G.
  unfold SearchPaper.dedup_all, Dict.values. apply in_map_iff.
  now exists (key_of p, p).
Qed.

Lemma dedup_without_doi_keeps_last_witness :
  In (with_citations empty_paper (Some 1))
     (SearchPaper.dedup_all
        ([set_qualityScore empty_paper 90]
           ++ with_citations empty_paper (Some 1) :: [])).
Proof.
  apply (@dedup_without_doi_keeps_last
           [set_qualityScore empty_paper 90] []
           (with_citations empty_paper (Some 1))).
  - reflexivity.
  - intros q [].
Defined.

End DedupRun.

(** ** Query normalisation *)

Module NormalizeFacts.

Import PyStrFacts Normalize.

Lemma split_runs_not_nil sep b x : split_runs sep b x <> [].
Proof.
  revert b. induction x as [|c r IH]; intros b; simpl; [discriminate|].
  destruct (sep c).
  - destruct b; [apply IH|discriminate].
  - destruct (split_runs sep false r); discriminate.
Qed.

Lemma split_runs_free sep b x :
  Forall (fun p => free_of sep p = true) (split_runs sep b x).
Proof.
  revert b. induction x as [|c r IH]; intros b; simpl.
  - repeat constructor.
  - destruct (sep c) eqn:E.
    + destruct b; [apply IH|constructor; [reflexivity|apply IH]].
    + specialize (IH false).
      destruct (split_runs sep false r) as [|p ps].
      * repeat constructor. simpl. now rewrite E.
      * inversion IH; subst. constructor; [|assumption].
        simpl. now rewrite E.
Qed.

Lemma split_runs_chars sep b x :
  Forall (fun p => forall c, In c p -> In c x) (split_runs sep b x).
Proof.
  revert b. induction x as [|c r IH]; intros b; simpl.
  - constructor; [intros c []|constructor].
  - assert (W : forall l,
               Forall (fun p => forall c0, In c0 p -> In c0 r) l ->
               Forall (fun p => forall c0, In c0 p -> c = c0 \/ In c0 r) l).
    { intros l H. eapply Forall_impl; [|exact H].
      intros p Hp c0 Hc. right. now apply Hp. }
    destruct (sep c).
    + destruct b; [apply W, IH|].
      constructor; [intros c0 []|apply W, IH].
    + specialize (IH false).
      destruct (split_runs sep false r) as [|p ps].
      * constructor; [|constructor]. intros c0 [<-|[]]. now left.
      * inversion IH; subst. constructor; [|now apply W].
        intros c0 [<-|Hc]; [now left|right; auto].
Qed.

(** The scan of [split_keywords] is the same scan. *)
Lemma re_split_from_split_runs b x :
  SearchPaper.re_split_from b x = split_runs SearchPaper.is_sep b x.
Proof.
  revert b. induction x as [|c r IH]; intros b; simpl; [reflexivity|].
  now rewrite !IH.
Qed.

Lemma contents_of_pieces sep b x :
  existsb truthy (split_runs sep b x)
  = existsb (fun c => negb (sep c)) x.
Proof.
  revert b. induction x as [|c r IH]; intros b; simpl; [reflexivity|].
  destruct (sep c) eqn:E; simpl.
  - destruct b; simpl; apply IH.
  - pose proof (@split_runs_not_nil sep false r).
    now destruct (split_runs sep false r).
Qed.

Lemma lstrip_no_space x :
  free_of is_space x = true -> lstrip x = x.
Proof.
  destruct x as [|c r]; simpl; [reflexivity|].
  now destruct (is_space c).
Qed.

Lemma free_of_rev sep x : free_of sep (rev x) = free_of sep x.
Proof.
  unfold free_of. induction x as [|c r IH]; simpl; [reflexivity|].
  rewrite forallb_app, IH. simpl. rewrite andb_true_r. apply andb_comm.
Qed.

Lemma strip_no_space x : free_of is_space x = true -> strip x = x.
Proof.
  intros H. unfold strip, rstrip.
  rewrite (lstrip_no_space _ H).
  rewrite lstrip_no_space by now rewrite free_of_rev.
  apply rev_involutive.
Qed.

Lemma token_free_no_space x :
  free_of is_token_sep x = true -> free_of is_space x = true.
Proof.
  unfold free_of. intros H. apply forallb_forall.
  intros c Hc. apply (proj1 (forallb_forall _ _) H) in Hc.
  unfold is_token_sep in Hc. cbv zeta in Hc.
  destruct (is_space c); [|reflexivity]. now rewrite orb_true_r in Hc.
Qed.

Lemma tokens_of_pieces (pieces : list str) :
  Forall (fun p => free_of is_token_sep p = true) pieces ->
  map strip (filter (fun t => truthy (strip t)) pieces)
  = filter truthy pieces.
Proof.
  induction 1 as [|p ps Hp _ IH]; simpl; [reflexivity|].
  rewrite (strip_no_space _ (token_free_no_space _ Hp)).
  destruct (truthy p); simpl; [|exact IH].
  now rewrite IH, (strip_no_space _ (token_free_no_space _ Hp)).
Qed.

Lemma tokens_filter q :
  tokens q = filter truthy (split_runs is_token_sep false q).
Proof. apply tokens_of_pieces, split_runs_free. Qed.

Lemma tokens_good q : Forall (fun t => good_token t = true) (tokens q).
Proof.
  rewrite tokens_filter. apply Forall_forall. intros t Ht.
  apply filter_In in Ht as [Hin Ht]. unfold good_token. rewrite Ht.
  now apply (proj1 (Forall_forall _ _) (split_runs_free is_token_sep false q)).
Qed.

Lemma seen_spec k seen : existsb (eqb k) seen = true <-> In k seen.
Proof.
  rewrite existsb_exists. split.
  - intros (x & Hx & E). apply eqb_eq in E. now subst.
  - intros H. exists k. split; [exact H|apply eqb_refl].
Qed.

Lemma dedupe_spec ts :
  forall seen,
    NoDup (map lower (dedupe seen ts))
    /\ forall t, In t (dedupe seen ts) -> ~ In (lower t) seen /\ In t ts.
Proof.
  induction ts as [|t r IH]; intros seen; simpl.
  - split; [constructor|intros t []].
  - destruct (existsb (eqb (lower t)) seen) eqn:E.
    + destruct (IH seen) as [Hnd Hin]. split; [exact Hnd|].
      intros x Hx. destruct (Hin x Hx). split; [assumption|now right].
    + destruct (IH (lower t :: seen)) as [Hnd Hin]. split.
      * simpl. constructor; [|exact Hnd].
        intros Hc. apply in_map_iff in Hc as (x & Ex & Hx).
        destruct (Hin x Hx) as [Hn _]. apply Hn. left. now symmetry.
      * intros x [<-|Hx].
        -- split; [|now left]. intros Hc. apply seen_spec in Hc. congruence.
        -- destruct (Hin x Hx) as [Hn Hr]. split; [|now right].
           intros Hc. apply Hn. now right.
Qed.

Lemma dedupe_fixed ts :
  forall seen,
    NoDup (map lower ts) ->
    (forall t, In t ts -> ~ In (lower t) seen) ->
    dedupe seen ts = ts.
Proof.
  induction ts as [|t r IH]; intros seen Hnd Hs; simpl; [reflexivity|].
  destruct (existsb (eqb (lower t)) seen) eqn:E.
  - apply seen_spec in E. exfalso. apply (Hs t); [now left|exact E].
  - f_equal. inversion Hnd as [|? ? Ht Hr]; subst. apply IH; [exact Hr|].
    intros x Hx [Hc|Hc].
    + apply Ht. rewrite Hc. now apply in_map.
    + apply (Hs x); [now right|exact Hc].
Qed.

(** X9: the tokens that [normalize_query] keeps are not empty, hold no
    white space, comma or semicolon, are tokens of the query, and are
    pairwise different when letter case is ignored. *)
Theorem normalized_tokens_distinct (q : str) :
  NoDup (map lower (normalized_tokens q))
  /\ Forall (fun t => good_token t = true) (normalized_tokens q)
  /\ (forall t, In t (normalized_tokens q) -> In t (tokens q)).
Proof.
  unfold normalized_tokens.
  destruct (dedupe_spec (tokens q) []) as [Hnd Hin].
  split; [exact Hnd|]. split.
  - apply Forall_forall. intros t Ht.
    apply (proj1 (Forall_forall _ _) (tokens_good q)). now apply Hin.
  - intros t Ht. now apply Hin.
Qed.

Lemma split_runs_prefix sep t rest :
  free_of sep t = true ->
  split_runs sep false (t ++ rest)
  = match split_runs sep false rest with
    | p :: ps => (t ++ p) :: ps
    | [] => [t]
    end.
Proof.
  induction t as [|c t IH]; simpl; intros H.
  - pose proof (@split_runs_not_nil sep false rest).
    now destruct (split_runs sep false rest).
  - apply andb_prop in H as [Hc Ht]. apply negb_true_iff in Hc.
    rewrite Hc, (IH Ht).
    now destruct (split_runs sep false rest).
Qed.

Lemma split_runs_after_run sep c x :
  sep c = false -> split_runs sep true (c :: x) = split_runs sep false (c :: x).
Proof. intros H. simpl. now rewrite H. Qed.

Lemma good_token_inv t :
  good_token t = true ->
  exists c t', t = c :: t' /\ is_token_sep c = false
               /\ free_of is_token_sep t = true.
Proof.
  unfold good_token. intros H. apply andb_prop in H as [Ht Hf].
  destruct t as [|c t']; [discriminate|]. exists c, t'.
  split; [reflexivity|]. split; [|exact Hf].
  simpl in Hf. apply andb_prop in Hf as [Hc _]. now apply negb_true_iff.
Qed.

Lemma split_join t ts :
  Forall (fun x => good_token x = true) (t :: ts) ->
  split_runs is_token_sep false (join (lit " ") (t :: ts)) = t :: ts.
Proof.
  revert t. induction ts as [|t2 r IH]; intros t H.
  - inversion H as [|? ? Ht _]; subst.
    apply good_token_inv in Ht as (c & t' & -> & _ & Hf).
    simpl join. rewrite <- (app_nil_r (c :: t')) at 1.
    rewrite (@split_runs_prefix _ _ _ Hf). simpl. now rewrite app_nil_r.
  - inversion H as [|? ? Ht Hr]; subst.
    specialize (IH t2 Hr).
    apply good_token_inv in Ht as (c & t' & -> & _ & Hf).
    inversion Hr as [|? ? Ht2 _]; subst.
    apply good_token_inv in Ht2 as (c2 & t2' & E2 & Hc2 & _).
    change (join (lit " ") ((c :: t') :: t2 :: r))
      with ((c :: t') ++ lit " " ++ join (lit " ") (t2 :: r)).
    rewrite (@split_runs_prefix _ _ _ Hf).
    change (lit " " ++ join (lit " ") (t2 :: r))
      with (" "%char :: join (lit " ") (t2 :: r)).
    assert (Hs : exists x, join (lit " ") (t2 :: r) = c2 :: x).
    { subst t2. destruct r; simpl; eexists; reflexivity. }
    destruct Hs as (x & Ex).
    change (split_runs is_token_sep false
              (" "%char :: join (lit " ") (t2 :: r)))
      with ([] :: split_runs is_token_sep true (join (lit " ") (t2 :: r))).
    rewrite Ex, (@split_runs_after_run _ _ x Hc2), <- Ex, IH.
    now rewrite app_nil_r.
Qed.

Lemma filter_truthy_good ts :
  Forall (fun x => good_token x = true) ts -> filter truthy ts = ts.
Proof.
  induction 1 as [|t r Ht _ IH]; simpl; [reflexivity|].
  unfold good_token in Ht. apply andb_prop in Ht as [Ht _].
  now rewrite Ht, IH.
Qed.

(** X10: [normalize_query] is idempotent: a normalised query is left as it
    is by a second normalisation. *)
Theorem normalize_query_idempotent (q : str) :
  normalize_query (normalize_query q) = normalize_query q.
Proof.
  assert (Hnd : NoDup (map lower (normalized_tokens q)))
    by apply (dedupe_spec (tokens q) []).
  assert (Hgood : Forall (fun t => good_token t = true)
                         (normalized_tokens q)).
  { apply Forall_forall. intros t Ht.
    apply (proj1 (Forall_forall _ _) (tokens_good q)).
    now apply (dedupe_spec (tokens q) []). }
  unfold normalize_query at 1 3.
  f_equal. unfold normalize_query.
  destruct (normalized_tokens q) as [|t ts] eqn:E; [reflexivity|].
  unfold normalized_tokens at 1.
  rewrite tokens_filter, (split_join Hgood), (filter_truthy_good Hgood).
  apply dedupe_fixed; [exact Hnd|]. intros x _ [].
Qed.

Lemma existsb_rev {A : Type} (f : A -> bool) (x : list A) :
  existsb f (rev x) = existsb f x.
Proof.
  induction x as [|c r IH]; simpl; [reflexivity|].
  rewrite existsb_app, IH. simpl. rewrite orb_false_r. apply orb_comm.
Qed.

Lemma has_content_lstrip x : has_content (lstrip x) = has_content x.
Proof.
  unfold has_content. induction x as [|c r IH]; simpl; [reflexivity|].
  destruct (is_space c) eqn:E; [|reflexivity].
  rewrite IH. unfold is_token_sep. rewrite E.
  now rewrite orb_true_r.
Qed.

Lemma has_content_strip x : has_content (strip x) = has_content x.
Proof.
  unfold strip, rstrip. unfold has_content at 1. rewrite existsb_rev.
  fold (has_content (lstrip (rev (lstrip x)))).
  rewrite has_content_lstrip. unfold has_content at 1. rewrite existsb_rev.
  apply has_content_lstrip.
Qed.

Lemma filter_truthy_nil (l : list str) :
  filter truthy l = [] <-> existsb truthy l = false.
Proof.
  induction l as [|x r IH]; simpl; [tauto|].
  destruct (truthy x); simpl; [split; discriminate|exact IH].
Qed.

Lemma truthy_normalize_query q :
  truthy (normalize_query q) = has_content q.
Proof.
  unfold normalize_query, normalized_tokens. rewrite tokens_filter.
  unfold has_content. rewrite <- (contents_of_pieces is_token_sep false q).
  destruct (filter truthy (split_runs is_token_sep false q)) as [|t r] eqn:E.
  - apply filter_truthy_nil in E. now rewrite E.
  - assert (Ht : truthy t = true).
    { assert (In t (filter truthy (split_runs is_token_sep false q)))
        by (rewrite E; now left).
      now apply filter_In in H. }
    assert (Hex : existsb truthy (split_runs is_token_sep false q) = true).
    { destruct (existsb truthy _) eqn:X; [reflexivity|].
      apply filter_truthy_nil in X. congruence. }
    rewrite Hex. simpl dedupe.
    destruct t as [|c t']; [discriminate|].
    simpl. now destruct (dedupe _ r).
Qed.

Lemma keyword_content q k :
  In k (SearchPaper.split_keywords q) -> has_content k = has_content q.
Proof.
  unfold SearchPaper.split_keywords, SearchPaper.re_split.
  rewrite re_split_from_split_runs.
  set (pieces := split_runs SearchPaper.is_sep false q).
  assert (Hp : forall p,
             In p pieces -> truthy (strip p) = true ->
             has_content (strip p) = true /\ has_content q = true).
  { intros p Hin Hs.
    assert (Hfree : free_of SearchPaper.is_sep p = true)
      by now apply (proj1 (Forall_forall _ _)
                          (split_runs_free SearchPaper.is_sep false q)).
    assert (Hch : forall c, In c p -> In c q)
      by now apply (proj1 (Forall_forall _ _)
                          (split_runs_chars SearchPaper.is_sep false q)).
    apply truthy_strip in Hs.
    assert (Hc : exists c, In c p /\ is_space c = false).
    { unfold blank in Hs. clear -Hs.
      induction p as [|c r IH]; simpl in Hs; [discriminate|].
      destruct (is_space c) eqn:E.
      - destruct (IH Hs) as (c' & Hin & Hc'). exists c'. split; [now right|assumption].
      - exists c. split; [now left|exact E]. }
    destruct Hc as (c & Hcp & Hsp).
    assert (Hts : is_token_sep c = false).
    { unfold free_of in Hfree.
      apply (proj1 (forallb_forall _ _) Hfree) in Hcp.
      apply negb_true_iff in Hcp.
      unfold SearchPaper.is_sep in Hcp. unfold is_token_sep.
      rewrite Hsp.
      destruct (nat_of_ascii c =? 44)%nat, (nat_of_ascii c =? 59)%nat;
        try reflexivity; simpl in Hcp;
        try discriminate; now rewrite ?orb_true_r in Hcp. }
    rewrite has_content_strip. unfold has_content.
    split; apply existsb_exists; exists c;
      (split; [auto|now rewrite Hts]). }
  destruct (map strip _) as [|k0 ks] eqn:E.
  - intros [<-|[]]. apply has_content_strip.
  - intros Hk. rewrite <- E in Hk. apply in_map_iff in Hk.
    destruct Hk as (p & <- & Hin). apply filter_In in Hin as [Hin Hf].
    apply andb_prop in Hf as [_ Hs].
    destruct (Hp p Hin Hs) as [H1 H2]. now rewrite H1, H2.
Qed.

(** X11: what [discover_and_process_single] searches for: the normalised
    form of a keyword of [split_keywords] is non-empty exactly when the
    query holds a character other than white space, comma and semicolon;
    for a query made of such characters only (for instance [",;"]) the
    one keyword normalises to the empty string. *)
Theorem keyword_normalises_to_content (q k : str) :
  In k (SearchPaper.split_keywords q) ->
  truthy (normalize_query k) = has_content q.
Proof.
  intros H. rewrite truthy_normalize_query. now apply keyword_content.
Qed.

Lemma keyword_normalises_to_content_witness :
  truthy (normalize_query (lit ",;")) = has_content (lit ",;").
Proof.
  apply (@keyword_normalises_to_content (lit ",;") (lit ",;")).
  now left.
Defined.

End NormalizeFacts.

(** ** Quality scorers: range and monotonicity *)

Module ScorerMore.

Import Num NumFacts.

Open Scope R_scope.

Lemma search_recency_ahead cur o :
  match o with Some y => (y <=? cur + 5)%Z = true | None => True end ->
  SearchPaper.recency_points cur o <= 20.
Proof.
  destruct o as [y|]; unfold SearchPaper.recency_points; [|intros _; lra].
  intros H. apply Z.leb_le in H. cbv zeta.
  destruct (cur - y <=? 5)%Z; [|lra].
  apply (IZR_le _ 20). lia.
Qed.

Lemma fetch_recency_ahead cur o :
  match o with Some y => (y <=? cur + 5)%Z = true | None => True end ->
  FetchData.recency_points cur o <= 20.
Proof.
  unfold FetchData.recency_points.
  destruct (FetchData.nonzero_z o) as [y|] eqn:E; [|intros _; lra].
  apply FetchScoreFacts.nonzero_z_some in E. subst o.
  intros H. apply Z.leb_le in H. cbv zeta.
  destruct (cur - y <=? 5)%Z; [|lra].
  apply (IZR_le _ 20). lia.
Qed.

(** X12: the documented ceiling of 150 holds as long as the publication
    year is at most five years after the current year (and SJR and h-index
    are not negative): both scorers then return a value between 0 and
    150. *)
Theorem quality_score_ceiling (current_year : Z) (p : Paper) :
  metrics_in_range (current_year + 5) p = true ->
  (0 <= SearchPaper.calculate_quality_score current_year p <= 150)%Q
  /\ (0 <= FetchData.calculate_quality_score current_year p <= 150)%Q.
Proof.
  unfold metrics_in_range. intros H.
  apply andb_prop in H as [H Hy]. apply andb_prop in H as [Hs Hh].
  assert (Hs' : match sjrScore p with
                | Some s => Qle_bool 0 s = true
                | None => True
                end) by (destruct (sjrScore p); [exact Hs|exact I]).
  assert (Hh' : match h_index p with
                | Some h => Qle_bool 0 h = true
                | None => True
                end) by (destruct (h_index p); [exact Hh|exact I]).
  assert (Hy' : match yearPublished p with
                | Some y => (y <=? current_year + 5)%Z = true
                | None => True
                end) by (destruct (yearPublished p); [exact Hy|exact I]).
  split.
  - pose proof (SearchScoreFacts.sjr_points_upper (sjrScore p)).
    pose proof (SearchScoreFacts.sjr_points_lower (sjrScore p) Hs').
    pose proof (SearchScoreFacts.h_points_upper (h_index p)).
    pose proof (SearchScoreFacts.h_points_lower (h_index p) Hh').
    pose proof (SearchScoreFacts.quartile_points_range (quartile p)).
    pose proof (SearchScoreFacts.citation_points_range (citationCount p)).
    pose proof (SearchScoreFacts.recency_points_lower current_year
                  (yearPublished p)).
    pose proof (search_recency_ahead current_year (yearPublished p) Hy').
    pose proof (SearchScoreFacts.oa_points_range (isFreelyAvailable p)).
    pose proof (SearchScoreFacts.abstract_points_range p).
    assert (0 <= SearchPaper.raw_score current_year p <= 150)
      by (unfold SearchPaper.raw_score; lra).
    unfold SearchPaper.calculate_quality_score. split.
    + apply (Qle_trans _ (0 # 100)); [unfold Qle; simpl; lia|].
      apply round2_lower. lra.
    + apply (Qle_trans _ (15000 # 100)); [|unfold Qle; simpl; lia].
      apply round2_upper. lra.
  - pose proof (FetchScoreFacts.fetch_sjr_points_upper (sjrScore p)).
    pose proof (FetchScoreFacts.fetch_sjr_points_lower (sjrScore p) Hs').
    pose proof (FetchScoreFacts.fetch_h_points_upper (h_index p)).
    pose proof (FetchScoreFacts.fetch_h_points_lower (h_index p) Hh').
    pose proof (FetchScoreFacts.fetch_quartile_points_range (quartile p)).
    pose proof (FetchScoreFacts.fetch_citation_points_range
                  (citationCount p)).
    pose proof (FetchScoreFacts.fetch_recency_points_lower current_year
                  (yearPublished p)).
    pose proof (fetch_recency_ahead current_year (yearPublished p) Hy').
    pose proof (FetchScoreFacts.fetch_oa_points_range (isFreelyAvailable p)).
    pose proof (FetchScoreFacts.fetch_abstract_points_range p).
    assert (0 <= FetchData.raw_score current_year p <= 150)
      by (unfold FetchData.raw_score; lra).
    unfold FetchData.calculate_quality_score. split.
    + apply (Qle_trans _ (0 # 100)); [unfold Qle; simpl; lia|].
      apply round2_lower. lra.
    + apply (Qle_trans _ (15000 # 100)); [|unfold Qle; simpl; lia].
      apply round2_upper. lra.
Qed.

Lemma quality_score_ceiling_witness :
  (0 <= SearchPaper.calculate_quality_score 2026 (leading_paper 2027)
   <= 150)%Q
  /\ (0 <= FetchData.calculate_quality_score 2026 (leading_paper 2027)
      <= 150)%Q.
Proof.
  apply (@quality_score_ceiling 2026 (leading_paper 2027)).
  reflexivity.
Defined.

Lemma exp_le_mono x y : x <= y -> exp x <= exp y.
Proof.
  intros [H | ->]; [left; now apply exp_increasing|right; reflexivity].
Qed.

Lemma rmin_mono_r c a b : a <= b -> Rmin c a <= Rmin c b.
Proof.
  intros H. apply Rmin_glb; [apply Rmin_l|].
  eapply Rle_trans; [apply Rmin_r|exact H].
Qed.

Lemma rmin_mono_l c a b : a <= b -> Rmin a c <= Rmin b c.
Proof.
  intros H. apply Rmin_glb; [|apply Rmin_r].
  eapply Rle_trans; [apply Rmin_l|exact H].
Qed.

Lemma search_sjr_points_le s1 s2 :
  (s1 <= s2)%Q ->
  SearchPaper.sjr_points (Some s1) <= SearchPaper.sjr_points (Some s2).
Proof.
  intros H. apply Qle_Rle in H. simpl. apply rmin_mono_r.
  assert (exp (- Q2R s2 / 3) <= exp (- Q2R s1 / 3))
    by (apply exp_le_mono; lra).
  lra.
Qed.

Lemma search_h_points_le h1 h2 :
  (h1 <= h2)%Q ->
  SearchPaper.h_points (Some h1) <= SearchPaper.h_points (Some h2).
Proof.
  intros H. apply Qle_Rle in H. simpl. apply rmin_mono_r.
  pose proof (@rmin_mono_l 200 _ _ H). lra.
Qed.

Lemma rmin_eq_l_any c : 0 <= c -> Rmin 0 c = 0.
Proof. intros H. unfold Rmin. destruct (Rle_dec 0 c); lra. Qed.

Lemma fetch_scaled_points o k cap :
  0 <= cap ->
  match FetchData.nonzero_q o with
  | Some s => Rmin (Q2R s * k) cap
  | None => 0
  end
  = match o with Some s => Rmin (Q2R s * k) cap | None => 0 end.
Proof.
  intros Hc. destruct o as [s|]; simpl; [|reflexivity].
  destruct (Qeq_bool s 0) eqn:E; [|reflexivity].
  apply Qeq_bool_eq, Qeq_eqR in E.
  replace (Q2R 0) with 0 in E by (unfold Q2R; simpl; lra).
  rewrite E, Rmult_0_l. symmetry. now apply rmin_eq_l_any.
Qed.

Lemma fetch_sjr_points_le s1 s2 :
  (s1 <= s2)%Q ->
  FetchData.sjr_points (Some s1) <= FetchData.sjr_points (Some s2).
Proof.
  intros H. apply Qle_Rle in H. unfold FetchData.sjr_points.
  rewrite !fetch_scaled_points by lra.
  apply rmin_mono_l. lra.
Qed.

Lemma fetch_h_points_le h1 h2 :
  (h1 <= h2)%Q ->
  FetchData.h_points (Some h1) <= FetchData.h_points (Some h2).
Proof.
  intros H. apply Qle_Rle in H. unfold FetchData.h_points.
  pose proof (@fetch_scaled_points (Some h1) (/ 5) 30) as E1.
  pose proof (@fetch_scaled_points (Some h2) (/ 5) 30) as E2.
  unfold Rdiv. rewrite E1, E2 by lra.
  apply rmin_mono_l. lra.
Qed.

(** X13: with every other field fixed, neither scorer decreases when the
    SJR of the journal grows, nor when its h-index grows. *)
Theorem quality_score_grows_with_journal_rank (current_year : Z)
  (p : Paper) (s1 s2 h1 h2 : Q) :
  (s1 <= s2)%Q ->
  (h1 <= h2)%Q ->
  (SearchPaper.calculate_quality_score current_year (with_sjr p (Some s1))
   <= SearchPaper.calculate_quality_score current_year
        (with_sjr p (Some s2)))%Q
  /\ (SearchPaper.calculate_quality_score current_year
        (with_h_index p (Some h1))
      <= SearchPaper.calculate_quality_score current_year
           (with_h_index p (Some h2)))%Q
  /\ (FetchData.calculate_quality_score current_year (with_sjr p (Some s1))
      <= FetchData.calculate_quality_score current_year
           (with_sjr p (Some s2)))%Q
  /\ (FetchData.calculate_quality_score current_year
        (with_h_index p (Some h1))
      <= FetchData.calculate_quality_score current_year
           (with_h_index p (Some h2)))%Q.
Proof.
  intros Hs Hh.
  pose proof (search_sjr_points_le Hs).
  pose proof (search_h_points_le Hh).
  pose proof (fetch_sjr_points_le Hs).
  pose proof (fetch_h_points_le Hh).
  repeat split; apply round2_le;
    unfold SearchPaper.raw_score, FetchData.raw_score,
      SearchPaper.abstract_points, FetchData.abstract_points, has_abstract;
    simpl citationCount; simpl sjrScore; simpl h_index; simpl quartile;
    simpl yearPublished; simpl isFreelyAvailable; simpl abstract_text; lra.
Qed.

Lemma quality_score_grows_with_journal_rank_witness :
  (SearchPaper.calculate_quality_score 2026
     (with_sjr (leading_paper 2020) (Some 1%Q))
   <= SearchPaper.calculate_quality_score 2026
        (with_sjr (leading_paper 2020) (Some 2%Q)))%Q
  /\ (SearchPaper.calculate_quality_score 2026
        (with_h_index (leading_paper 2020) (Some 10%Q))
      <= SearchPaper.calculate_quality_score 2026
           (with_h_index (leading_paper 2020) (Some 20%Q)))%Q
  /\ (FetchData.calculate_quality_score 2026
        (with_sjr (leading_paper 2020) (Some 1%Q))
      <= FetchData.calculate_quality_score 2026
           (with_sjr (leading_paper 2020) (Some 2%Q)))%Q
  /\ (FetchData.calculate_quality_score 2026
        (with_h_index (leading_paper 2020) (Some 10%Q))
      <= FetchData.calculate_quality_score 2026
           (with_h_index (leading_paper 2020) (Some 20%Q)))%Q.
Proof.
  apply (@quality_score_grows_with_journal_rank 2026 (leading_paper 2020)
           1 2 10 20); unfold Qle; simpl; lia.
Defined.

End ScorerMore.

(** ** Pagination and orchestration *)

Module PipelineFacts.

Import PyStrFacts EnrichmentFacts.

Lemma process_work_consistent cur table kw w meta :
  Pipeline.consistent cur kw (SearchPaper.process_work cur table kw w meta).
Proof. split; reflexivity. Qed.

Lemma process_page_consistent cur table kw works metas :
  Forall (Pipeline.consistent cur kw)
         (SearchPaper.process_page cur table kw works metas).
Proof.
  unfold SearchPaper.process_page.
  induction (combine works metas) as [|[w m] r IH]; simpl; [constructor|].
  destruct w as [w|]; simpl; [|exact IH].
  constructor; [apply process_work_consistent|exact IH].
Qed.

Section Run.

Variable current_year : Z.
Variable table : RankingTable.
Variable openalex : str -> str -> Pipeline.page_response.
Variable crossref : option str -> nat -> attempt_outcome.
Variable console : console_log.

Lemma fetch_loop_consistent kw fuel :
  forall cursor,
    Forall (Pipeline.consistent current_year kw)
           (Pipeline.fetch_loop current_year table openalex crossref console kw fuel
                                cursor).
Proof.
  induction fuel as [|fuel IH]; intros cursor; simpl; [constructor|].
  destruct (openalex _ cursor) as [|[|w ws] next]; try constructor.
  apply Forall_app. split; [apply process_page_consistent|].
  destruct next as [[|c x]|]; try constructor. apply IH.
Qed.

(** X14: every paper that [discover_and_process_multi] returns was found
    under one of the keywords of the query, carries that keyword as its
    source keyword, and stores the quality score that the scorer gives for
    the record itself. *)
Theorem multi_results_are_scored_and_tagged (query : str)
  (fetch_pages : nat) (completion : list str) (p : Paper) :
  Permutation.Permutation (SearchPaper.split_keywords query) completion ->
  In p (fst (Pipeline.discover_and_process_multi
               current_year table openalex crossref console query fetch_pages
               completion)) ->
  exists kw,
    In kw (SearchPaper.split_keywords query)
    /\ sourceKeyword p = Some kw
    /\ qualityScore p
       = Some (SearchPaper.calculate_quality_score current_year p).
Proof.
  intros Hperm Hin. unfold Pipeline.discover_and_process_multi in Hin.
  simpl in Hin.
  apply DedupRun.dedup_all_from_input in Hin.
  apply in_flat_map in Hin as (kw & Hkw & Hp).
  exists kw. split.
  - eapply Permutation.Permutation_in;
      [apply Permutation.Permutation_sym; exact Hperm|exact Hkw].
  - unfold Pipeline.discover_and_process_single in Hp.
    pose proof (fetch_loop_consistent kw fetch_pages (lit "*")) as H.
    apply (proj1 (Forall_forall _ _) H) in Hp. destruct Hp as [Hq Hs].
    now split.
Qed.

Lemma fetch_loop_step kw fuel cursor :
  Pipeline.fetch_loop current_year table openalex crossref console kw (S fuel) cursor
  = match openalex (Normalize.normalize_query kw) cursor with
    | Pipeline.PageFailure => []
    | Pipeline.Page [] _ => []
    | Pipeline.Page discovered_works next_cursor =>
        SearchPaper.process_page current_year table kw discovered_works
          (Pipeline.enrich_page crossref console kw discovered_works)
        ++ match next_cursor with
           | Some (c :: x) =>
               Pipeline.fetch_loop current_year table openalex crossref console kw
                                   fuel (c :: x)
           | _ => []
           end
    end.
Proof. reflexivity. Qed.


End Run.

Lemma multi_results_are_scored_and_tagged_witness :
  exists kw,
    In kw (SearchPaper.split_keywords (lit "graphene"))
    /\ sourceKeyword
         (SearchPaper.process_work 2026 [] (lit "graphene") titled_work
                                   (Returned None))
       = Some kw
    /\ qualityScore
         (SearchPaper.process_work 2026 [] (lit "graphene") titled_work
                                   (Returned None))
       = Some (SearchPaper.calculate_quality_score 2026
                 (SearchPaper.process_work 2026 [] (lit "graphene")
                                           titled_work (Returned None))).
Proof.
  apply (@multi_results_are_scored_and_tagged 2026 []
           (fun _ _ => Pipeline.Page [Some titled_work] None)
           (fun _ _ => StatusError 404) scenario_console
           (lit "graphene") 1 [lit "graphene"]).
  - apply Permutation.Permutation_refl.
  - left. reflexivity.
Defined.

(** X16: in [search_paper.py] an ISSN stored on a paper is a non-empty
    string of digits obtained from one of the candidates, and quartile,
    h-index and SJR of the paper are exactly those of the record that the
    ranking table holds under that ISSN (all absent when it holds
    none). *)
Theorem ranking_follows_resolved_issn (current_year : Z)
  (table : RankingTable) (keyword : str) (w : RawWork)
  (meta : outcome (option CrossrefMeta)) (c : str) :
  issn (SearchPaper.process_work current_year table keyword w meta)
  = Some c ->
  truthy c = true
  /\ forallb is_digit c = true
  /\ (exists raw,
         In raw (SearchPaper.issn_candidates w meta)
         /\ c = SearchPaper.clean_issn raw)
  /\ match Dict.get eqb table c with
     | Some r =>
         quartile (SearchPaper.process_work current_year table keyword w meta)
         = r_quartile r
         /\ h_index (SearchPaper.process_work current_year table keyword w
                                             meta)
            = r_h_index r
         /\ sjrScore (SearchPaper.process_work current_year table keyword w
                                              meta)
            = r_sjr r
     | None =>
         quartile (SearchPaper.process_work current_year table keyword w meta)
         = None
         /\ h_index (SearchPaper.process_work current_year table keyword w
                                             meta)
            = None
         /\ sjrScore (SearchPaper.process_work current_year table keyword w
                                              meta)
            = None
     end.
Proof.
  unfold SearchPaper.process_work. simpl issn. simpl quartile.
  simpl h_index. simpl sjrScore.
  intros E. rewrite E.
  pose proof E as E'. rewrite first_usable_issn_spec in E'.
  destruct (spec_resolved_issn_digits _ E') as [Ht Hd].
  split; [exact Ht|]. split; [exact Hd|]. split.
  - clear E'. revert E.
    induction (SearchPaper.issn_candidates w meta) as [|raw r IH]; simpl;
      [discriminate|].
    destruct (truthy raw).
    + destruct (truthy (SearchPaper.clean_issn raw)) eqn:T.
      * intros H. injection H as <-. exists raw. split; [now left|reflexivity].
      * intros H. destruct (IH H) as (x & Hx & Ex). exists x.
        split; [now right|exact Ex].
    + intros H. destruct (IH H) as (x & Hx & Ex). exists x.
      split; [now right|exact Ex].
  - destruct (Dict.get eqb table c); repeat split.
Qed.

Lemma ranking_follows_resolved_issn_witness :
  truthy (lit "12345678") = true
  /\ forallb is_digit (lit "12345678") = true
  /\ (exists raw,
         In raw (SearchPaper.issn_candidates
                   titled_work (Returned (Some sample_meta)))
         /\ lit "12345678" = SearchPaper.clean_issn raw)
  /\ match Dict.get eqb ([] : RankingTable) (lit "12345678") with
     | Some r =>
         quartile (SearchPaper.process_work 2026 [] (lit "k") titled_work
                                            (Returned (Some sample_meta)))
         = r_quartile r
         /\ h_index (SearchPaper.process_work 2026 [] (lit "k") titled_work
                                             (Returned (Some sample_meta)))
            = r_h_index r
         /\ sjrScore (SearchPaper.process_work 2026 [] (lit "k") titled_work
                                              (Returned (Some sample_meta)))
            = r_sjr r
     | None =>
         quartile (SearchPaper.process_work 2026 [] (lit "k") titled_work
                                            (Returned (Some sample_meta)))
         = None
         /\ h_index (SearchPaper.process_work 2026 [] (lit "k") titled_work
                                             (Returned (Some sample_meta)))
            = None
         /\ sjrScore (SearchPaper.process_work 2026 [] (lit "k") titled_work
                                              (Returned (Some sample_meta)))
            = None
     end.
Proof.
  apply (@ranking_follows_resolved_issn 2026 [] (lit "k") titled_work
           (Returned (Some sample_meta)) (lit "12345678")).
  reflexivity.
Defined.

End PipelineFacts.

(** ** The search endpoint *)

Module EndpointFacts.

Import PyStrFacts Endpoint.

Lemma filter_twice (A : Type) (f g : A -> bool) (l : list A) :
  filter f (filter g l) = filter (fun x => g x && f x) l.
Proof.
  induction l as [|x l IH]; simpl; [reflexivity|].
  destruct (g x); simpl; [destruct (f x)|]; now rewrite IH.
Qed.

Lemma filter_optional (A : Type) (b : bool) (f : A -> bool) (l : list A) :
  (if b then filter f l else l)
  = filter (fun x => if b then f x else true) l.
Proof.
  destruct b; [reflexivity|].
  induction l as [|x l IH]; simpl; [reflexivity|now rewrite <- IH].
Qed.

(** The eleven passes keep exactly the papers that meet every given
    condition, in their order. *)
Lemma apply_filters_passes (params : SearchParams) (l : list Paper) :
  apply_filters params l = filter (passes params) l.
Proof.
  unfold apply_filters. cbv zeta.
  rewrite !filter_optional. rewrite !filter_twice.
  apply filter_ext. intros p. unfold passes.
  now rewrite !andb_assoc.
Qed.

(** *** The sort *)

Lemma insert_desc_perm key x l :
  Permutation.Permutation (x :: l) (insert_desc key x l).
Proof.
  induction l as [|y r IH]; simpl; [apply Permutation.Permutation_refl|].
  destruct (Qle_bool (key y) (key x)); [apply Permutation.Permutation_refl|].
  eapply Permutation.perm_trans; [apply Permutation.perm_swap|].
  now apply Permutation.perm_skip.
Qed.

Lemma sort_desc_perm key l :
  Permutation.Permutation l (sort_desc key l).
Proof.
  induction l as [|x l IH]; simpl; [constructor|].
  eapply Permutation.perm_trans; [|apply insert_desc_perm].
  now apply Permutation.perm_skip.
Qed.

Lemma insert_desc_sorted key x l :
  Sorted.StronglySorted (desc key) l ->
  Sorted.StronglySorted (desc key) (insert_desc key x l).
Proof.
  induction 1 as [|y r Hs IH Hy]; simpl.
  - constructor; constructor.
  - destruct (Qle_bool (key y) (key x)) eqn:E.
    + apply Qle_bool_iff in E.
      constructor; [now constructor|].
      constructor; [exact E|].
      eapply Forall_impl; [|exact Hy]. intros z Hz. unfold desc in *.
      eapply Qle_trans; eassumption.
    + assert (Hlt : (key x < key y)%Q).
      { apply Qnot_le_lt. intros H. apply Qle_bool_iff in H. congruence. }
      constructor; [exact IH|].
      apply (proj2 (Forall_forall _ _)). intros z Hz.
      apply (Permutation.Permutation_in _
               (Permutation.Permutation_sym (insert_desc_perm key x r)))
        in Hz.
      destruct Hz as [<-|Hz]; [now apply Qlt_le_weak|].
      exact (proj1 (Forall_forall _ _) Hy z Hz).
Qed.

Lemma sort_desc_sorted key l :
  Sorted.StronglySorted (desc key) (sort_desc key l).
Proof.
  induction l as [|x l IH]; simpl; [constructor|].
  now apply insert_desc_sorted.
Qed.

Lemma in_firstn (A : Type) (n : nat) (l : list A) (x : A) :
  In x (firstn n l) -> In x l.
Proof.
  intros H. rewrite <- (firstn_skipn n l). apply in_or_app. now left.
Qed.

Lemma sorted_split (R : Paper -> Paper -> Prop) (n : nat) :
  forall l, Sorted.StronglySorted R l ->
    Sorted.StronglySorted R (firstn n l)
    /\ forall x y, In x (firstn n l) -> In y (skipn n l) -> R x y.
Proof.
  induction n as [|n IH]; intros l Hs; simpl.
  - split; [constructor|intros x y []].
  - destruct Hs as [|a l Hs Ha]; [split; [constructor|intros x y []]|].
    destruct (IH l Hs) as [H1 H2]. split.
    + constructor; [exact H1|].
      apply (proj2 (Forall_forall _ _)). intros z Hz.
      apply (proj1 (Forall_forall _ _) Ha). exact (in_firstn _ _ _ Hz).
    + intros x y [<-|Hx] Hy.
      * apply (proj1 (Forall_forall _ _) Ha).
        rewrite <- (firstn_skipn n l). apply in_or_app. now right.
      * now apply H2.
Qed.

(** Records with the same key keep their order. *)
Lemma insert_desc_stable key k x l :
  filter (fun p => Qeq_bool (key p) k) (insert_desc key x l)
  = filter (fun p => Qeq_bool (key p) k) (x :: l).
Proof.
  induction l as [|y r IH]; [reflexivity|].
  simpl insert_desc. destruct (Qle_bool (key y) (key x)) eqn:E;
    [reflexivity|].
  change (filter (fun p => Qeq_bool (key p) k) (y :: insert_desc key x r))
    with (if Qeq_bool (key y) k
          then y :: filter (fun p => Qeq_bool (key p) k)
                      (insert_desc key x r)
          else filter (fun p => Qeq_bool (key p) k) (insert_desc key x r)).
  rewrite IH. simpl.
  destruct (Qeq_bool (key x) k) eqn:Ex; [|reflexivity].
  destruct (Qeq_bool (key y) k) eqn:Ey; [|reflexivity].
  exfalso. apply Qeq_bool_iff in Ex. apply Qeq_bool_iff in Ey.
  assert (H : Qle_bool (key y) (key x) = true).
  { apply Qle_bool_iff. rewrite Ex, Ey. apply Qle_refl. }
  congruence.
Qed.

Lemma sort_desc_stable key k l :
  filter (fun p => Qeq_bool (key p) k) (sort_desc key l)
  = filter (fun p => Qeq_bool (key p) k) l.
Proof.
  induction l as [|x l IH]; [reflexivity|].
  simpl sort_desc. rewrite insert_desc_stable. simpl. now rewrite IH.
Qed.

(** *** The answer *)

Lemma search_papers_cases console params discovery :
  search_papers console params discovery
  = if rejected params then HttpError 400
    else
      match console (IncomingQueryMessage (query params)) with
      | Some raised => Unhandled raised
      | None =>
          match discovery with
          | Raised e => Unhandled e
          | Returned (discovered, parsed) =>
              match filter (passes params) discovered with
              | [] => HttpError 404
              | _ :: _ =>
                  HttpOk
                    (mkResponse (query params) parsed
                       (List.length discovered)
                       (List.length (filter (passes params) discovered))
                       (List.length
                          (firstn (limit params)
                             (sort_desc (sort_key (sort_by params))
                                (filter (passes params) discovered))))
                       (sort_by params)
                       (firstn (limit params)
                          (sort_desc (sort_key (sort_by params))
                             (filter (passes params) discovered))))
              end
          end
      end.
Proof.
  unfold search_papers, rejected. cbv zeta.
  destruct (negb (truthy (strip (query params)))); [reflexivity|].
  destruct (range_error (min_year params) (max_year params)); [reflexivity|].
  destruct (range_error (min_citations params) (max_citations params));
    [reflexivity|].
  cbn [orb].
  destruct (console (IncomingQueryMessage (query params))); [reflexivity|].
  destruct discovery as [[discovered parsed]|e]; [|reflexivity].
  rewrite apply_filters_passes.
  destruct discovered; reflexivity.
Qed.

(** The body of a successful answer. *)
Lemma search_ok_body console params discovered parsed body :
  search_papers console params (Returned (discovered, parsed)) = HttpOk body ->
  body
  = mkResponse (query params) parsed (List.length discovered)
      (List.length (filter (passes params) discovered))
      (List.length
         (firstn (limit params)
            (sort_desc (sort_key (sort_by params))
               (filter (passes params) discovered))))
      (sort_by params)
      (firstn (limit params)
         (sort_desc (sort_key (sort_by params))
            (filter (passes params) discovered)))
  /\ filter (passes params) discovered <> [].
Proof.
  rewrite search_papers_cases.
  destruct (rejected params); [discriminate|].
  destruct (console (IncomingQueryMessage (query params))); [discriminate|].
  intros H.
  destruct (filter (passes params) discovered) as [|a r] eqn:F;
    [discriminate|].
  split; [congruence|discriminate].
Qed.

(** X17: a successful answer of [search_papers] returns only discovered
    papers that meet every given filter; its counters are the lengths they
    name, the number of results is the smaller of the limit and the number
    of papers that pass, and with a limit of at least one the list of
    results is not empty. *)
Theorem search_results_pass_filters (console : console_log)
  (params : SearchParams) (discovered : list Paper) (parsed : list str)
  (body : SearchResponse) :
  search_papers console params (Returned (discovered, parsed)) = HttpOk body ->
  (forall p, In p (results body) ->
             In p discovered /\ passes params p = true)
  /\ totalDiscovered body = List.length discovered
  /\ totalAfterFiltering body
     = List.length (filter (passes params) discovered)
  /\ resultCount body = List.length (results body)
  /\ resultCount body
     = Nat.min (limit params) (totalAfterFiltering body)
  /\ (totalAfterFiltering body <= totalDiscovered body)%nat
  /\ keywords body = parsed
  /\ ((1 <= limit params)%nat -> results body <> []).
Proof.
  intros H. apply search_ok_body in H as [-> Hne].
  cbn [results resultCount totalDiscovered totalAfterFiltering keywords
         sortedBy].
  set (passing := filter (passes params) discovered) in *.
  pose proof (sort_desc_perm (sort_key (sort_by params)) passing) as Hp.
  assert (Hin : forall p,
             In p (firstn (limit params)
                     (sort_desc (sort_key (sort_by params)) passing)) ->
             In p discovered /\ passes params p = true).
  { intros p H. apply in_firstn in H.
    apply (Permutation.Permutation_in _ (Permutation.Permutation_sym Hp))
      in H.
    now apply filter_In in H. }
  assert (Hlen : List.length
                   (firstn (limit params)
                      (sort_desc (sort_key (sort_by params)) passing))
                 = Nat.min (limit params) (List.length passing)).
  { rewrite length_firstn.
    now rewrite <- (Permutation.Permutation_length Hp). }
  split; [exact Hin|]. split; [reflexivity|]. split; [reflexivity|].
  split; [reflexivity|]. split; [exact Hlen|].
  split; [apply filter_length_le|]. split; [reflexivity|].
  intros Hl E. apply (f_equal (@List.length Paper)) in E.
  rewrite Hlen in E. destruct passing; [now apply Hne|].
  simpl in E. lia.
Qed.

Lemma search_results_pass_filters_witness :
  let params :=
    mkParams (lit "graphene") 10 (Some 2000) None None None None None None
             None false false None ByQualityScore in
  let body :=
    mkResponse (lit "graphene") [lit "graphene"] 1 1 1 ByQualityScore
               [leading_paper 2020] in
  (forall p, In p (results body) ->
             In p [leading_paper 2020] /\ passes params p = true)
  /\ totalDiscovered body = List.length [leading_paper 2020]
  /\ totalAfterFiltering body
     = List.length (filter (passes params) [leading_paper 2020])
  /\ resultCount body = List.length (results body)
  /\ resultCount body
     = Nat.min (limit params) (totalAfterFiltering body)
  /\ (totalAfterFiltering body <= totalDiscovered body)%nat
  /\ keywords body = [lit "graphene"]
  /\ ((1 <= limit params)%nat -> results body <> []).
Proof.
  intros params body.
  apply (@search_results_pass_filters scenario_console params
           [leading_paper 2020] [lit "graphene"] body).
  reflexivity.
Defined.

(** X18: the results of a successful answer are in descending order of
    the sort key, and they are the top of the list: the papers that pass
    the filters are the results together with left-out papers, none of
    which has a greater key than a returned one. *)
Theorem search_results_are_the_top (console : console_log)
  (params : SearchParams) (discovered : list Paper) (parsed : list str)
  (body : SearchResponse) :
  search_papers console params (Returned (discovered, parsed)) = HttpOk body ->
  sortedBy body = sort_by params
  /\ Sorted.StronglySorted (desc (sort_key (sort_by params))) (results body)
  /\ exists left_out,
       Permutation.Permutation (results body ++ left_out)
                               (filter (passes params) discovered)
       /\ forall x y, In x (results body) -> In y left_out ->
            (sort_key (sort_by params) y <= sort_key (sort_by params) x)%Q.
Proof.
  intros H. apply search_ok_body in H as [-> _].
  cbn [results sortedBy].
  pose proof (sort_desc_sorted (sort_key (sort_by params))
                (filter (passes params) discovered)) as Hs.
  destruct (sorted_split (limit params) Hs) as [H1 H2].
  split; [reflexivity|]. split; [exact H1|].
  exists (skipn (limit params)
                (sort_desc (sort_key (sort_by params))
                           (filter (passes params) discovered))).
  split; [|exact H2].
  rewrite firstn_skipn. apply Permutation.Permutation_sym.
  apply sort_desc_perm.
Qed.

Lemma search_results_are_the_top_witness :
  let params :=
    mkParams (lit "graphene") 1 None None None None None None None
             None false false None ByYearPublished in
  let body :=
    mkResponse (lit "graphene") [lit "graphene"] 2 2 1 ByYearPublished
               [paper_of_year 2024] in
  sortedBy body = sort_by params
  /\ Sorted.StronglySorted (desc (sort_key (sort_by params))) (results body)
  /\ exists left_out,
       Permutation.Permutation
         (results body ++ left_out)
         (filter (passes params) [paper_of_year 2019; paper_of_year 2024])
       /\ forall x y, In x (results body) -> In y left_out ->
            (sort_key (sort_by params) y <= sort_key (sort_by params) x)%Q.
Proof.
  intros params body.
  apply (@search_results_are_the_top scenario_console params
           [paper_of_year 2019; paper_of_year 2024] [lit "graphene"] body).
  reflexivity.
Defined.

(** X19: the sort is stable down to the answer: the returned papers that
    share one value of the sort key come in the order they have in the
    discovered list, as the first of the passing papers with that
    value. *)
Theorem search_results_keep_order_of_ties (console : console_log)
  (params : SearchParams) (discovered : list Paper) (parsed : list str)
  (body : SearchResponse) (k : Q) :
  search_papers console params (Returned (discovered, parsed)) = HttpOk body ->
  exists later,
    filter (fun p => Qeq_bool (sort_key (sort_by params) p) k)
           (filter (passes params) discovered)
    = filter (fun p => Qeq_bool (sort_key (sort_by params) p) k)
             (results body)
      ++ later.
Proof.
  intros H. apply search_ok_body in H as [-> _].
  cbn [results].
  rewrite <- (sort_desc_stable (sort_key (sort_by params)) k
                (filter (passes params) discovered)).
  exists (filter (fun p => Qeq_bool (sort_key (sort_by params) p) k)
            (skipn (limit params)
               (sort_desc (sort_key (sort_by params))
                  (filter (passes params) discovered)))).
  now rewrite <- filter_app, firstn_skipn.
Qed.

Lemma search_results_keep_order_of_ties_witness :
  let params :=
    mkParams (lit "graphene") 1 None None None None None None None
             None false false None ByCitationCount in
  let body :=
    mkResponse (lit "graphene") [lit "graphene"] 2 2 1 ByCitationCount
               [paper_of_year 2019] in
  exists later,
    filter (fun p => Qeq_bool (sort_key (sort_by params) p) 0)
           (filter (passes params) [paper_of_year 2019; paper_of_year 2024])
    = filter (fun p => Qeq_bool (sort_key (sort_by params) p) 0)
             (results body)
      ++ later.
Proof.
  intros params body.
  apply (@search_results_keep_order_of_ties scenario_console params
           [paper_of_year 2019; paper_of_year 2024] [lit "graphene"] body 0).
  reflexivity.
Defined.

Lemma not_stripped_blank (q : str) : negb (truthy (strip q)) = blank q.
Proof.
  destruct (blank q) eqn:B.
  - now rewrite (strip_blank q B).
  - now rewrite (proj2 (truthy_strip q) B).
Qed.

Lemma rejected_iff (params : SearchParams) :
  rejected params = true
  <-> blank (query params) = true
      \/ range_error (min_year params) (max_year params) = true
      \/ range_error (min_citations params) (max_citations params) = true.
Proof.
  unfold rejected. rewrite not_stripped_blank, !orb_true_iff. tauto.
Qed.

Lemma accepted_iff (params : SearchParams) :
  rejected params = false
  <-> blank (query params) = false
      /\ range_error (min_year params) (max_year params) = false
      /\ range_error (min_citations params) (max_citations params) = false.
Proof.
  unfold rejected. rewrite not_stripped_blank, !orb_false_iff. tauto.
Qed.

Lemma nothing_passes_iff (params : SearchParams) (discovered : list Paper) :
  filter (passes params) discovered = []
  <-> forall p, In p discovered -> passes params p = false.
Proof.
  split.
  - intros E p Hp. destruct (passes params p) eqn:P; [|reflexivity].
    assert (H : In p (filter (passes params) discovered))
      by (apply filter_In; now split).
    rewrite E in H. destruct H.
  - intros H. induction discovered as [|x l IH]; [reflexivity|].
    simpl. rewrite (H x (or_introl eq_refl)). apply IH.
    intros p Hp. apply H. now right.
Qed.

Lemma search_not_found_iff console params discovery :
  search_papers console params discovery = HttpError 404
  <-> rejected params = false
      /\ console (IncomingQueryMessage (query params)) = None
      /\ exists discovered parsed,
           discovery = Returned (discovered, parsed)
           /\ forall p, In p discovered -> passes params p = false.
Proof.
  rewrite search_papers_cases.
  destruct (rejected params).
  { split; [discriminate|intros [H _]; discriminate]. }
  destruct (console (IncomingQueryMessage (query params))).
  { split; [discriminate|intros (_ & H & _); discriminate]. }
  destruct discovery as [[discovered parsed]|e].
  - destruct (filter (passes params) discovered) eqn:F.
    + split; [|reflexivity]. intros _. split; [reflexivity|].
      split; [reflexivity|]. exists discovered, parsed.
      split; [reflexivity|]. now apply nothing_passes_iff.
    + split; [discriminate|].
      intros (_ & _ & d & k & E & H). injection E as <- <-.
      apply nothing_passes_iff in H. congruence.
  - split; [discriminate|].
    intros (_ & _ & d & k & E & _). discriminate.
Qed.

Lemma search_unhandled_iff console params discovery e :
  search_papers console params discovery = Unhandled e
  <-> rejected params = false
      /\ (console (IncomingQueryMessage (query params)) = Some e
          \/ (console (IncomingQueryMessage (query params)) = None
              /\ discovery = Raised e)).
Proof.
  rewrite search_papers_cases.
  destruct (rejected params).
  { split; [discriminate|intros [H _]; discriminate]. }
  destruct (console (IncomingQueryMessage (query params))) as [r|].
  { split.
    - intros H. injection H as <-. split; [reflexivity|now left].
    - intros [_ [H|[H _]]]; [congruence|discriminate]. }
  destruct discovery as [[discovered parsed]|e'].
  - split.
    + destruct (filter (passes params) discovered); discriminate.
    + intros [_ [H|[_ H]]]; discriminate.
  - split.
    + intros H. injection H as <-. split; [reflexivity|right; now split].
    + intros [_ [H|[_ H]]]; [discriminate|congruence].
Qed.

(** X20: [search_papers] answers with status 400 exactly when the query
    is blank or a given range is inverted; on a valid request an exception
    leaves the handler (status 500) exactly when the log of the query or
    else the discovery raises it; the answer has status 404 exactly when
    the request is valid, the query is logged, the discovery returns and
    none of its papers passes the filters; there is no other error
    status. *)
Theorem search_error_statuses (console : console_log)
  (params : SearchParams) (discovery : outcome (list Paper * list str)) :
  (search_papers console params discovery = HttpError 400
   <-> blank (query params) = true
       \/ range_error (min_year params) (max_year params) = true
       \/ range_error (min_citations params) (max_citations params) = true)
  /\ (forall e,
         search_papers console params discovery = Unhandled e
         <-> (blank (query params) = false
              /\ range_error (min_year params) (max_year params) = false
              /\ range_error (min_citations params) (max_citations params)
                 = false)
             /\ (console (IncomingQueryMessage (query params)) = Some e
                 \/ (console (IncomingQueryMessage (query params)) = None
                     /\ discovery = Raised e)))
  /\ (search_papers console params discovery = HttpError 404
      <-> (blank (query params) = false
           /\ range_error (min_year params) (max_year params) = false
           /\ range_error (min_citations params) (max_citations params)
              = false)
          /\ console (IncomingQueryMessage (query params)) = None
          /\ exists discovered parsed,
               discovery = Returned (discovered, parsed)
               /\ forall p, In p discovered -> passes params p = false)
  /\ (forall status,
         search_papers console params discovery = HttpError status ->
         status = 400 \/ status = 404).
Proof.
  split; [|split; [|split]].
  - rewrite <- rejected_iff. rewrite search_papers_cases.
    destruct (rejected params); [split; reflexivity|].
    destruct (console _); [split; discriminate|].
    destruct discovery as [[discovered parsed]|e]; [|split; discriminate].
    destruct (filter (passes params) discovered); split; discriminate.
  - intros e. rewrite search_unhandled_iff. now rewrite accepted_iff.
  - rewrite search_not_found_iff. now rewrite accepted_iff.
  - intros st. rewrite search_papers_cases.
    destruct (rejected params).
    + intros H. injection H as <-. now left.
    + destruct (console _); [discriminate|].
      destruct discovery as [[discovered parsed]|e]; [|discriminate].
      destruct (filter (passes params) discovered); [|discriminate].
      intros H. injection H as <-. now right.
Qed.

(** X21: a citation range whose upper bound is 0 is not checked: with a
    positive [min_citations] and [max_citations = 0] an otherwise valid
    request is not rejected with status 400; once its query is logged it
    is answered with status 404, whatever the discovery returned. *)
Theorem zero_upper_bound_is_not_validated (console : console_log)
  (params : SearchParams) (discovered : list Paper) (parsed : list str)
  (lo : Z) :
  blank (query params) = false ->
  range_error (min_year params) (max_year params) = false ->
  min_citations params = Some lo ->
  max_citations params = Some 0 ->
  0 < lo ->
  console (IncomingQueryMessage (query params)) = None ->
  search_papers console params (Returned (discovered, parsed))
  = HttpError 404.
Proof.
  intros Hb Hy Hlo Hhi Hpos Hlog.
  apply search_not_found_iff. split; [|split; [exact Hlog|]].
  - apply accepted_iff. split; [exact Hb|]. split; [exact Hy|].
    unfold range_error. rewrite Hhi. simpl.
    now destruct (truthy_z (min_citations params)).
  - exists discovered, parsed. split; [reflexivity|].
    intros p _. unfold passes. rewrite Hlo, Hhi.
    unfold when at 3 4. unfold citations_at_least, citations_at_most.
    destruct (citationCount p) as [c|].
    + assert (E : (lo <=? c) && (c <=? 0) = false).
      { destruct (lo <=? c) eqn:A; [|reflexivity].
        destruct (c <=? 0) eqn:B; [|reflexivity]. lia. }
      destruct (when (min_year params) year_at_least p
                && when (max_year params) year_at_most p); simpl.
      * rewrite E. reflexivity.
      * reflexivity.
    + rewrite !andb_false_r. reflexivity.
Qed.

Lemma zero_upper_bound_is_not_validated_witness :
  search_papers scenario_console
    (mkParams (lit "graphene") 10 None None (Some 5) (Some 0) None None None
              None false false None ByQualityScore)
    (Returned ([leading_paper 2020], [lit "graphene"]))
  = HttpError 404.
Proof.
  apply (@zero_upper_bound_is_not_validated scenario_console
           (mkParams (lit "graphene") 10 None None (Some 5) (Some 0) None
                     None None None false false None ByQualityScore)
           [leading_paper 2020] [lit "graphene"] 5);
    try reflexivity.
Defined.

(** The query ["[/]"] is not blank and is logged before the discovery:
    the log call raises and the request is answered with status 500. *)
Example search_query_with_unmatched_tag discovery :
  search_papers scenario_console
    (mkParams (lit "[/]") 10 None None None None None None None None false
              false None ByQualityScore)
    discovery
  = Unhandled MarkupError.
Proof. reflexivity. Qed.

End EndpointFacts.

(** ** De-duplication of [research_service.py] over a whole run *)

Module ServiceRun.

Import PyStrFacts.

Section Ordered.

Variables K V : Type.
Variable keq : K -> K -> bool.
Hypothesis keq_refl : forall k, keq k k = true.
Hypothesis keq_sound : forall a b, keq a b = true -> a = b.

Lemma dict_set_in (d : Dict.t K V) k v k' v' :
  In (k', v') (Dict.set keq d k v) -> (k' = k /\ v' = v) \/ In (k', v') d.
Proof.
  induction d as [|[k0 v0] r IH]; simpl.
  - intros [H|[]]. injection H as <- <-. now left.
  - destruct (keq k k0) eqn:E; simpl.
    + apply keq_sound in E. subst k0.
      intros [H|H]; [injection H as <- <-; now left|right; now right].
    + intros [H|H]; [right; now left|].
      destruct (IH H) as [?|?]; [now left|right; now right].
Qed.

Lemma dict_set_keys (d : Dict.t K V) k v :
  Dict.keys (Dict.set keq d k v) = Dict.keys d
  \/ (~ In k (Dict.keys d)
      /\ Dict.keys (Dict.set keq d k v) = Dict.keys d ++ [k]).
Proof.
  unfold Dict.keys. induction d as [|[k0 v0] r IH]; simpl.
  - right. split; [intros []|reflexivity].
  - destruct (keq k k0) eqn:E; simpl; [now left|].
    destruct IH as [IH|[Hn IH]]; [left; now rewrite IH|].
    right. split; [|now rewrite IH].
    intros [->|H]; [|now apply Hn].
    rewrite keq_refl in E. discriminate.
Qed.

Lemma dict_set_nodup (d : Dict.t K V) k v :
  NoDup (Dict.keys d) -> NoDup (Dict.keys (Dict.set keq d k v)).
Proof.
  intros Hnd. destruct (dict_set_keys d k v) as [E|[Hn E]]; rewrite E.
  - exact Hnd.
  - apply NoDup_rev in Hnd. rewrite <- (rev_involutive (_ ++ _)).
    apply NoDup_rev. rewrite rev_app_distr. simpl.
    constructor; [now rewrite <- in_rev|exact Hnd].
Qed.

End Ordered.

Lemma merge_cases (results : Dict.t str Paper) (paper : Paper) :
  ResearchService.merge_paper results paper = results
  \/ (truthy (ResearchService.identity_key paper) = true
      /\ ResearchService.merge_paper results paper
         = Dict.set eqb results (ResearchService.identity_key paper) paper).
Proof.
  unfold ResearchService.merge_paper. cbv zeta.
  destruct (truthy (ResearchService.identity_key paper)); simpl;
    [|now left].
  destruct (Dict.get eqb results (ResearchService.identity_key paper));
    [|now right].
  destruct (Qltb _ _ || _)%bool; [now right|now left].
Qed.

Lemma service_keyed_weaken cur table seen x d :
  service_keyed cur table seen d -> service_keyed cur table (seen ++ [x]) d.
Proof.
  intros [Hnd Hk]. split; [exact Hnd|].
  intros k v Hin. destruct (Hk k v Hin) as (E & T & w & m & Hs & Ev).
  split; [exact E|]. split; [exact T|]. exists w, m.
  split; [apply in_or_app; now left|exact Ev].
Qed.

Lemma process_works_keyed cur table pairs :
  service_keyed cur table pairs
                (ResearchService.process_works cur table [] pairs).
Proof.
  unfold ResearchService.process_works.
  induction pairs as [|[work meta] l IH] using rev_ind.
  - split; [constructor|intros k v []].
  - rewrite fold_left_app. cbn [fold_left fst snd].
    revert IH. generalize (fold_left
      (fun res (wm : option RawWork * outcome (option CrossrefMeta)) =>
         ResearchService.process_work cur table res (fst wm) (snd wm))
      l []).
    intros d IH. unfold ResearchService.process_work.
    destruct work as [w|]; [|now apply service_keyed_weaken].
    destruct meta as [[m|]|e]; try now apply service_keyed_weaken.
    destruct (merge_cases d (ResearchService.build_paper cur table w m))
      as [E|[T E]]; rewrite E; [now apply service_keyed_weaken|].
    destruct IH as [Hnd Hk]. split.
    + apply dict_set_nodup; [apply eqb_refl|exact Hnd].
    + intros k v Hin.
      apply (@dict_set_in _ _ eqb (fun a b => proj1 (eqb_eq a b))) in Hin.
      destruct Hin as [[-> ->]|Hin].
      * split; [reflexivity|]. split; [exact T|]. exists w, m.
        split; [apply in_or_app; right; now left|reflexivity].
      * destruct (Hk k v Hin) as (Ek & Tk & w' & m' & Hs & Ev).
        split; [exact Ek|]. split; [exact Tk|]. exists w', m'.
        split; [apply in_or_app; now left|exact Ev].
Qed.

(** X22: the list that the loop of [discover_many_keywords] returns holds
    at most one record per identity key (the lower-cased, stripped DOI,
    else title), no record with an empty key, and only records built from
    a work whose lookup returned metadata. *)
Theorem service_results_are_keyed (current_year : Z) (table : RankingTable)
  (pairs : list (option RawWork * outcome (option CrossrefMeta))) :
  NoDup (map ResearchService.identity_key
             (Dict.values
                (ResearchService.process_works current_year table []
                                               pairs)))
  /\ forall v,
       In v (Dict.values
               (ResearchService.process_works current_year table [] pairs)) ->
       truthy (ResearchService.identity_key v) = true
       /\ exists w m,
            In (Some w, Returned (Some m)) pairs
            /\ v = ResearchService.build_paper current_year table w m.
Proof.
  destruct (process_works_keyed current_year table pairs) as [Hnd Hk].
  set (d := ResearchService.process_works current_year table [] pairs) in *.
  assert (E : map ResearchService.identity_key (Dict.values d)
              = Dict.keys d).
  { unfold Dict.values, Dict.keys. clear Hnd.
    induction d as [|[k v] r IH]; simpl; [reflexivity|].
    rewrite IH by (intros k' v' H; apply Hk; now right).
    f_equal. symmetry. apply (Hk k v). now left. }
  split; [now rewrite E|].
  intros v Hv. unfold Dict.values in Hv. apply in_map_iff in Hv.
  destruct Hv as ([k v'] & <- & Hin). simpl.
  destruct (Hk k v' Hin) as (Ek & T & Hw). split; [now rewrite <- Ek|exact Hw].
Qed.

End ServiceRun.
